(** * Consensus dashboard: query parsing, market data, indicators, consensus

    A shallow embedding of the TypeScript sources of the prediction-market
    dashboard:

    - [QueryParser]       the query parser, src/unnamed/part_001
                          (extractAssetsFromQuery, mapSymbolToName)
    - [Api]               the FTSO API client, src/unnamed/part_002
                          (ftsoApi.getAllFeeds, ftsoApi.getFeedById)
    - [PredictionService] the prediction service, src/unnamed/part_003
                          (analyzePrediction, getMarketDataFeeds,
                          getModelComparison)
    - [MoralisService]    the market-data service, src/unnamed/part_003
                          (getTokenPrice, getHistoricalPrices,
                          getMarketDataFeeds, createFallbackDataFeed)
    - [MarketAnalytics]   the MarketAnalytics component, in
                          components/consensus/ConsensusAnalyticsDashboard.tsx
                          (calculateTechnicalIndicatorsFromHistorical,
                          calculateMarketMetricsFromHistorical,
                          calculateEstimatedMarketCap)
    - [Doubles]           the RSI and the Bollinger bands of
                          calculateTechnicalIndicatorsFromHistorical once
                          more, on numbers that round and overflow
    - [Landing]           the Header component, in app/landing.tsx
                          (handlePredictionSubmit, generateVerificationDetails,
                          generateModelComparison)
    - [PredictionMarket]  the PredictionMarket view, in app/landing.tsx
                          (the statistics tiles and the deviation chart)
    - [DataFeedDisplay]   the DataFeedDisplay component, src/unnamed/part_001
                          (the effect that filters and sorts the feeds)

    Conventions of the embedding.

    - A JavaScript number is a rational [Q]: arithmetic is exact, so rounding,
      overflow, NaN and the infinities of IEEE doubles are outside the model.
      [Math.sqrt] leaves the rationals and is a parameter of the functions
      that call it.  [Doubles] has the numbers with the infinities and NaN,
      and an arithmetic that rounds and overflows.
    - A JavaScript string is a [string] of 8-bit characters; case conversion
      is the ASCII one.
    - [Math.random()] reads the next element of an infinite sequence of draws;
      the position in the sequence is threaded as state ([Rand]).
    - An awaited network call takes its outcome (a response or a failure) as
      an argument; an async function returns [Returned v] or [Threw e].
    - Lookups in object literals see the literal's own keys only; the names
      an object inherits besides are [JS.objectPrototypeKeys].
    - The date of a mock price point is a valid time, [i] times 24 hours
      back for the point [i] calendar days back. *)

From Stdlib Require Import ZArith QArith Qround Qabs Qminmax Qpower.
From Stdlib Require Import List String Ascii Bool Lia Lqa.
From Stdlib Require Import Sorted Permutation RelationClasses.
Import ListNotations.

Local Open Scope string_scope.

(* ================================================================== *)
(** ** JavaScript primitives *)
(* ================================================================== *)

Module JS.

(** *** Strings *)

Definition is_upper (c : ascii) : bool :=
  (65 <=? nat_of_ascii c)%nat && (nat_of_ascii c <=? 90)%nat.

Definition is_lower (c : ascii) : bool :=
  (97 <=? nat_of_ascii c)%nat && (nat_of_ascii c <=? 122)%nat.

Definition is_digit (c : ascii) : bool :=
  (48 <=? nat_of_ascii c)%nat && (nat_of_ascii c <=? 57)%nat.

Definition lower_char (c : ascii) : ascii :=
  if is_upper c then ascii_of_nat (nat_of_ascii c + 32) else c.

Definition upper_char (c : ascii) : ascii :=
  if is_lower c then ascii_of_nat (nat_of_ascii c - 32) else c.

(** [s.toLowerCase()] *)
Fixpoint toLowerCase (s : string) : string :=
  match s with
  | EmptyString => EmptyString
  | String c r => String (lower_char c) (toLowerCase r)
  end.

(** [s.toUpperCase()] *)
Fixpoint toUpperCase (s : string) : string :=
  match s with
  | EmptyString => EmptyString
  | String c r => String (upper_char c) (toUpperCase r)
  end.

(** [s.includes(sub)] *)
Fixpoint includes (s sub : string) : bool :=
  prefix sub s ||
  match s with
  | EmptyString => false
  | String _ r => includes r sub
  end.

(** [s.charAt(0).toUpperCase() + s.slice(1)] *)
Definition capitalize (s : string) : string :=
  match s with
  | EmptyString => EmptyString
  | String c r => String (upper_char c) r
  end.

(** [arr.includes(x)] on an array of strings *)
Definition array_includes (arr : list string) (x : string) : bool :=
  existsb (String.eqb x) arr.

(** Lookup of an own key in an object literal, kept as the list of its
    entries in source order. *)
Fixpoint lookup {A : Type} (obj : list (string * A)) (key : string) : option A :=
  match obj with
  | [] => None
  | (k, v) :: rest => if String.eqb k key then Some v else lookup rest key
  end.

(** The names every object inherits from [Object.prototype]: under them
    [obj[key]] finds the inherited member when [obj] has no own one. *)
Definition objectPrototypeKeys : list string :=
  [ "constructor"; "__defineGetter__"; "__defineSetter__"; "hasOwnProperty";
    "__lookupGetter__"; "__lookupSetter__"; "isPrototypeOf";
    "propertyIsEnumerable"; "toString"; "valueOf"; "__proto__";
    "toLocaleString" ].

Definition inherited (key : string) : bool :=
  array_includes objectPrototypeKeys key.

(** *** Regular expressions of the shape [\b<literal>\b] with flag [i] *)

(** The class [\w] = [A-Za-z0-9_]. *)
Definition is_word_char (c : ascii) : bool :=
  is_upper c || is_lower c || is_digit c || Ascii.eqb c "_"%char.

Definition wordb (o : option ascii) : bool :=
  match o with
  | Some c => is_word_char c
  | None => false
  end.

(** The assertion [\b] between the character before the position and the
    character at it; the ends of the input count as non-word. *)
Definition at_boundary (before after : option ascii) : bool :=
  xorb (wordb before) (wordb after).

Definition hd_char (s : string) : option ascii :=
  match s with
  | EmptyString => None
  | String c _ => Some c
  end.

(** Matches the literal at the head of [s], comparing characters after
    canonicalisation to upper case (flag [i]).  Returns the last character
    consumed ([prev] when the literal is empty) and the rest of the input. *)
Fixpoint match_literal_ci (lit s : string) (prev : option ascii)
  : option (option ascii * string) :=
  match lit with
  | EmptyString => Some (prev, s)
  | String a lit' =>
      match s with
      | EmptyString => None
      | String c s' =>
          if Ascii.eqb (upper_char a) (upper_char c)
          then match_literal_ci lit' s' (Some c)
          else None
      end
  end.

Definition match_here (lit : string) (prev : option ascii) (s : string) : bool :=
  at_boundary prev (hd_char s) &&
  match match_literal_ci lit s prev with
  | Some (last, rest) => at_boundary last (hd_char rest)
  | None => false
  end.

Fixpoint regex_test_from (lit : string) (prev : option ascii) (s : string) : bool :=
  match_here lit prev s ||
  match s with
  | EmptyString => false
  | String c s' => regex_test_from lit (Some c) s'
  end.

(** [new RegExp(`\\b${lit}\\b`, 'i').test(s)] for a literal without
    metacharacters. *)
Definition word_regex_test (lit s : string) : bool :=
  regex_test_from lit None s.

(** *** Numbers *)

(** [x || d] on numbers: [0] is the falsy rational. *)
Definition num_or (x d : Q) : Q := if Qeq_bool x 0 then d else x.

(** [Math.round]: the nearest integer, halves towards plus infinity. *)
Definition Math_round (x : Q) : Z := Qfloor (x + (1 # 2)).

(** [Math.floor] *)
Definition Math_floor (x : Q) : Z := Qfloor x.

(** [Math.round(x * 100) / 100], for an [x] whose hundredfold is still a
    finite double. *)
Definition round2 (x : Q) : Q := inject_Z (Math_round (x * 100)) / 100.

Definition Qgtb (x y : Q) : bool := negb (Qle_bool x y).
Definition Qltb (x y : Q) : bool := negb (Qle_bool y x).

(** [xs.reduce((sum, x) => sum + x, 0)] *)
Definition sum (xs : list Q) : Q := fold_left Qplus xs 0.

(** [arr.slice(-k)]: the last [k] elements, the whole array when it is
    shorter (and when [k] is 0, where [-0] is index 0). *)
Definition slice_last {A : Type} (k : nat) (arr : list A) : list A :=
  if (k =? 0)%nat then arr else skipn (List.length arr - k) arr.

(** [x.toFixed(d)], as the number its decimal string denotes: [d] decimals,
    the sign set aside and halves rounded away from zero. *)
Definition toFixed (d : nat) (x : Q) : Q :=
  let scale := inject_Z (10 ^ Z.of_nat d) in
  let n := inject_Z (Qfloor (Qabs x * scale + (1 # 2))) / scale in
  if Qltb x 0 then - n else n.

(** [x.toLocaleString()], as the number its string shows: the default
    format keeps at most three decimals, halves rounded away from zero,
    whatever separators and digits the locale writes. *)
Definition toLocaleString (x : Q) : Q := toFixed 3 x.

(** A [Date] is the instant it denotes, in milliseconds since the epoch;
    [toISOString] throws a RangeError outside the range of valid times. *)
Definition valid_time (t : Z) : bool :=
  (Z.abs t <=? 8640000000000000)%Z.

Definition ms_per_hour : Z := 3600000.
Definition ms_per_day : Z := 86400000.

(** An [Error] value, by its message. *)
Record Error : Type := mkError { message : string }.

(** *** Async results and the random source *)

Inductive outcome (E A : Type) : Type :=
| Returned (v : A)
| Threw (e : E).
Arguments Returned {E A} v.
Arguments Threw {E A} e.

(** The values [Math.random()] hands out, in call order. *)
Definition draws := nat -> Q.

(** Each draw is in [0, 1). *)
Definition valid_draws (g : draws) : Prop := forall n, 0 <= g n /\ g n < 1.

(** A computation that calls [Math.random()]: from the position in the
    sequence to a value and the next position. *)
Definition Rand (A : Type) : Type := draws -> nat -> A * nat.

Definition ret {A} (a : A) : Rand A := fun _ n => (a, n).

Definition bind {A B} (m : Rand A) (k : A -> Rand B) : Rand B :=
  fun g n => let (a, n') := m g n in k a g n'.

Definition random : Rand Q := fun g n => (g n, S n).

(** [xs.map(f)] where [f] draws random numbers, left to right. *)
Fixpoint mapM {A B} (f : A -> Rand B) (xs : list A) : Rand (list B) :=
  match xs with
  | [] => ret []
  | x :: r => bind (f x) (fun y => bind (mapM f r) (fun ys => ret (y :: ys)))
  end.

(** [n] calls whose values only end up in display text. *)
Fixpoint skip (n : nat) : Rand unit :=
  match n with
  | O => ret tt
  | S k => bind random (fun _ => skip k)
  end.

Definition run {A} (m : Rand A) (g : draws) : A := fst (m g 0%nat).

End JS.

Declare Scope rand_scope.
Delimit Scope rand_scope with rand.
Notation "x <- m ;; k" := (JS.bind m (fun x => k))
  (at level 61, m at next level, right associativity) : rand_scope.

(* ================================================================== *)
(** ** The query parser (unnamed/part_001) *)
(* ================================================================== *)

Module QueryParser.
Import JS.

Definition commonAssets : list string :=
  [ "bitcoin"; "btc";
    "ethereum"; "eth";
    "solana"; "sol";
    "cardano"; "ada";
    "binance coin"; "bnb";
    "ripple"; "xrp";
    "dogecoin"; "doge";
    "polkadot"; "dot";
    "avalanche"; "avax";
    "litecoin"; "ltc";
    "chainlink"; "link";
    "polygon"; "matic";
    "uniswap"; "uni";
    "stellar"; "xlm";
    "cosmos"; "atom";
    "near protocol"; "near";
    "algorand"; "algo";
    "tron"; "trx";
    "s&p 500"; "nasdaq"; "dow jones"; "dji";
    "gold"; "silver"; "crude oil"; "natural gas";
    "tesla"; "apple"; "microsoft"; "amazon"; "google"; "meta" ].

Definition symbolMap : list (string * string) :=
  [ ("btc", "Bitcoin");
    ("bitcoin", "Bitcoin");
    ("eth", "Ethereum");
    ("ethereum", "Ethereum");
    ("sol", "Solana");
    ("solana", "Solana");
    ("ada", "Cardano");
    ("cardano", "Cardano");
    ("bnb", "BNB");
    ("binance coin", "BNB");
    ("xrp", "XRP");
    ("ripple", "XRP");
    ("doge", "Dogecoin");
    ("dogecoin", "Dogecoin");
    ("dot", "Polkadot");
    ("polkadot", "Polkadot");
    ("avax", "Avalanche");
    ("avalanche", "Avalanche");
    ("ltc", "Litecoin");
    ("litecoin", "Litecoin");
    ("link", "Chainlink");
    ("chainlink", "Chainlink");
    ("matic", "Polygon");
    ("polygon", "Polygon");
    ("uni", "Uniswap");
    ("uniswap", "Uniswap");
    ("xlm", "Stellar");
    ("stellar", "Stellar");
    ("atom", "Cosmos");
    ("cosmos", "Cosmos");
    ("near", "NEAR Protocol");
    ("near protocol", "NEAR Protocol");
    ("algo", "Algorand");
    ("algorand", "Algorand");
    ("trx", "TRON");
    ("tron", "TRON");
    ("nasdaq", "NASDAQ");
    ("s&p 500", "S&P 500");
    ("dow jones", "Dow Jones");
    ("dji", "Dow Jones");
    ("gold", "Gold");
    ("silver", "Silver");
    ("crude oil", "Crude Oil");
    ("natural gas", "Natural Gas");
    ("tesla", "Tesla");
    ("apple", "Apple");
    ("microsoft", "Microsoft");
    ("amazon", "Amazon");
    ("google", "Google");
    ("meta", "Meta") ].

(** [symbolMap[symbol] || symbol.charAt(0).toUpperCase() + symbol.slice(1)];
    the empty string is the falsy one. *)
Definition mapSymbolToName (symbol : string) : string :=
  match lookup symbolMap symbol with
  | Some name => if String.eqb name "" then capitalize symbol else name
  | None => capitalize symbol
  end.

(** [if (!assets.includes(fullName)) assets.push(fullName)] *)
Definition push_unique (assets : list string) (fullName : string) : list string :=
  if array_includes assets fullName then assets else assets ++ [fullName].

(** The body of the loop over [commonAssets]. *)
Definition check_asset (normalizedQuery : string) (assets : list string)
  (asset : string) : list string :=
  if includes normalizedQuery asset then
    if (String.length asset <=? 4)%nat then
      if word_regex_test asset normalizedQuery then
        push_unique assets (mapSymbolToName (toLowerCase asset))
      else assets
    else
      push_unique assets (mapSymbolToName (toLowerCase asset))
  else assets.

Definition extractAssetsFromQuery (query : string) : list string :=
  let normalizedQuery := toLowerCase query in
  fold_left (check_asset normalizedQuery) commonAssets [].

End QueryParser.

(* ================================================================== *)
(** ** The FTSO API client (unnamed/part_002) *)
(* ================================================================== *)

Module Api.
Import JS.
Local Open Scope rand_scope.
Local Open Scope Q_scope.

Record HistoricalDataPoint : Type := mkPoint
  { hp_timestamp : Z;
    price : Q }.

Record FTSOFeed : Type := mkFeed
  { id : string;
    name : string;
    current_price : Q;
    previous_price : Q;
    change_24h : Q;
    updated_at : Z;
    historical_data : list HistoricalDataPoint }.

(** One iteration of the loop of [generateMockHistoricalData]. *)
Definition mockPoint (now : Z) (min max : Q) (i : nat) : Rand HistoricalDataPoint :=
  r <- random ;;
  let timestamp := (now - Z.of_nat i * ms_per_hour)%Z in
  let randomValue := min + r * (max - min) in
  ret (mkPoint timestamp (toFixed (if Qltb min 1 then 4 else 2) randomValue)).

(** Hourly points for the last 24 hours, returned in chronological order. *)
Definition generateMockHistoricalData (now : Z) (min max : Q)
  : Rand (list HistoricalDataPoint) :=
  result <- mapM (mockPoint now min max) (seq 0 24) ;;
  ret (rev result).

Definition mockFeeds (now : Z) : Rand (list FTSOFeed) :=
  h1 <- generateMockHistoricalData now (57 # 100) (60 # 100) ;;
  h2 <- generateMockHistoricalData now (23 # 1000) (26 # 1000) ;;
  h3 <- generateMockHistoricalData now 64 68 ;;
  h4 <- generateMockHistoricalData now 27000 28000 ;;
  h5 <- generateMockHistoricalData now 1800 1850 ;;
  ret [ mkFeed "ftso-xrp-usd" "XRP/USD" (5923 # 10000) (5738 # 10000) (322 # 100) now h1;
        mkFeed "ftso-flr-usd" "FLR/USD" (243 # 10000) (251 # 10000) (- (319 # 100)) now h2;
        mkFeed "ftso-ltc-usd" "LTC/USD" (6792 # 100) (6547 # 100) (374 # 100) now h3;
        mkFeed "ftso-btc-usd" "BTC/USD" (2745312 # 100) (2798135 # 100) (- (189 # 100)) now h4;
        mkFeed "ftso-eth-usd" "ETH/USD" (184327 # 100) (180153 # 100) (232 # 100) now h5 ].

(** [ftsoApi.getAllFeeds]; [response] is the outcome of
    [apiClient.get('/api/ftso/feeds')], which rejects on a network failure. *)
Definition getAllFeeds (now : Z) (response : outcome Error (list FTSOFeed))
  : Rand (outcome Error (list FTSOFeed)) :=
  match response with
  | Returned data => ret (Returned data)
  | Threw error => feeds <- mockFeeds now ;; ret (Returned feeds)
  end.

(** [ftsoApi.getFeedById]; [None] is [null]. *)
Definition getFeedById (feedId : string) (response : outcome Error FTSOFeed)
  : outcome Error (option FTSOFeed) :=
  match response with
  | Returned data => Returned (Some data)
  | Threw error => Returned None
  end.

End Api.

(* ================================================================== *)
(** ** The prediction service (unnamed/part_003) *)
(* ================================================================== *)

Module PredictionService.
Import JS.

Section Fetch.

(** A parsed JSON body and its [message] member (empty when absent). *)
Context {Json : Type} (message_of : Json -> string).

(** What [fetch] resolves to: the status flag and the outcome of
    [response.json()]. *)
Record Response : Type := mkResponse
  { ok : bool;
    json : outcome Error Json }.

(** [analyzePrediction]; [fetched] is the outcome of the [fetch] call, which
    rejects on a network failure.  The [catch] block logs and rethrows. *)
Definition analyzePrediction (question : string) (fetched : outcome Error Response)
  : outcome Error Json :=
  let attempt :=
    match fetched with
    | Threw e => Threw e
    | Returned response =>
        if negb (ok response) then
          match json response with
          | Threw e => Threw e
          | Returned errorData =>
              Threw (mkError
                (if String.eqb (message_of errorData) ""
                 then "Failed to analyze prediction"
                 else message_of errorData))
          end
        else json response
    end in
  match attempt with
  | Returned data => Returned data
  | Threw error => Threw error
  end.


(** [getMarketDataFeeds] of the prediction service; [fetched] is the outcome
    of the [fetch] call.  The [catch] block logs and rethrows. *)
Definition getMarketDataFeeds (assets : list string) (fetched : outcome Error Response)
  : outcome Error Json :=
  let attempt :=
    match fetched with
    | Threw e => Threw e
    | Returned response =>
        if negb (ok response) then
          match json response with
          | Threw e => Threw e
          | Returned errorData =>
              Threw (mkError
                (if String.eqb (message_of errorData) ""
                 then "Failed to get market data feeds"
                 else message_of errorData))
          end
        else json response
    end in
  match attempt with
  | Returned data => Returned data
  | Threw error => Threw error
  end.


End Fetch.

Arguments Response Json : clear implicits.

End PredictionService.

(* ================================================================== *)
(** ** The DataFeed type (types/index.ts) *)
(* ================================================================== *)

Module Types.

Record PricePoint : Type := mkPricePoint
  { timestamp : Z;
    value : Q }.

Record DataFeed : Type := mkDataFeed
  { feed_id : string;
    name : string;
    current_value : Q;
    feed_timestamp : Z;
    trend : string;
    historical : list PricePoint }.

End Types.

(* ================================================================== *)
(** ** The market-data service (unnamed/part_003) *)
(* ================================================================== *)

Module MoralisService.
Import JS Types.
Local Open Scope rand_scope.
Local Open Scope Q_scope.

Definition tokenSymbols : list (string * string) :=
  [ ("bitcoin", "BTC");
    ("ethereum", "ETH");
    ("solana", "SOL");
    ("cardano", "ADA");
    ("bnb", "BNB");
    ("xrp", "XRP");
    ("dogecoin", "DOGE");
    ("polkadot", "DOT");
    ("avalanche", "AVAX");
    ("litecoin", "LTC") ].

Definition estimatedPrices : list (string * Q) :=
  [ ("BTC", 62500);
    ("ETH", 3300);
    ("SOL", 180);
    ("ADA", 55 # 100);
    ("BNB", 610);
    ("XRP", 65 # 100);
    ("DOGE", 16 # 100);
    ("DOT", 79 # 10);
    ("AVAX", 36);
    ("LTC", 87) ].

Definition baseTokenPrices : list (string * Q) :=
  [ ("bitcoin", 62500);
    ("btc", 62500);
    ("ethereum", 3300);
    ("eth", 3300);
    ("solana", 180);
    ("sol", 180);
    ("cardano", 55 # 100);
    ("ada", 55 # 100);
    ("bnb", 610);
    ("xrp", 65 # 100);
    ("dogecoin", 16 # 100);
    ("doge", 16 # 100);
    ("polkadot", 79 # 10);
    ("dot", 79 # 10);
    ("avalanche", 36);
    ("avax", 36);
    ("litecoin", 87);
    ("ltc", 87) ].

(** [table[key] || d] for a table of numbers. *)
Definition lookup_or (table : list (string * Q)) (key : string) (d : Q) : Q :=
  match lookup table key with
  | Some v => num_or v d
  | None => d
  end.

(** [getBasePrice]: [baseTokenPrices[token.toLowerCase()] || 100], for a
    token whose lower-cased name is not [inherited]: under "constructor"
    and "__proto__" the code finds a member of [Object.prototype] and
    returns that, which is not a number. *)
Definition getBasePrice (token : string) : Q :=
  lookup_or baseTokenPrices (toLowerCase token) 100.

Section Network.

(** A parsed JSON body with the two members the service reads:
    [data[id]?.usd] and [data.prices] (when it is an array). *)
Context {Json : Type}
  (usd_of : Json -> string -> option Q)
  (prices_of : Json -> option (list (Z * Q))).

Record Response : Type := mkResponse
  { ok : bool;
    json : outcome Error Json }.

Inductive Request : Type :=
| SimplePrice (ids : string)
| MarketChart (tokenId : string) (days : nat).

(** The outcome of each [fetch]; a network failure is [Threw]. *)
Definition Network : Type := Request -> outcome Error Response.

(** The [catch] block of [getTokenPrice]. *)
Definition fallbackPrice (token : string) : Q :=
  let symbol :=
    match lookup tokenSymbols (toLowerCase token) with
    | Some s => if String.eqb s "" then toUpperCase token else s
    | None => toUpperCase token
    end in
  lookup_or estimatedPrices symbol 100.

(** The [try] block of [getTokenPrice]. *)
Definition tryTokenPrice (net : Network) (token : string) : outcome Error Q :=
  match net (SimplePrice (toLowerCase token)) with
  | Threw e => Threw e
  | Returned response =>
      if negb (ok response) then
        Threw (mkError ("Failed to fetch from CoinGecko for " ++ token))
      else
        match json response with
        | Threw e => Threw e
        | Returned data =>
            match usd_of data (toLowerCase token) with
            | Some price =>
                if Qeq_bool price 0
                then Threw (mkError ("No price found for " ++ token))
                else Returned price
            | None => Threw (mkError ("No price found for " ++ token))
            end
        end
  end.

Definition getTokenPrice (net : Network) (token : string) : outcome Error Q :=
  match tryTokenPrice net token with
  | Returned price => Returned price
  | Threw error => Returned (fallbackPrice token)
  end.

(** One iteration of the mock-history loops: the point [i] days back out of
    [days], with the given daily volatility.  The date is taken to be a
    valid time ([toISOString] throws on any other) and [i] times 24 hours
    back, where the code steps [i] calendar days; [days] is taken to be
    positive (for [days = 0] the code computes 0/0). *)
Definition mockPricePoint (now : Z) (basePrice volatility : Q) (days i : nat)
  : Rand PricePoint :=
  r <- random ;;
  let randomChange := 1 + ((r - (1 # 2)) * volatility * 2) in
  let price :=
    basePrice
    * (1 + (inject_Z (Z.of_nat (days - i)) / inject_Z (Z.of_nat days)) * (1 # 10))
    * randomChange in
  ret (mkPricePoint (now - Z.of_nat i * ms_per_day)%Z price).

(** [for (let i = days; i >= 0; i--)] *)
Definition mockHistory (now : Z) (basePrice volatility : Q) (days : nat)
  : Rand (list PricePoint) :=
  mapM (mockPricePoint now basePrice volatility days) (rev (seq 0 (S days))).

(** The [try] block of [getHistoricalPrices]. *)
Definition tryHistoricalPrices (net : Network) (token : string) (days : nat)
  : outcome Error (list PricePoint) :=
  match net (MarketChart (toLowerCase token) days) with
  | Threw e => Threw e
  | Returned response =>
      if negb (ok response) then
        Threw (mkError ("Failed to fetch historical prices for " ++ token))
      else
        match json response with
        | Threw e => Threw e
        | Returned data =>
            match prices_of data with
            | None => Threw (mkError ("Invalid historical data for " ++ token))
            | Some prices =>
                if forallb (fun priceData => valid_time (fst priceData)) prices
                then Returned
                       (map (fun priceData =>
                               mkPricePoint (fst priceData) (snd priceData))
                            prices)
                else Threw (mkError "Invalid time value")
            end
        end
  end.

Definition getHistoricalPrices (now : Z) (net : Network) (token : string) (days : nat)
  : Rand (outcome Error (list PricePoint)) :=
  match tryHistoricalPrices net token days with
  | Returned prices => ret (Returned prices)
  | Threw error =>
      historicalData <- mockHistory now (getBasePrice token) (3 # 100) days ;;
      ret (Returned historicalData)
  end.

(** [arr[0]?.value || 0] and [arr[arr.length - 1]?.value || 0] *)
Definition first_value (h : list PricePoint) : Q :=
  match h with
  | [] => 0
  | p :: _ => num_or (value p) 0
  end.

Definition last_value (h : list PricePoint) : Q :=
  match rev h with
  | [] => 0
  | p :: _ => num_or (value p) 0
  end.

(** [past > 0 ? ((recent - past) / past) * 100 : 0] *)
Definition percentChange (recent past : Q) : Q :=
  if Qgtb past 0 then ((recent - past) / past) * 100 else 0.

(** [if (percentChange > 5) trend = "up"; else if (percentChange < -5) trend = "down"] *)
Definition trendOf (percentChange : Q) : string :=
  if Qgtb percentChange 5 then "up"
  else if Qltb percentChange (- 5) then "down"
  else "stable".

(** [asset.charAt(0).toUpperCase() + asset.slice(1).toLowerCase()] *)
Definition displayName (asset : string) : string :=
  match asset with
  | EmptyString => EmptyString
  | String c r => String (upper_char c) (toLowerCase r)
  end.

Definition createFallbackDataFeed (now : Z) (asset : string) : Rand DataFeed :=
  let basePrice := getBasePrice asset in
  historical <- mockHistory now basePrice (2 # 100) 14 ;;
  let recent := last_value historical in
  let past := first_value historical in
  ret (mkDataFeed (toLowerCase asset) (displayName asset) basePrice now
         (trendOf (percentChange recent past)) historical).

Section Loop.

(** The two calls awaited in the loop of [getMarketDataFeeds]. *)
Variable tokenPrice : string -> Rand (outcome Error Q).
Variable historicalPrices : string -> Rand (outcome Error (list PricePoint)).

(** The [try] block of the loop body: the feed to push, or the exception. *)
Definition tryAsset (now : Z) (asset : string) : Rand (outcome Error DataFeed) :=
  p <- tokenPrice asset ;;
  match p with
  | Threw e => ret (Threw e)
  | Returned currentPrice =>
      h <- historicalPrices asset ;;
      match h with
      | Threw e => ret (Threw e)
      | Returned historicalPrices =>
          let trend :=
            if (5 <? List.length historicalPrices)%nat then
              trendOf (percentChange (last_value historicalPrices)
                                     (first_value historicalPrices))
            else "stable" in
          ret (Returned
                 (mkDataFeed (toLowerCase asset) (displayName asset)
                    currentPrice now trend historicalPrices))
      end
  end.

(** The loop body with its [catch]: exactly one push either way. *)
Definition processAsset (now : Z) (dataFeeds : list DataFeed) (asset : string)
  : Rand (list DataFeed) :=
  r <- tryAsset now asset ;;
  match r with
  | Returned feed => ret (dataFeeds ++ [feed])%list
  | Threw error =>
      fallback <- createFallbackDataFeed now asset ;;
      ret (dataFeeds ++ [fallback])%list
  end.

(** [for (const asset of assets)] *)
Fixpoint forAssets (now : Z) (dataFeeds : list DataFeed) (assets : list string)
  : Rand (list DataFeed) :=
  match assets with
  | [] => ret dataFeeds
  | asset :: rest =>
      dataFeeds' <- processAsset now dataFeeds asset ;;
      forAssets now dataFeeds' rest
  end.

(** The outer [try]: every exception of the loop body is caught inside the
    loop, so the outer [catch] (fallback feeds for all assets) is never
    entered and the function resolves with [dataFeeds]. *)
Definition getMarketDataFeeds_with (now : Z) (assets : list string)
  : Rand (outcome Error (list DataFeed)) :=
  dataFeeds <- forAssets now [] assets ;;
  ret (Returned dataFeeds).

End Loop.

(** [getMarketDataFeeds]: the loop over the two service calls. *)
Definition getMarketDataFeeds (now : Z) (net : Network) (assets : list string)
  : Rand (outcome Error (list DataFeed)) :=
  getMarketDataFeeds_with
    (fun asset => ret (getTokenPrice net asset))
    (fun asset => getHistoricalPrices now net asset 14)
    now assets.

End Network.

Arguments Response Json : clear implicits.
Arguments Network Json : clear implicits.

End MoralisService.

(* ================================================================== *)
(** ** The MarketAnalytics component (ConsensusAnalyticsDashboard.tsx) *)
(* ================================================================== *)

Module MarketAnalytics.
Import JS Types.
Local Open Scope rand_scope.
Local Open Scope Q_scope.

(** The object handed to [setTechnicalIndicators].  [volumeChange] is the
    percentage its string shows ("0%" is 0). *)
Record TechnicalIndicators : Type := mkIndicators
  { rsi : Q;
    macd : string;
    ma50 : Q;
    ma200 : Q;
    bollingerUpper : Q;
    bollingerLower : Q;
    volumeChange : Q }.

(** Division that reports a zero divisor, where JavaScript would go on with
    an infinity or NaN. *)
Definition div (a b : Q) : option Q :=
  if Qeq_bool b 0 then None else Some (a / b).

Definition obind {A B} (o : option A) (k : A -> option B) : option B :=
  match o with
  | Some a => k a
  | None => None
  end.

Notation "x <-? o ;; k" := (obind o (fun x => k))
  (at level 61, o at next level, right associativity).

Definition of_nat (n : nat) : Q := inject_Z (Z.of_nat n).

(** [for (i = 1; i < historical.length; i++)
       priceChanges.push((historical[i]?.value || 0) - (historical[i-1]?.value || 0))] *)
Fixpoint priceChanges (historical : list PricePoint) : list Q :=
  match historical with
  | prev :: (cur :: _) as rest =>
      (num_or (value cur) 0 - num_or (value prev) 0) :: priceChanges rest
  | _ => []
  end.

(** [reduce((sum, data) => sum + (data?.value || 0), 0)] *)
Definition sum_values (points : list PricePoint) : Q :=
  fold_left (fun sum data => sum + num_or (value data) 0) points 0.

(** [reduce((sum, change) => sum + Math.abs(change), 0)] *)
Definition sum_abs (changes : list Q) : Q :=
  fold_left (fun sum change => sum + Qabs change) changes 0.

Definition defaults (current_value : Q) : TechnicalIndicators :=
  mkIndicators 50 "neutral" current_value current_value
    (current_value * (105 # 100)) (current_value * (95 # 100)) 0.

Section Indicators.

(** [Math.sqrt] on the numbers of the model. *)
Variable sqrt : Q -> Q.

(** [(avgGain, avgLoss)]: [gains / historical.length || 0] and
    [losses / historical.length || 0.01]. *)
Definition averages (historical : list PricePoint) : option (Q * Q) :=
  let changes := priceChanges historical in
  let gains := sum (filter (fun change => Qgtb change 0) changes) in
  let losses := sum_abs (filter (fun change => Qltb change 0) changes) in
  g <-? div gains (of_nat (List.length historical)) ;;
  l <-? div losses (of_nat (List.length historical)) ;;
  Some (num_or g 0, num_or l (1 # 100)).

(** The simplified RSI, before rounding. *)
Definition rsiOf (historical : list PricePoint) : option Q :=
  a <-? averages historical ;;
  let (avgGain, avgLoss) := a in
  rs <-? div avgGain avgLoss ;;
  q <-? div 100 (1 + rs) ;;
  Some (100 - q).

(** [historical.slice(-Math.min(k, historical.length)).reduce(...) / Math.min(k, historical.length)] *)
Definition movingAverage (k : nat) (historical : list PricePoint) : option Q :=
  let m := Nat.min k (List.length historical) in
  div (sum_values (slice_last m historical)) (of_nat m).

(** The Bollinger bands: [(sma20, bollingerUpper, bollingerLower)]. *)
Definition bollinger (historical : list PricePoint) : option (Q * Q * Q) :=
  let prices := map (fun d => num_or (value d) 0) (slice_last 20 historical) in
  sma20 <-? div (sum prices) (of_nat (List.length prices)) ;;
  let squaredDifferences := map (fun price => (price - sma20) ^ 2) prices in
  variance <-? div (sum squaredDifferences) (of_nat (List.length squaredDifferences)) ;;
  let stdDev := sqrt variance in
  Some (sma20, sma20 + (stdDev * 2), sma20 - (stdDev * 2)).

(** The MACD status: [(shortMA, longMA, label)]. *)
Definition macdOf (historical : list PricePoint) : option (Q * Q * string) :=
  shortMA <-? div (sum_values (slice_last 12 historical)) 12 ;;
  longMA <-? div (sum_values (slice_last 26 historical)) 26 ;;
  Some (shortMA, longMA,
        if Qgtb shortMA longMA then "bullish"
        else if Qltb shortMA longMA then "bearish"
        else "neutral").

(** [calculateTechnicalIndicatorsFromHistorical], returning the argument of
    [setTechnicalIndicators]; [None] when a division met a zero divisor. *)
Definition calculateTechnicalIndicatorsFromHistorical (feed : DataFeed)
  : Rand (option TechnicalIndicators) :=
  let historical := historical feed in
  if (List.length historical <? 5)%nat then
    ret (Some (defaults (current_value feed)))
  else
    match
      (rsi <-? rsiOf historical ;;
       ma50 <-? movingAverage 50 historical ;;
       ma200 <-? movingAverage 200 historical ;;
       bands <-? bollinger historical ;;
       m <-? macdOf historical ;;
       Some (rsi, ma50, ma200, bands, m))
    with
    | None => ret None
    | Some (rsi, ma50, ma200, (_, bollingerUpper, bollingerLower), (_, _, macd)) =>
        r <- random ;;
        let volumeChange := toFixed 2 (r * 20 - 10) in
        ret (Some (mkIndicators (inject_Z (Math_round rsi)) macd ma50 ma200
                     bollingerUpper bollingerLower volumeChange))
    end.

End Indicators.


(** *** The market metrics *)

(** [calculateEstimatedMarketCap] *)
Definition calculateEstimatedMarketCap (feed : DataFeed) : Q :=
  let marketCapMultiplier :=
    if includes (toLowerCase (name feed)) "bitcoin" then 1000000000
    else if includes (toLowerCase (name feed)) "ethereum" then 100000000
    else if includes (toLowerCase (name feed)) "solana" then 10000000
    else 1000000 in
  current_value feed * marketCapMultiplier.

(** The argument of [setMarketMetrics]: the object of the short-history
    branch, or the one computed from the history.  A percentage and the
    market cap of the second are the numbers their strings show. *)
Inductive MarketMetrics : Type :=
| PlaceholderMetrics
    (marketCap volume24h liquidityScore volatility dayChange weekChange monthChange
     allTimeHigh allTimeLow : Q)
| HistoricalMetrics
    (marketCap dayChange weekChange monthChange : Q)
    (volatility liquidity dominance : string).

(** [historical[i]?.value || 0] *)
Definition value_at (historical : list PricePoint) (i : nat) : Q :=
  match nth_error historical i with
  | Some data => num_or (value data) 0
  | None => 0
  end.

(** [for (i = 1; i < historical.length; i++)
       returns.push((currentValue - prevValue) / prevValue)] *)
Fixpoint returnsOf (historical : list PricePoint) : option (list Q) :=
  match historical with
  | prev :: (cur :: _) as rest =>
      r <-? div (num_or (value cur) 0 - num_or (value prev) 0) (num_or (value prev) 0) ;;
      rs <-? returnsOf rest ;;
      Some (r :: rs)
  | _ => Some []
  end.

Section Metrics.

(** [Math.sqrt] on the numbers of the model. *)
Variable sqrt : Q -> Q.

(** The volatility: [(stdDev, volatilityLevel)]. *)
Definition volatilityOf (historical : list PricePoint) : option (Q * string) :=
  returns <-? returnsOf historical ;;
  avgReturn <-? div (sum returns) (of_nat (List.length returns)) ;;
  let squaredDiffs := map (fun ret => (ret - avgReturn) ^ 2) returns in
  variance <-? div (sum squaredDiffs) (of_nat (List.length squaredDiffs)) ;;
  let stdDev := sqrt variance * 100 in
  Some (stdDev,
        if Qgtb stdDev 5 then "High"
        else if Qgtb stdDev 2 then "Medium"
        else "Low").

(** [calculateMarketMetricsFromHistorical], returning the argument of
    [setMarketMetrics]; [None] when a division met a zero divisor. *)
Definition calculateMarketMetricsFromHistorical (feed : DataFeed)
  : Rand (option MarketMetrics) :=
  let historical := historical feed in
  if (List.length historical <? 5)%nat then
    r <- random ;;
    ret (Some (PlaceholderMetrics
                 (current_value feed * 1000000)
                 (current_value feed * 100000)
                 (toFixed 2 (r * 10))
                 (25 # 10) 0 0 0
                 (current_value feed * (12 # 10))
                 (current_value feed * (8 # 10))))
  else
    let n := List.length historical in
    let latestPrice := value_at historical (n - 1) in
    let dayAgoPrice := if (1 <? n)%nat then value_at historical (n - 2) else latestPrice in
    let weekAgoPrice := if (7 <? n)%nat then value_at historical (n - 8) else latestPrice in
    let monthAgoPrice := if (30 <? n)%nat then value_at historical (n - 31) else latestPrice in
    ret (d <-? div (latestPrice - dayAgoPrice) dayAgoPrice ;;
         let dayChange := d * 100 in
         w <-? div (latestPrice - weekAgoPrice) weekAgoPrice ;;
         let weekChange := w * 100 in
         m <-? div (latestPrice - monthAgoPrice) monthAgoPrice ;;
         let monthChange := m * 100 in
         v <-? volatilityOf historical ;;
         let volatilityLevel := snd v in
         let marketCapMultiplier :=
           if includes (toLowerCase (name feed)) "bitcoin" then 1000000000
           else if includes (toLowerCase (name feed)) "ethereum" then 100000000
           else if includes (toLowerCase (name feed)) "solana" then 10000000
           else 1000000 in
         let marketCap := current_value feed * marketCapMultiplier in
         let liquidityLevel :=
           if includes (toLowerCase (name feed)) "bitcoin"
              || includes (toLowerCase (name feed)) "ethereum" then "High"
           else if includes (toLowerCase (name feed)) "dogecoin"
                   || includes (toLowerCase (name feed)) "shiba" then "Medium-High"
           else "Medium" in
         let dominance :=
           if includes (toLowerCase (name feed)) "bitcoin" then "45%"
           else if includes (toLowerCase (name feed)) "ethereum" then "18%"
           else if includes (toLowerCase (name feed)) "bnb" then "4%"
           else if includes (toLowerCase (name feed)) "solana" then "3%"
           else "5%" in
         Some (HistoricalMetrics (toLocaleString marketCap)
                 (toFixed 2 dayChange) (toFixed 2 weekChange)
                 (toFixed 2 monthChange) volatilityLevel liquidityLevel dominance)).

End Metrics.

End MarketAnalytics.

(* ================================================================== *)
(** ** The RSI and the Bollinger bands on doubles
       (ConsensusAnalyticsDashboard.tsx) *)
(* ================================================================== *)

Module Doubles.
Import JS MarketAnalytics.
Local Open Scope Q_scope.

(** A number with the special values of a double.  The sign of a zero is
    not kept: it shows only in a division by zero, which the model
    reports. *)
Inductive number : Type :=
| Finite (q : Q)
| PlusInfinity
| MinusInfinity
| NaN.

Definition zero : number := Finite 0.
Definition one : number := Finite 1.
Definition hundred : number := Finite 100.

(** [x <= y]: false when either side is NaN. *)
Definition le (x y : number) : Prop :=
  match x, y with
  | NaN, _ | _, NaN => False
  | MinusInfinity, _ | _, PlusInfinity => True
  | Finite a, Finite b => a <= b
  | _, _ => False
  end.

(** [x > 0] and [x < 0]: false for NaN. *)
Definition is_positive (x : number) : bool :=
  match x with
  | Finite a => Qgtb a 0
  | PlusInfinity => true
  | _ => false
  end.

Definition is_negative (x : number) : bool :=
  match x with
  | Finite a => Qltb a 0
  | MinusInfinity => true
  | _ => false
  end.

Definition is_zero (x : number) : bool :=
  match x with
  | Finite a => Qeq_bool a 0
  | _ => false
  end.

(** [x || d]: 0 and NaN are the falsy numbers. *)
Definition or_else (x d : number) : number :=
  match x with
  | Finite a => if Qeq_bool a 0 then d else x
  | NaN => d
  | _ => x
  end.

Definition negate (x : number) : number :=
  match x with
  | Finite a => Finite (- a)
  | PlusInfinity => MinusInfinity
  | MinusInfinity => PlusInfinity
  | NaN => NaN
  end.

(** [Math.abs] *)
Definition Math_abs (x : number) : number :=
  match x with
  | Finite a => Finite (Qabs a)
  | NaN => NaN
  | _ => PlusInfinity
  end.

(** [Math.round]: an integer below 2^53 in magnitude is a double, and a
    double of larger magnitude is an integer, so nothing is rounded twice. *)
Definition Math_round (x : number) : number :=
  match x with
  | Finite a => Finite (inject_Z (JS.Math_round a))
  | _ => x
  end.

Definition infinity (negative : bool) : number :=
  if negative then MinusInfinity else PlusInfinity.

(** The numbers [m * 2^e] a double can hold. *)
Definition representable (q : Q) : Prop :=
  exists m e : Z,
    (Z.abs m < 2 ^ 53)%Z /\ (- 1074 <= e <= 971)%Z /\ q == inject_Z m * 2 ^ e.

(** What the arithmetic relies on of the rounding of an exact result to a
    double: it keeps the order, leaves a double as it is, returns a double
    or an infinity, and overflows from 2^1024 on.  Rounding to nearest, as
    the doubles of JavaScript do, is of this kind. *)
Record Rounding (round : Q -> number) : Prop := mkRounding
  { round_monotone : forall a b, a <= b -> le (round a) (round b);
    round_exact :
      forall q, representable q -> exists q', round q = Finite q' /\ q' == q;
    round_fixed :
      forall q q', round q = Finite q' ->
                   exists q'', round q' = Finite q'' /\ q'' == q';
    round_overflow : forall q, 2 ^ 1024 <= q -> round q = PlusInfinity;
    round_overflow_below : forall q, q <= - 2 ^ 1024 -> round q = MinusInfinity }.

(** The rounding that only overflows: exact below 2^1024 in magnitude. *)
Definition rangeOnly (q : Q) : number :=
  if Qle_bool (2 ^ 1024) q then PlusInfinity
  else if Qle_bool q (- 2 ^ 1024) then MinusInfinity
  else Finite q.

Section Arithmetic.

(** The rounding of an exact result, and [Math.sqrt] on the rationals. *)
Variable round : Q -> number.
Variable sqrt : Q -> Q.

(** [x + y] *)
Definition plus (x y : number) : number :=
  match x, y with
  | NaN, _ | _, NaN => NaN
  | Finite a, Finite b => round (a + b)
  | PlusInfinity, MinusInfinity | MinusInfinity, PlusInfinity => NaN
  | PlusInfinity, _ | _, PlusInfinity => PlusInfinity
  | MinusInfinity, _ | _, MinusInfinity => MinusInfinity
  end.

(** [x - y] *)
Definition minus (x y : number) : number := plus x (negate y).


(** [x / y], reporting a zero divisor, where JavaScript goes on with an
    infinity or NaN. *)
Definition divide (x y : number) : option number :=
  if is_zero y then None
  else Some
    match x, y with
    | NaN, _ | _, NaN => NaN
    | Finite a, Finite b => round (a / b)
    | Finite _, _ => Finite 0
    | _, Finite _ => infinity (xorb (is_negative x) (is_negative y))
    | _, _ => NaN
    end.



(** [xs.reduce((sum, x) => sum + x, 0)] *)
Definition sum (xs : list number) : number := fold_left plus xs zero.

(** [for (i = 1; i < historical.length; i++)
       priceChanges.push((historical[i]?.value || 0) - (historical[i-1]?.value || 0))],
    on the values of the history. *)
Fixpoint priceChanges (values : list number) : list number :=
  match values with
  | prev :: (cur :: _) as rest =>
      minus (or_else cur zero) (or_else prev zero) :: priceChanges rest
  | _ => []
  end.

Definition gainsOf (values : list number) : number :=
  sum (filter is_positive (priceChanges values)).

Definition lossesOf (values : list number) : number :=
  fold_left (fun sum change => plus sum (Math_abs change))
            (filter is_negative (priceChanges values)) zero.

(** [(avgGain, avgLoss)]: [gains / historical.length || 0] and
    [losses / historical.length || 0.01]. *)
Definition averages (values : list number) : option (number * number) :=
  let length := Finite (inject_Z (Z.of_nat (List.length values))) in
  obind (divide (gainsOf values) length) (fun g =>
  obind (divide (lossesOf values) length) (fun l =>
  Some (or_else g zero, or_else l (round (1 # 100))))).

(** [rsi: Math.round(rsi)] for a history of at least 5 points. *)
Definition rsiHandedOver (values : list number) : option number :=
  obind (averages values) (fun a =>
  let (avgGain, avgLoss) := a in
  obind (divide avgGain avgLoss) (fun rs =>
  obind (divide hundred (plus one rs)) (fun q =>
  Some (Math_round (minus hundred q))))).



End Arithmetic.

End Doubles.

(* ================================================================== *)
(** ** app/landing.tsx: the prediction-submit handler *)
(* ================================================================== *)

Module Landing.
Import JS Types.
Local Open Scope rand_scope.
Local Open Scope Q_scope.

Record ModelResponse : Type := mkModelResponse
  { decision : string;
    response_confidence : Q }.

Record Verification : Type := mkVerification
  { model_agreement : Q;
    model_responses : list (string * ModelResponse) }.

Record PricePrediction : Type := mkPricePrediction
  { asset : string;
    current_price : Q;
    predicted_price : Q;
    predicted_range : Q * Q;
    prediction_timeframe : string;
    model_predictions : list (string * Q);
    confidence_intervals : list (string * (Q * Q)) }.

Record VerificationResult : Type := mkVerificationResult
  { final_decision : string;
    confidence : Q;
    verification : Verification;
    price_prediction : option PricePrediction }.

Record ModelComparisonItem : Type := mkModelComparisonItem
  { model_name : string;
    prediction : string;
    item_confidence : Q;
    key_factor : string }.

Record ProcessedQuery : Type := mkProcessedQuery
  { question_type : string;
    identified_assets : list string;
    price_thresholds : list string;
    date_references : list string;
    timeframes : list string }.

(** The argument of [setPredictionData].  The [reasoning] texts, the
    evidence lists and [percentage_thresholds] are left out; the calls to
    [Math.random()] made while building them are kept. *)
Record PredictionData : Type := mkPredictionData
  { question : string;
    processedQuery : ProcessedQuery;
    verificationResult : VerificationResult;
    dataFeeds : list DataFeed;
    modelComparison : list ModelComparisonItem }.

(** [s || d] on strings: the empty string (like [undefined]) is falsy. *)
Definition str_or (s d : string) : string :=
  if String.eqb s "" then d else s.

(** The white space and line terminators among the 8-bit characters: tab
    to carriage return, the space and the no-break space. *)
Definition is_space (c : ascii) : bool :=
  let n := nat_of_ascii c in
  ((9 <=? n)%nat && (n <=? 13)%nat) || (n =? 32)%nat || (n =? 160)%nat.

(** [!s.trim()] *)
Fixpoint blank (s : string) : bool :=
  match s with
  | EmptyString => true
  | String c r => is_space c && blank r
  end.

Definition hasPriceQuestion (predictionQuestion : string) : bool :=
  includes (toLowerCase predictionQuestion) "price"
  || includes (toLowerCase predictionQuestion) "value"
  || includes (toLowerCase predictionQuestion) "worth".

Definition timeframeMatches : list (string * string) :=
  [ ("2025", "End of 2025");
    ("2026", "End of 2026");
    ("next year", "Next Year");
    ("month", "Next Month");
    ("week", "Next Week");
    ("day", "Next Day") ].

(** The loop over [Object.entries(timeframeMatches)], leaving at the first
    key the question includes. *)
Definition timeframeOf (predictionQuestion : string) : string :=
  match
    find (fun entry => includes (toLowerCase predictionQuestion)
                                (toLowerCase (fst entry)))
         timeframeMatches
  with
  | Some entry => snd entry
  | None => "Undefined Timeframe"
  end.

(** [dataFeeds.find(feed => feedName === assetName || feedId.includes(assetName))] *)
Definition findPrimary (dataFeeds : list DataFeed) (primaryAsset : string)
  : option DataFeed :=
  find (fun feed =>
          String.eqb (toLowerCase (name feed)) (toLowerCase primaryAsset)
          || includes (toLowerCase (feed_id feed)) (toLowerCase primaryAsset))
       dataFeeds.

Definition trendMultiplierOf (trend : string) : Rand Q :=
  r <- random ;;
  ret (if String.eqb trend "up" then (12 # 10) + (r * (4 # 10))
       else if String.eqb trend "down" then (7 # 10) + (r * (2 # 10))
       else (9 # 10) + (r * (2 # 10))).

Definition modelMultipliersOf (baseMultiplier : Q) : Rand (list (string * Q)) :=
  r1 <- random ;;
  r2 <- random ;;
  r3 <- random ;;
  r4 <- random ;;
  r5 <- random ;;
  ret [ ("DeepSeek R1 Zero", baseMultiplier * ((90 # 100) + (r1 * (2 # 10))));
        ("Gemini Flash Lite 2.0", baseMultiplier * ((85 # 100) + (r2 * (3 # 10))));
        ("Mistral Small 3", baseMultiplier * ((80 # 100) + (r3 * (4 # 10))));
        ("QwQ 32B", baseMultiplier * ((95 # 100) + (r4 * (2 # 10))));
        ("Llama 3.3 70B", baseMultiplier * (1 + (r5 * (1 # 10)))) ].

Definition decisions : list string :=
  [ "LIKELY"; "SOMEWHAT LIKELY"; "UNCERTAIN"; "UNLIKELY"; "HIGHLY LIKELY" ].

(** [arr[i]] for an integer index; [undefined] is kept as the empty
    string, which is falsy like it. *)
Definition at_index (arr : list string) (i : Z) : string :=
  if (i <? 0)%Z then "" else nth (Z.to_nat i) arr "".

(** "Determine final decision based on trend and query" *)
Definition finalDecisionOf (trend : string) (hasPriceQuestion : bool) : Rand string :=
  if String.eqb trend "up" && hasPriceQuestion then
    r <- random ;;
    ret (if Qgtb r (3 # 10) then "LIKELY" else "HIGHLY LIKELY")
  else if String.eqb trend "down" && hasPriceQuestion then
    r <- random ;;
    ret (if Qgtb r (3 # 10) then "UNLIKELY" else "SOMEWHAT LIKELY")
  else
    r <- random ;;
    ret (at_index decisions
           (Math_floor (r * inject_Z (Z.of_nat (List.length decisions))))).

(** "Between 60% and 95%" *)
Definition confidenceOf : Rand Q :=
  r <- random ;;
  ret ((6 # 10) + (r * (35 # 100))).

(** The number of [Math.random()] calls made while the [reasoning] text is
    put together. *)
Definition reasoningDraws (hasPriceQuestion : bool) (primaryAsset : string) : nat :=
  if hasPriceQuestion && negb (String.eqb primaryAsset "") then 8 else 1.

Definition generateVerificationDetails (finalDecision : string) (confidence : Q)
  (assetName trend : string) : Rand Verification :=
  r0 <- random ;;
  let model_agreement := confidence - (5 # 100) + (r0 * (1 # 10)) in
  r1 <- random ;;
  _ <- skip 1 ;;
  r2 <- random ;;
  r3 <- random ;;
  r4 <- random ;;
  r5 <- random ;;
  _ <- skip 1 ;;
  ret (mkVerification model_agreement
    [ ("DeepSeek R1 Zero",
       mkModelResponse finalDecision
         (confidence - (15 # 100) + (r1 * (3 # 10))));
      ("Gemini Flash Lite 2.0",
       mkModelResponse
         (if String.eqb finalDecision "LIKELY" then "SOMEWHAT LIKELY"
          else if String.eqb finalDecision "UNLIKELY" then "UNCERTAIN"
          else finalDecision)
         (confidence - (2 # 10) + (r2 * (25 # 100))));
      ("Mistral Small 3",
       mkModelResponse
         (if String.eqb finalDecision "HIGHLY LIKELY" then "LIKELY"
          else if String.eqb finalDecision "UNLIKELY" then "SOMEWHAT LIKELY"
          else "UNCERTAIN")
         (confidence - (25 # 100) + (r3 * (2 # 10))));
      ("QwQ 32B",
       mkModelResponse finalDecision
         (confidence - (5 # 100) + (r4 * (15 # 100))));
      ("Llama 3.3 70B",
       mkModelResponse
         (if String.eqb finalDecision "LIKELY" then "HIGHLY LIKELY"
          else if String.eqb finalDecision "UNLIKELY" then "UNLIKELY"
          else finalDecision)
         (confidence + (r5 * (15 # 100)))) ]).

Definition modelNames : list string :=
  [ "TrendWatcher AI"; "DeepMarket Analyzer"; "Quantum Forecast";
    "NeuralPrice Predictor"; "OnChain Metrics AI"; "MacroTrend Evaluator" ].

Definition keyFactors : list string :=
  [ "Price action and moving averages";
    "On-chain transaction volume";
    "Institutional capital flows";
    "Social sentiment analysis";
    "Network growth metrics";
    "Macro-economic correlations" ].

Definition predictionsFor (decision : string) : list string :=
  if String.eqb decision "LIKELY" || String.eqb decision "HIGHLY LIKELY" then
    [ "LIKELY"; "SOMEWHAT LIKELY"; "HIGHLY LIKELY"; "LIKELY"; "UNCERTAIN"; "LIKELY" ]
  else if String.eqb decision "UNLIKELY" || String.eqb decision "SOMEWHAT UNLIKELY" then
    [ "UNLIKELY"; "SOMEWHAT UNLIKELY"; "UNCERTAIN"; "UNLIKELY"; "SOMEWHAT LIKELY"; "UNLIKELY" ]
  else
    [ "UNCERTAIN"; "SOMEWHAT LIKELY"; "SOMEWHAT UNLIKELY"; "UNCERTAIN"; "LIKELY"; "UNCERTAIN" ].

Definition baseConfidenceFor (decision : string) : Q :=
  if String.eqb decision "HIGHLY LIKELY" then 85
  else if String.eqb decision "LIKELY" then 75
  else if String.eqb decision "SOMEWHAT LIKELY" then 65
  else if String.eqb decision "UNCERTAIN" then 50
  else if String.eqb decision "SOMEWHAT UNLIKELY" then 35
  else if String.eqb decision "UNLIKELY" then 25
  else 50.

(** The callback of [modelNames.map((name, index) => ...)]. *)
Definition comparisonItem (predictions : list string) (baseConfidence : Q)
  (entry : nat * string) : Rand ModelComparisonItem :=
  let (index, name) := entry in
  r <- random ;;
  let confidenceVariation := inject_Z (Math_floor (r * 15)) - 7 in
  let adjustedConfidence :=
    Qmin (Qmax (baseConfidence + confidenceVariation) 10) 95 in
  ret (mkModelComparisonItem name
         (nth index predictions "")
         adjustedConfidence
         (nth index keyFactors "")).

Definition generateModelComparison (decision asset trend : string)
  : Rand (list ModelComparisonItem) :=
  mapM (comparisonItem (predictionsFor decision) (baseConfidenceFor decision))
       (combine (seq 0 (List.length modelNames)) modelNames).

(** [handlePredictionSubmit] after [await getMarketDataFeeds(...)] has
    resolved with [dataFeeds]: the argument of [setPredictionData], [None]
    for a blank question (the early return). *)
Definition handlePredictionSubmit (predictionQuestion : string)
  (dataFeeds : list DataFeed) : Rand (option PredictionData) :=
  if blank predictionQuestion then ret None else
  let identifiedAssets := QueryParser.extractAssetsFromQuery predictionQuestion in
  let hasPrice := hasPriceQuestion predictionQuestion in
  let timeframe := timeframeOf predictionQuestion in
  let processedData :=
    mkProcessedQuery
      (if hasPrice then "price_prediction" else "market_trend")
      identifiedAssets
      (if hasPrice then ["market-dependent"] else [])
      (if String.eqb timeframe "Undefined Timeframe" then [] else [timeframe])
      [timeframe] in
  let primaryAsset := hd "Bitcoin" identifiedAssets in
  let primaryAssetData := findPrimary dataFeeds primaryAsset in
  let currentPrice :=
    match primaryAssetData with
    | Some feed => num_or (current_value feed) 0
    | None => 0
    end in
  let trend :=
    match primaryAssetData with
    | Some feed => str_or (trend feed) "stable"
    | None => "stable"
    end in
  trendMultiplier <- trendMultiplierOf trend ;;
  let baseMultiplier := trendMultiplier in
  modelMultipliers <- modelMultipliersOf baseMultiplier ;;
  let predictedPrice := round2 (currentPrice * baseMultiplier) in
  let modelPredictions :=
    map (fun entry => (fst entry, round2 (currentPrice * snd entry)))
        modelMultipliers in
  let confidenceIntervals :=
    [ ("90%", (round2 (predictedPrice * (75 # 100)), round2 (predictedPrice * (125 # 100))));
      ("70%", (round2 (predictedPrice * (85 # 100)), round2 (predictedPrice * (115 # 100))));
      ("50%", (round2 (predictedPrice * (95 # 100)), round2 (predictedPrice * (105 # 100)))) ] in
  finalDecision <- finalDecisionOf trend hasPrice ;;
  confidence <- confidenceOf ;;
  _ <- skip (reasoningDraws hasPrice primaryAsset) ;;
  verification <-
    generateVerificationDetails finalDecision confidence
      (str_or primaryAsset "Bitcoin") (str_or trend "stable") ;;
  let price_prediction :=
    if hasPrice then
      Some (mkPricePrediction (str_or primaryAsset "Bitcoin") currentPrice
              predictedPrice
              (round2 (predictedPrice * (9 # 10)), round2 (predictedPrice * (11 # 10)))
              timeframe modelPredictions confidenceIntervals)
    else None in
  modelComparison <-
    generateModelComparison (str_or finalDecision "UNCERTAIN")
      (str_or primaryAsset "Bitcoin") trend ;;
  ret (Some
    (mkPredictionData predictionQuestion processedData
       (mkVerificationResult (str_or finalDecision "UNCERTAIN") confidence
          verification price_prediction)
       dataFeeds modelComparison)).



Section Submit.

Context {Json : Type}
  (usd_of : Json -> string -> option Q)
  (prices_of : Json -> option (list (Z * Q))).


End Submit.

End Landing.

(* ================================================================== *)
(** ** app/landing.tsx: the PredictionMarket view *)
(* ================================================================== *)

Module PredictionMarket.
Import JS Types MarketAnalytics Landing.
Local Open Scope Q_scope.

(** One row of "Model Deviation from Consensus": the percentage shown, the
    colour of the bar (green rather than red) and its width in percent. *)
Record DeviationRow : Type := mkDeviationRow
  { row_model : string;
    deviationPercent : Q;
    row_green : bool;
    row_width : Q }.

(** The callback of [Object.entries(model_predictions).map(...)]; [None]
    when the division met a zero divisor. *)
Definition deviationRow (pp : PricePrediction) (entry : string * Q)
  : option DeviationRow :=
  let (model, prediction) := entry in
  let deviation := num_or prediction 0 - predicted_price pp in
  q <-? div deviation (Qmax (1 # 100) (predicted_price pp)) ;;
  let deviationPercent := q * 100 in
  Some (mkDeviationRow model deviationPercent (Qle_bool 0 deviationPercent)
          (Qmin 50 (Qabs deviationPercent))).

(** [values.reduce((sum, val) => sum + Math.pow((val || 0) - predicted_price, 2), 0)
     / Math.max(1, values.length)] *)
Definition meanSquaredDeviation (pp : PricePrediction) : option Q :=
  let values := map snd (model_predictions pp) in
  div (fold_left (fun sum val => sum + (num_or val 0 - predicted_price pp) ^ 2) values 0)
      (Qmax 1 (of_nat (List.length values))).

Section Statistics.

Variable sqrt : Q -> Q.

(** The "Standard Deviation" tile, before formatting. *)
Definition standardDeviation (pp : PricePrediction) : option Q :=
  v <-? meanSquaredDeviation pp ;;
  Some (num_or (sqrt v) 0).

(** The "Model Agreement" tile: the percentage its string shows. *)
Definition modelAgreement (pp : PricePrediction) : option Q :=
  v <-? meanSquaredDeviation pp ;;
  a <-? div (sqrt v) (Qmax (1 # 100) (predicted_price pp)) ;;
  Some (toFixed 1 (100 - (a * 100))).

End Statistics.

End PredictionMarket.

(* ================================================================== *)
(** ** The DataFeedDisplay component (unnamed/part_001) *)
(* ================================================================== *)

Module DataFeedDisplay.
Import JS Api.
Local Open Scope Q_scope.

Inductive SortBy : Type := ByName | ByPrice | ByChange.
Inductive SortOrder : Type := Asc | Desc.
Inductive FilterOption : Type := All | Up | Down.

Definition SortBy_eqb (a b : SortBy) : bool :=
  match a, b with
  | ByName, ByName | ByPrice, ByPrice | ByChange, ByChange => true
  | _, _ => false
  end.

(** [handleSortChange]: from the state [(sortBy, sortOrder)] to the state
    after a click on the column [newSortBy]. *)
Definition handleSortChange (state : SortBy * SortOrder) (newSortBy : SortBy)
  : SortBy * SortOrder :=
  let (sortBy, sortOrder) := state in
  if SortBy_eqb newSortBy sortBy then
    (sortBy, match sortOrder with Asc => Desc | Desc => Asc end)
  else
    (newSortBy, Asc).

(** [arr.sort(cmp)]: the sort is stable, so with a comparator that orders
    the elements consistently the outcome is the one arrangement in
    comparator order that keeps equal elements in their original order;
    insertion from the right computes it. *)
Fixpoint insert {A : Type} (cmp : A -> A -> Q) (x : A) (sorted : list A) : list A :=
  match sorted with
  | [] => [x]
  | y :: rest =>
      if Qle_bool (cmp x y) 0 then x :: y :: rest else y :: insert cmp x rest
  end.

Fixpoint array_sort {A : Type} (cmp : A -> A -> Q) (arr : list A) : list A :=
  match arr with
  | [] => []
  | x :: rest => insert cmp x (array_sort cmp rest)
  end.

Section Display.

(** [a.localeCompare(b)], which depends on the locale of the host. *)
Variable localeCompare : string -> string -> Q.

(** The comparator handed to [result.sort]. *)
Definition compareFeeds (sortBy : SortBy) (sortOrder : SortOrder) (a b : FTSOFeed) : Q :=
  let compareResult :=
    match sortBy with
    | ByName => localeCompare (name a) (name b)
    | ByPrice => current_price a - current_price b
    | ByChange => change_24h a - change_24h b
    end in
  match sortOrder with
  | Asc => compareResult
  | Desc => - compareResult
  end.

Definition matchesSearch (searchQuery : string) (feed : FTSOFeed) : bool :=
  let query := toLowerCase searchQuery in
  includes (toLowerCase (name feed)) query || includes (toLowerCase (id feed)) query.

Definition matchesTrend (filterOption : FilterOption) (feed : FTSOFeed) : bool :=
  let isUp := Qle_bool 0 (change_24h feed) in
  match filterOption with
  | Up => isUp
  | _ => negb isUp
  end.

(** The effect that applies sorting and filtering: the argument of
    [setFilteredFeeds]. *)
Definition filteredFeeds (feeds : list FTSOFeed) (sortBy : SortBy) (sortOrder : SortOrder)
  (filterOption : FilterOption) (searchQuery : string) : list FTSOFeed :=
  let result := feeds in
  let result :=
    if String.eqb searchQuery "" then result
    else filter (matchesSearch searchQuery) result in
  let result :=
    match filterOption with
    | All => result
    | _ => filter (matchesTrend filterOption) result
    end in
  array_sort (compareFeeds sortBy sortOrder) result.

End Display.

End DataFeedDisplay.

(* ================================================================== *)
(** * Vocabulary of the properties *)
(* ================================================================== *)

(** ** Strings *)

Section StringVocabulary.
Import JS.

(** A string is lowered when [toLowerCase] leaves it alone. *)
Definition lowered (s : string) : Prop := toLowerCase s = s.

(** Every character is a lower-case letter. *)
Fixpoint lower_alpha (s : string) : bool :=
  match s with
  | EmptyString => true
  | String c r => is_lower c && lower_alpha r
  end.

(** The last character of [s], or [prev] for the empty string. *)
Fixpoint last_char_from (prev : option ascii) (s : string) : option ascii :=
  match s with
  | EmptyString => prev
  | String c r => last_char_from (Some c) r
  end.

(** [sub] occurs in [s]. *)
Definition occurs_in (sub s : string) : Prop :=
  exists pre post, s = pre ++ sub ++ post.

(** [w] occurs in [s] with no word character directly before or after it. *)
Definition standalone_word (w s : string) : Prop :=
  exists pre post,
    s = pre ++ w ++ post
    /\ wordb (last_char_from None pre) = false
    /\ wordb (hd_char post) = false.

End StringVocabulary.

(** ** Query parser *)

Section QueryParserVocabulary.
Import JS QueryParser.

(** The canonical full names: the values of [symbolMap]. *)
Definition canonicalNames : list string := map snd symbolMap.

(** The condition under which the loop body pushes the name of [asset]. *)
Definition asset_present (normalizedQuery asset : string) : bool :=
  includes normalizedQuery asset
  && (if (String.length asset <=? 4)%nat
      then word_regex_test asset normalizedQuery
      else true).

(** The asset string counts as present in the lower-cased query: as a
    standalone word when it has at most 4 characters, as a substring
    otherwise. *)
Definition counts_as_present (asset normalizedQuery : string) : Prop :=
  if (String.length asset <=? 4)%nat
  then standalone_word asset normalizedQuery
  else occurs_in asset normalizedQuery.

End QueryParserVocabulary.

(** ** Market data feeds *)

Section MarketDataVocabulary.
Import JS Types MoralisService.

(** [feed] is the feed of [asset]: identified by the asset's name, with one
    of the three trends. *)
Definition feed_for (asset : string) (feed : DataFeed) : Prop :=
  feed_id feed = toLowerCase asset
  /\ name feed = displayName asset
  /\ In (trend feed) ["up"; "down"; "stable"].

End MarketDataVocabulary.

(** ** Indicators *)

Section IndicatorVocabulary.
Import JS Types MarketAnalytics.
Local Open Scope Q_scope.

(** The last [k] points of the series, all of it when it is shorter. *)
Definition last_up_to {A : Type} (k : nat) (l : list A) : list A :=
  skipn (List.length l - k) l.

(** The arithmetic mean of a list of numbers. *)
Definition mean (xs : list Q) : Q := sum xs / of_nat (List.length xs).

(** The population variance: the mean of the squared deviations from the
    mean. *)
Definition population_variance (xs : list Q) : Q :=
  mean (map (fun x => (x - mean xs) ^ 2) xs).

(** The simple moving average over the last [k] points (over all of them
    when the series is shorter). *)
Definition sma (k : nat) (h : list PricePoint) : Q :=
  mean (map value (last_up_to k h)).

(** The population standard deviation. *)
Definition population_stddev (sqrt : Q -> Q) (xs : list Q) : Q :=
  sqrt (population_variance xs).

(** An instance of the square-root parameter to run the model with: the
    integer square root of the integer part. *)
Definition floor_sqrt (x : Q) : Q := inject_Z (Z.sqrt (Qfloor x)).

(** The falling series 150, 140, ..., 10 (15 points, as many as a fallback
    feed has). *)
Definition falling15 : list PricePoint :=
  map (mkPricePoint 0) [150; 140; 130; 120; 110; 100; 90; 80; 70; 60; 50; 40; 30; 20; 10].

End IndicatorVocabulary.

(** ** The handler *)

Section HandlerVocabulary.
Import JS Types Landing.
Local Open Scope Q_scope.

(** The fixed set of decision labels. *)
Definition decisionLabels : list string :=
  [ "HIGHLY LIKELY"; "LIKELY"; "SOMEWHAT LIKELY"; "UNCERTAIN";
    "SOMEWHAT UNLIKELY"; "UNLIKELY" ].

(** The primary asset and its trend, as the handler determines them. *)
Definition primaryAssetOf (predictionQuestion : string) : string :=
  hd "Bitcoin" (QueryParser.extractAssetsFromQuery predictionQuestion).

Definition trendFor (predictionQuestion : string) (dataFeeds : list DataFeed) : string :=
  match findPrimary dataFeeds (primaryAssetOf predictionQuestion) with
  | Some feed => str_or (trend feed) "stable"
  | None => "stable"
  end.

Definition priceQuestion : string := "Will the price of Bitcoin go above 100k?".

Definition risingBitcoin : DataFeed :=
  mkDataFeed "bitcoin" "Bitcoin" 62500 0 "up" [].

(** Draw 6 decides the label, draws 24 to 29 vary the compared models. *)
Definition drawsA : draws :=
  fun n => if (n =? 6)%nat then 1 # 2
           else if (24 <=? n)%nat then 85 # 100 else 1 # 2.

Definition drawsB : draws :=
  fun n => if (n =? 6)%nat then 1 # 10
           else if (24 <=? n)%nat then 15 # 100 else 1 # 2.

Definition drawsHigh : draws := fun _ => 9 # 10.

(** Every confidence value of a result: the overall one, those of
    [model_responses], those of the model comparison. *)
Definition confidences (pd : PredictionData) : Q * list Q * list Q :=
  (confidence (verificationResult pd),
   map (fun response => response_confidence (snd response))
       (model_responses (verification (verificationResult pd))),
   map item_confidence (modelComparison pd)).

End HandlerVocabulary.

(** ** Rounding *)

Section RoundingVocabulary.
Import JS.
Local Open Scope Q_scope.

(** The magnitude [toFixed] prints for the absolute value [a]. *)
Definition fixedMagnitude (d : nat) (a : Q) : Q :=
  inject_Z (Qfloor (a * inject_Z (10 ^ Z.of_nat d) + (1 # 2)))
  / inject_Z (10 ^ Z.of_nat d).

End RoundingVocabulary.

(** ** The order of the asset table *)

Section QueryOrderVocabulary.
Import JS QueryParser.

(** The name the loop pushes for an entry of [commonAssets]. *)
Definition pushed (asset : string) : string := mapSymbolToName (toLowerCase asset).

(** The pushed names, in table order. *)
Definition tableNames : list string := map pushed commonAssets.

(** The index of the first occurrence of [name] in [names] (their length
    when there is none). *)
Fixpoint index_of (name : string) (names : list string) : nat :=
  match names with
  | [] => 0
  | x :: rest => if String.eqb x name then 0 else S (index_of name rest)
  end.

(** The place of a canonical name in the asset table. *)
Definition tablePosition (name : string) : nat := index_of name tableNames.

Definition before_in_table (a b : string) : Prop :=
  (tablePosition a < tablePosition b)%nat.

(** Along the table the position of the pushed name never decreases, and
    entries with the same position push the same name. *)
Definition table_step (a b : string) : Prop :=
  (tablePosition (pushed a) <= tablePosition (pushed b))%nat
  /\ (tablePosition (pushed a) = tablePosition (pushed b) -> pushed a = pushed b).

Fixpoint table_stepsb (l : list string) : bool :=
  match l with
  | a :: (b :: _) as rest =>
      (tablePosition (pushed a) <=? tablePosition (pushed b))%nat
      && (negb (tablePosition (pushed a) =? tablePosition (pushed b))%nat
          || String.eqb (pushed a) (pushed b))
      && table_stepsb rest
  | _ => true
  end.

End QueryOrderVocabulary.

(** ** The feeds of the market-data service *)

Section ServicedFeedVocabulary.
Import JS Types MoralisService.
Local Open Scope Q_scope.

(** The feed of [asset] as the service builds it: the asset's own feed,
    with a price that is not 0; when its history could not be fetched it
    has the 15 mock points and a trend that is not "down". *)
Definition serviced_feed {Json : Type} (prices_of : Json -> option (list (Z * Q)))
  (net : Network Json) (asset : string) (feed : DataFeed) : Prop :=
  feed_for asset feed
  /\ ~ current_value feed == 0
  /\ forall error,
       tryHistoricalPrices prices_of net asset 14 = Threw error ->
       List.length (historical feed) = 15%nat
       /\ In (trend feed) ["up"; "stable"].

(** A network on which every [fetch] fails, with bodies that would hold
    neither a price nor a history. *)
Definition deadNetwork : Network unit := fun _ => Threw (mkError "Failed to fetch").

Definition noUsd : unit -> string -> option Q := fun _ _ => None.

Definition noPrices : unit -> option (list (Z * Q)) := fun _ => None.

(** A feed with the falling series as its history. *)
Definition fallingFeed : DataFeed :=
  mkDataFeed "bitcoin" "Bitcoin" 10 0 "down" falling15.

End ServicedFeedVocabulary.

(** ** The price prediction *)

Section PredictionVocabulary.
Import JS Types Landing.
Local Open Scope Q_scope.

(** The current price of the primary asset, as the handler determines it. *)
Definition currentPriceFor (predictionQuestion : string) (dataFeeds : list DataFeed) : Q :=
  match findPrimary dataFeeds (primaryAssetOf predictionQuestion) with
  | Some feed => num_or (current_value feed) 0
  | None => 0
  end.

(** The three confidence intervals around a predicted price. *)
Definition intervalsAround (predictedPrice : Q) : list (string * (Q * Q)) :=
  [ ("90%", (round2 (predictedPrice * (75 # 100)), round2 (predictedPrice * (125 # 100))));
    ("70%", (round2 (predictedPrice * (85 # 100)), round2 (predictedPrice * (115 # 100))));
    ("50%", (round2 (predictedPrice * (95 # 100)), round2 (predictedPrice * (105 # 100)))) ].

(** The names of the model responses with the band of each confidence
    around the overall one: [(name, lowest offset, offset never reached)]. *)
Definition responseBands : list (string * Q * Q) :=
  [ ("DeepSeek R1 Zero", - (15 # 100), 15 # 100);
    ("Gemini Flash Lite 2.0", - (20 # 100), 5 # 100);
    ("Mistral Small 3", - (25 # 100), - (5 # 100));
    ("QwQ 32B", - (5 # 100), 10 # 100);
    ("Llama 3.3 70B", 0, 15 # 100) ].

Definition in_band (overall : Q) (band : string * Q * Q)
  (response : string * ModelResponse) : Prop :=
  fst response = fst (fst band)
  /\ overall + snd (fst band) <= response_confidence (snd response)
  /\ response_confidence (snd response) < overall + snd band.



(** A price prediction with two model predictions around the consensus. *)
Definition examplePrediction : PricePrediction :=
  mkPricePrediction "Bitcoin" 100 120 (108, 132) "Next Week"
    [ ("DeepSeek R1 Zero", 110); ("Llama 3.3 70B", 130) ] [].

End PredictionVocabulary.

(** ** The prediction service *)

Section ServiceVocabulary.
Import JS PredictionService.


End ServiceVocabulary.

(** ** The displayed feeds *)

Section DisplayVocabulary.
Import JS Api DataFeedDisplay.
Local Open Scope Q_scope.

(** A feed passes the search box and the trend filter. *)
Definition shown (filterOption : FilterOption) (searchQuery : string) (feed : FTSOFeed)
  : bool :=
  (String.eqb searchQuery "" || matchesSearch searchQuery feed)
  && match filterOption with
     | All => true
     | Up => Qle_bool 0 (change_24h feed)
     | Down => negb (Qle_bool 0 (change_24h feed))
     end.

(** The number a numeric sort key reads off a feed. *)
Definition sortKey (sortBy : SortBy) (feed : FTSOFeed) : Q :=
  match sortBy with
  | ByName => 0
  | ByPrice => current_price feed
  | ByChange => change_24h feed
  end.

Definition in_order (sortBy : SortBy) (sortOrder : SortOrder) (a b : FTSOFeed) : Prop :=
  match sortOrder with
  | Asc => sortKey sortBy a <= sortKey sortBy b
  | Desc => sortKey sortBy b <= sortKey sortBy a
  end.

(** Three of the mock feeds, without their histories. *)
Definition exampleFeeds : list FTSOFeed :=
  [ mkFeed "ftso-xrp-usd" "XRP/USD" (5923 # 10000) (5738 # 10000) (322 # 100) 0 [];
    mkFeed "ftso-btc-usd" "BTC/USD" (2745312 # 100) (2798135 # 100) (- (189 # 100)) 0 [];
    mkFeed "ftso-flr-usd" "FLR/USD" (243 # 10000) (251 # 10000) (- (319 # 100)) 0 [] ].

End DisplayVocabulary.

(** ** Ordinary magnitudes and dates *)

Section MagnitudeVocabulary.
Import JS.
Local Open Scope Q_scope.

(** A magnitude far from the ends of the range of a double: products and
    quotients of a few such numbers neither overflow nor vanish. *)
Definition ordinary (x : Q) : Prop :=
  1 / 10 ^ 100 <= Qabs x /\ Qabs x <= 10 ^ 100.

(** The dates of a mock history of [days] days are valid times, with two
    days to spare for the calendar of the local time zone. *)
Definition mock_dates_valid (now : Z) (days : nat) : bool :=
  valid_time (now - (Z.of_nat days + 2) * ms_per_day)
  && valid_time (now + 2 * ms_per_day).

End MagnitudeVocabulary.

(** ** Numbers that round and overflow *)

Section DoublesVocabulary.
Import JS MarketAnalytics Doubles.
Local Open Scope Q_scope.

(** A number that is not negative and that rounding leaves as it is: a
    sum of gains, of losses or of squares. *)
Definition amount (round : Q -> number) (x : number) : Prop :=
  le zero x
  /\ forall q, x = Finite q -> exists q', round q = Finite q' /\ q' == q.

(** A number above 0. *)
Definition above_zero (x : number) : Prop :=
  x = PlusInfinity \/ exists q, x = Finite q /\ 0 < q.




(** The series 1.7e308, 1, 1.7e308, 1, 1.7e308 of finite numbers. *)
Definition overflowSeries : list number :=
  map Finite [17 * 10 ^ 307; 1; 17 * 10 ^ 307; 1; 17 * 10 ^ 307].

Definition ordinarySeries : list number := map Finite [10; 12; 11; 15; 14; 18].

End DoublesVocabulary.

(* ================================================================== *)
(** * Properties *)
(* ================================================================== *)

(** ** Characters and strings *)

Section StringFacts.
Import JS.

Ltac each_char c :=
  destruct c as [[|] [|] [|] [|] [|] [|] [|] [|]].

Lemma lower_char_idem (c : ascii) : lower_char (lower_char c) = lower_char c.
Proof. each_char c; reflexivity. Qed.

Lemma lower_upper_of_lower (a : ascii) :
  is_lower a = true -> lower_char (upper_char a) = a.
Proof. each_char a; intros H; try discriminate H; reflexivity. Qed.

Lemma lower_upper_of_lowered (c : ascii) :
  lower_char c = c -> lower_char (upper_char c) = c.
Proof. each_char c; intros H; try discriminate H; reflexivity. Qed.

Lemma is_lower_word (a : ascii) : is_lower a = true -> is_word_char a = true.
Proof. each_char a; intros H; try discriminate H; reflexivity. Qed.

Lemma is_lower_lowered (a : ascii) : is_lower a = true -> lower_char a = a.
Proof. each_char a; intros H; try discriminate H; reflexivity. Qed.

(** Under flag [i] a lower-case letter of the pattern matches exactly itself
    in a lower-cased input. *)
Lemma canonical_match (a c : ascii) :
  is_lower a = true -> lower_char c = c ->
  Ascii.eqb (upper_char a) (upper_char c) = true <-> a = c.
Proof.
  intros Ha Hc. rewrite Ascii.eqb_eq. split.
  - intros E. rewrite <- (lower_upper_of_lower a Ha), <- (lower_upper_of_lowered c Hc).
    now rewrite E.
  - now intros ->.
Qed.

Lemma toLowerCase_idem (s : string) : toLowerCase (toLowerCase s) = toLowerCase s.
Proof.
  induction s as [|c s IH]; simpl; [reflexivity|].
  now rewrite lower_char_idem, IH.
Qed.

Lemma lowered_cons (c : ascii) (s : string) :
  lowered (String c s) -> lower_char c = c /\ lowered s.
Proof. unfold lowered; simpl; intros H; now injection H. Qed.

Lemma lowered_toLowerCase (s : string) : lowered (toLowerCase s).
Proof. apply toLowerCase_idem. Qed.

Lemma lower_alpha_lowered (s : string) : lower_alpha s = true -> lowered s.
Proof.
  unfold lowered. induction s as [|c s IH]; simpl; [reflexivity|].
  intros H. apply andb_true_iff in H as [Hc Hs].
  now rewrite (is_lower_lowered c Hc), (IH Hs).
Qed.

Lemma last_char_word (lit : string) (prev : option ascii) :
  lower_alpha lit = true -> lit <> "" ->
  wordb (last_char_from prev lit) = true.
Proof.
  revert prev. induction lit as [|a lit IH]; intros prev Hl Hne; [congruence|].
  simpl in Hl. apply andb_true_iff in Hl as [Ha Hl]. simpl.
  destruct lit as [|b lit'].
  - simpl. now apply is_lower_word.
  - apply IH; [exact Hl | discriminate].
Qed.

Lemma prefix_app (p s : string) :
  prefix p s = true <-> exists rest, s = p ++ rest.
Proof.
  revert s. induction p as [|a p IH]; intros s.
  - split; [intros _; now exists s | intros _; now destruct s].
  - destruct s as [|c s]; simpl.
    + split; [discriminate | intros [rest H]; discriminate H].
    + destruct (ascii_dec a c) as [->|Hne].
      * rewrite IH. split; intros [rest H]; exists rest.
        -- now rewrite H.
        -- now injection H.
      * split; [discriminate|]. intros [rest H]. injection H as H1 H2. congruence.
Qed.

Lemma includes_nil (sub : string) :
  includes "" sub = prefix sub "" || false.
Proof. reflexivity. Qed.

Lemma includes_cons (c : ascii) (s sub : string) :
  includes (String c s) sub = prefix sub (String c s) || includes s sub.
Proof. reflexivity. Qed.

Lemma includes_spec (s sub : string) :
  includes s sub = true <-> occurs_in sub s.
Proof.
  unfold occurs_in. induction s as [|c s IH]; [rewrite includes_nil | rewrite includes_cons].
  - rewrite orb_false_r, prefix_app. split.
    + intros [rest H]. now exists "", rest.
    + intros [pre [post H]]. destruct pre; simpl in H.
      * now exists post.
      * discriminate H.
  - rewrite orb_true_iff, prefix_app, IH. split.
    + intros [[rest H] | [pre [post H]]].
      * now exists "", rest.
      * exists (String c pre), post. simpl. now rewrite H.
    + intros [pre [post H]]. destruct pre as [|c' pre]; simpl in H.
      * left. now exists post.
      * right. injection H as _ H. now exists pre, post.
Qed.

Lemma standalone_occurs (w s : string) : standalone_word w s -> occurs_in w s.
Proof. intros [pre [post [H _]]]. now exists pre, post. Qed.

Lemma match_literal_ci_spec (lit s : string) (prev last : option ascii) (rest : string) :
  lower_alpha lit = true -> lowered s ->
  match_literal_ci lit s prev = Some (last, rest)
  <-> s = lit ++ rest /\ last = last_char_from prev lit.
Proof.
  revert s prev. induction lit as [|a lit IH]; intros s prev Hl Hs; simpl.
  - split.
    + intros H. injection H as -> ->. now split.
    + intros [-> ->]. reflexivity.
  - simpl in Hl. apply andb_true_iff in Hl as [Ha Hl].
    destruct s as [|c s].
    + split; [discriminate | intros [H _]; discriminate H].
    + apply lowered_cons in Hs as [Hc Hs].
      destruct (Ascii.eqb (upper_char a) (upper_char c)) eqn:E.
      * apply (canonical_match a c Ha Hc) in E. subst c.
        rewrite (IH s (Some a) Hl Hs). split.
        -- intros [-> ->]. now split.
        -- intros [H ->]. injection H as ->. now split.
      * split; [discriminate|]. intros [H _]. injection H as H _. subst c.
        assert (Ascii.eqb (upper_char a) (upper_char a) = true) by apply Ascii.eqb_refl.
        congruence.
Qed.

Lemma match_here_spec (lit s : string) (prev : option ascii) :
  lower_alpha lit = true -> lit <> "" -> lowered s ->
  match_here lit prev s = true
  <-> wordb prev = false
      /\ exists rest, s = lit ++ rest /\ wordb (hd_char rest) = false.
Proof.
  intros Hl Hne Hs. unfold match_here, at_boundary.
  destruct (match_literal_ci lit s prev) as [[last rest]|] eqn:E.
  - apply (match_literal_ci_spec lit s prev last rest Hl Hs) in E as [-> ->].
    rewrite (last_char_word lit prev Hl Hne).
    assert (Hhd : wordb (hd_char (lit ++ rest)) = true).
    { destruct lit as [|a lit]; [congruence|]. simpl in *.
      apply andb_true_iff in Hl as [Ha _]. now apply is_lower_word. }
    rewrite Hhd, andb_true_iff. split.
    + intros [H1 H2]. split.
      * now destruct (wordb prev).
      * exists rest. split; [reflexivity|]. now destruct (wordb (hd_char rest)).
    + intros [H1 [rest' [H2 H3]]].
      assert (rest' = rest).
      { clear -H2. induction lit as [|a lit IH]; simpl in H2; [congruence|].
        injection H2 as H2. now apply IH. }
      subst rest'. now rewrite H1, H3.
  - rewrite andb_false_r. split; [discriminate|].
    intros [_ [rest [H1 _]]].
    assert (X : match_literal_ci lit s prev = Some (last_char_from prev lit, rest)).
    { apply match_literal_ci_spec; auto. }
    congruence.
Qed.

Lemma regex_test_from_nil (lit : string) (prev : option ascii) :
  regex_test_from lit prev "" = match_here lit prev "" || false.
Proof. reflexivity. Qed.

Lemma regex_test_from_cons (lit : string) (prev : option ascii) (c : ascii) (s : string) :
  regex_test_from lit prev (String c s)
  = match_here lit prev (String c s) || regex_test_from lit (Some c) s.
Proof. reflexivity. Qed.

Lemma regex_test_from_spec (lit s : string) (prev : option ascii) :
  lower_alpha lit = true -> lit <> "" -> lowered s ->
  regex_test_from lit prev s = true
  <-> exists pre post,
        s = pre ++ lit ++ post
        /\ wordb (last_char_from prev pre) = false
        /\ wordb (hd_char post) = false.
Proof.
  intros Hl Hne. revert prev. induction s as [|c s IH]; intros prev Hs.
  - rewrite regex_test_from_nil, orb_false_r, (match_here_spec lit "" prev Hl Hne Hs). split.
    + intros [H1 [rest [H2 H3]]]. now exists "", rest.
    + intros [pre [post [H1 [H2 H3]]]]. destruct pre; simpl in *.
      * split; [assumption|]. now exists post.
      * discriminate H1.
  - pose proof (lowered_cons c s Hs) as [_ Hs'].
    rewrite regex_test_from_cons, orb_true_iff,
      (match_here_spec lit (String c s) prev Hl Hne Hs), (IH (Some c) Hs'). split.
    + intros [[H1 [rest [H2 H3]]] | [pre [post [H1 [H2 H3]]]]].
      * now exists "", rest.
      * exists (String c pre), post. simpl. now rewrite H1.
    + intros [pre [post [H1 [H2 H3]]]]. destruct pre as [|c' pre]; simpl in *.
      * left. split; [assumption|]. now exists post.
      * right. injection H1 as -> H1. now exists pre, post.
Qed.

(** The test of [\b<lit>\b] is the search for a standalone occurrence. *)
Lemma word_regex_test_spec (lit s : string) :
  lower_alpha lit = true -> lit <> "" -> lowered s ->
  word_regex_test lit s = true <-> standalone_word lit s.
Proof. intros. now apply regex_test_from_spec. Qed.

End StringFacts.

(** ** C9: extractAssetsFromQuery *)

Section QueryParserFacts.
Import JS QueryParser.

Lemma check_asset_eq (nq : string) (assets : list string) (asset : string) :
  check_asset nq assets asset
  = if asset_present nq asset
    then push_unique assets (mapSymbolToName (toLowerCase asset))
    else assets.
Proof.
  unfold check_asset, asset_present.
  destruct (includes nq asset); simpl; [|reflexivity].
  destruct (String.length asset <=? 4)%nat; [|reflexivity].
  now destruct (word_regex_test asset nq).
Qed.

Lemma array_includes_In (arr : list string) (x : string) :
  array_includes arr x = true <-> In x arr.
Proof.
  unfold array_includes. rewrite existsb_exists. split.
  - intros [y [Hy E]]. apply String.eqb_eq in E. now subst.
  - intros H. exists x. split; [assumption | apply String.eqb_refl].
Qed.

Lemma push_unique_In (assets : list string) (x y : string) :
  In y (push_unique assets x) <-> In y assets \/ y = x.
Proof.
  unfold push_unique. destruct (array_includes assets x) eqn:E.
  - apply array_includes_In in E. split; [now left|].
    intros [H | ->]; assumption.
  - rewrite in_app_iff. simpl. intuition.
Qed.

Lemma push_unique_NoDup (assets : list string) (x : string) :
  NoDup assets -> NoDup (push_unique assets x).
Proof.
  intros H. unfold push_unique. destruct (array_includes assets x) eqn:E; [assumption|].
  assert (Hx : ~ In x assets).
  { intros Hin. apply array_includes_In in Hin. congruence. }
  clear E. induction H as [|a l Ha Hl IH]; simpl.
  - constructor; [intros [] | constructor].
  - constructor.
    + rewrite in_app_iff. simpl. intros [H | [H | []]]; [now apply Ha|].
      apply Hx. now left.
    + apply IH. intros Hin. apply Hx. now right.
Qed.

(** The loop, from any array built so far. *)
Lemma scan_NoDup (nq : string) (l : list string) (acc : list string) :
  NoDup acc -> NoDup (fold_left (check_asset nq) l acc).
Proof.
  revert acc. induction l as [|a l IH]; intros acc H; simpl; [assumption|].
  apply IH. rewrite check_asset_eq.
  destruct (asset_present nq a); [now apply push_unique_NoDup | assumption].
Qed.

Lemma scan_In (nq : string) (l : list string) (acc : list string) (name : string) :
  In name (fold_left (check_asset nq) l acc)
  <-> In name acc
      \/ exists asset, In asset l /\ asset_present nq asset = true
                       /\ mapSymbolToName (toLowerCase asset) = name.
Proof.
  revert acc. induction l as [|a l IH]; intros acc; simpl.
  - split; [now left|]. intros [H | [asset [[] _]]]. assumption.
  - rewrite IH, check_asset_eq. destruct (asset_present nq a) eqn:E.
    + rewrite push_unique_In. split.
      * intros [[H | ->] | [asset [H1 H2]]].
        -- now left.
        -- right. exists a. auto.
        -- right. exists asset. split; [now right | assumption].
      * intros [H | [asset [[-> | H1] [H2 H3]]]].
        -- left. now left.
        -- left. right. now symmetry.
        -- right. now exists asset.
    + split.
      * intros [H | [asset [H1 H2]]]; [now left|].
        right. exists asset. split; [now right | assumption].
      * intros [H | [asset [[-> | H1] [H2 H3]]]]; [now left | congruence |].
        right. now exists asset.
Qed.

(** The entries of [commonAssets] are in lower case already, and those the
    loop treats as symbols are plain words of letters, so that the pattern
    built from them has no metacharacter. *)
Lemma commonAssets_lowered (asset : string) :
  In asset commonAssets -> toLowerCase asset = asset.
Proof.
  assert (H : forallb (fun a => String.eqb (toLowerCase a) a) commonAssets = true)
    by (vm_compute; reflexivity).
  rewrite forallb_forall in H. intros Hin. now apply String.eqb_eq, H.
Qed.

Lemma commonAssets_symbols (asset : string) :
  In asset commonAssets -> (String.length asset <= 4)%nat ->
  lower_alpha asset = true /\ asset <> "".
Proof.
  assert (H : forallb (fun a => negb (String.length a <=? 4)%nat
                                || (lower_alpha a && negb (String.eqb a "")))
                      commonAssets = true)
    by (vm_compute; reflexivity).
  rewrite forallb_forall in H. intros Hin Hlen. specialize (H asset Hin).
  apply Nat.leb_le in Hlen. rewrite Hlen in H. simpl in H.
  apply andb_true_iff in H as [H1 H2]. split; [assumption|].
  intros ->. discriminate H2.
Qed.

Lemma commonAssets_canonical (asset : string) :
  In asset commonAssets -> In (mapSymbolToName asset) canonicalNames.
Proof.
  assert (H : forallb (fun a => array_includes canonicalNames (mapSymbolToName a))
                      commonAssets = true)
    by (vm_compute; reflexivity).
  rewrite forallb_forall in H. intros Hin. now apply array_includes_In, H.
Qed.

Lemma asset_present_spec (nq asset : string) :
  In asset commonAssets -> lowered nq ->
  asset_present nq asset = true <-> counts_as_present asset nq.
Proof.
  intros Hin Hnq. unfold asset_present, counts_as_present.
  rewrite andb_true_iff, includes_spec.
  destruct (String.length asset <=? 4)%nat eqn:E.
  - apply Nat.leb_le in E. destruct (commonAssets_symbols asset Hin E) as [Hl Hne].
    rewrite (word_regex_test_spec asset nq Hl Hne Hnq). split.
    + now intros [_ H].
    + intros H. split; [now apply standalone_occurs | assumption].
  - split; [now intros [H _] | now intros H].
Qed.

(** C9. For every query, [extractAssetsFromQuery] returns a duplicate-free
    list of canonical full names; queries that differ only in letter case
    give the same list; a name is in the list exactly when one of the asset
    strings mapped to it counts as present in the lower-cased query, where a
    string of at most 4 characters counts only as a standalone word (no
    word character directly before or after it); so a symbol and its full
    name occurring together yield their name exactly once. *)
Theorem extractAssetsFromQuery_canonical_unique (query : string) :
  let result := extractAssetsFromQuery query in
  NoDup result
  /\ (forall name, In name result -> In name canonicalNames)
  /\ (forall query', toLowerCase query' = toLowerCase query ->
                     extractAssetsFromQuery query' = result)
  /\ (forall name,
        In name result
        <-> exists asset,
              In asset commonAssets
              /\ mapSymbolToName asset = name
              /\ counts_as_present asset (toLowerCase query))
  /\ (forall name, In name result -> count_occ string_dec result name = 1%nat).
Proof.
  intros result.
  assert (Hnd : NoDup result) by (apply scan_NoDup; constructor).
  assert (Hin : forall name,
             In name result
             <-> exists asset,
                   In asset commonAssets
                   /\ mapSymbolToName asset = name
                   /\ counts_as_present asset (toLowerCase query)).
  { intros name. unfold result, extractAssetsFromQuery. rewrite scan_In. split.
    - intros [[] | [asset [H1 [H2 H3]]]]. exists asset.
      rewrite (commonAssets_lowered asset H1) in H3.
      apply (asset_present_spec _ asset H1 (lowered_toLowerCase query)) in H2.
      auto.
    - intros [asset [H1 [H2 H3]]]. right. exists asset.
      rewrite (commonAssets_lowered asset H1).
      apply (asset_present_spec _ asset H1 (lowered_toLowerCase query)) in H3.
      auto. }
  split; [exact Hnd|]. split; [|split; [|split; [exact Hin|]]].
  - intros name H. apply Hin in H as [asset [H1 [<- _]]].
    now apply commonAssets_canonical.
  - intros query' E. unfold result, extractAssetsFromQuery. now rewrite E.
  - intros name H. apply NoDup_count_occ' with (decA := string_dec) in H; assumption.
Qed.

(** The statement at a query that names Bitcoin by symbol and by name and
    has "sol" only inside another word. *)
Lemma extractAssetsFromQuery_canonical_unique_witness :
  extractAssetsFromQuery "Will BTC or Bitcoin beat Ethereum? Absolutely."
  = ["Bitcoin"; "Ethereum"]
  /\ NoDup (extractAssetsFromQuery "Will BTC or Bitcoin beat Ethereum? Absolutely.")
  /\ count_occ string_dec
       (extractAssetsFromQuery "Will BTC or Bitcoin beat Ethereum? Absolutely.")
       "Bitcoin" = 1%nat.
Proof.
  destruct (extractAssetsFromQuery_canonical_unique
              "Will BTC or Bitcoin beat Ethereum? Absolutely.")
    as [Hnd [_ [_ [_ Hcount]]]].
  split; [vm_compute; reflexivity|]. split; [exact Hnd|].
  apply Hcount. vm_compute. now left.
Defined.

End QueryParserFacts.

(** ** The random source *)

Section RandFacts.
Import JS.

Lemma bind_run {A B} (m : Rand A) (k : A -> Rand B) (g : draws) (n : nat) :
  bind m k g n = k (fst (m g n)) g (snd (m g n)).
Proof. unfold bind. now destruct (m g n). Qed.

Lemma mapM_length {A B} (f : A -> Rand B) (xs : list A) (g : draws) (n : nat) :
  List.length (fst (mapM f xs g n)) = List.length xs.
Proof.
  revert n. induction xs as [|x xs IH]; intros n; simpl; [reflexivity|].
  rewrite bind_run, bind_run. simpl. now rewrite IH.
Qed.

Lemma skip_run (k : nat) (g : draws) (n : nat) : skip k g n = (tt, (k + n)%nat).
Proof.
  revert n. induction k as [|k IH]; intros n; simpl; [reflexivity|].
  rewrite bind_run. simpl. rewrite IH. f_equal. lia.
Qed.

End RandFacts.

(** ** C2: what the data-fetching operations do on a network failure *)

Section NetworkFailureFacts.
Import JS.

Lemma generateMockHistoricalData_length (now : Z) (min max : Q) (g : draws) (n : nat) :
  List.length (fst (Api.generateMockHistoricalData now min max g n)) = 24%nat.
Proof.
  unfold Api.generateMockHistoricalData. rewrite bind_run.
  change (List.length (rev (fst (mapM (Api.mockPoint now min max) (seq 0 24) g n)))
          = 24%nat).
  now rewrite length_rev, mapM_length.
Qed.

(** The claim fails for [analyzePrediction]: with the [fetch] rejected, the
    call resolves with no data at all, it rejects with the same error. *)
Lemma analyzePrediction_failure_propagates :
  PredictionService.analyzePrediction (fun body : string => body)
    "Will BTC reach 100k in 2025?" (Threw (mkError "Failed to fetch"))
  = Threw (mkError "Failed to fetch")
  /\ ~ (exists data : string,
          PredictionService.analyzePrediction (fun body : string => body)
            "Will BTC reach 100k in 2025?" (Threw (mkError "Failed to fetch"))
          = Returned data).
Proof.
  split; [reflexivity|]. intros [data H]. discriminate H.
Qed.

(** C2, amended. On a network failure [getAllFeeds] resolves with its five
    local mock feeds (24 generated points each) and [getTokenPrice] with the
    price of its local fallback table; [getFeedById] resolves with [null];
    [analyzePrediction] rejects with the error it caught. *)
Theorem network_failure_by_operation :
  (forall (now : Z) (e : Error) (g : draws) (n : nat),
      exists feeds,
        fst (Api.getAllFeeds now (Threw e) g n) = Returned feeds
        /\ feeds = fst (Api.mockFeeds now g n)
        /\ map Api.id feeds
           = [ "ftso-xrp-usd"; "ftso-flr-usd"; "ftso-ltc-usd";
               "ftso-btc-usd"; "ftso-eth-usd" ]
        /\ Forall (fun f => List.length (Api.historical_data f) = 24%nat) feeds)
  /\ (forall (feedId : string) (e : Error),
         Api.getFeedById feedId (Threw e) = Returned None)
  /\ (forall (Json : Type) (usd_of : Json -> string -> option Q)
             (token : string) (e : Error),
         MoralisService.getTokenPrice usd_of (fun _ => Threw e) token
         = Returned (MoralisService.fallbackPrice token))
  /\ (forall (Json : Type) (message_of : Json -> string)
             (question : string) (e : Error),
         PredictionService.analyzePrediction message_of question (Threw e)
         = Threw e).
Proof.
  split; [|split; [|split]]; try reflexivity.
  intros now e g n. exists (fst (Api.mockFeeds now g n)).
  split; [|split; [reflexivity|]].
  - unfold Api.getAllFeeds. rewrite bind_run. reflexivity.
  - unfold Api.mockFeeds. repeat rewrite bind_run. simpl fst.
    split; [reflexivity|].
    repeat constructor; simpl; apply generateMockHistoricalData_length.
Qed.

(** The amended statement at a concrete failure. *)
Lemma network_failure_by_operation_witness :
  Api.getFeedById "ftso-btc-usd" (Threw (mkError "Network Error")) = Returned None
  /\ MoralisService.getTokenPrice (fun (_ : unit) _ => None)
       (fun _ => Threw (mkError "Network Error")) "Bitcoin"
     = Returned 62500.
Proof.
  destruct network_failure_by_operation as [_ [H2 [H3 _]]].
  split; [apply H2|]. rewrite H3. reflexivity.
Defined.

End NetworkFailureFacts.

(** ** C10: getMarketDataFeeds *)

Section MarketDataFeedsFacts.
Import JS Types MoralisService.

Lemma trendOf_closed (percentChange : Q) :
  In (trendOf percentChange) ["up"; "down"; "stable"].
Proof.
  unfold trendOf. destruct (Qgtb percentChange 5); [now left|].
  destruct (Qltb percentChange (- 5)); simpl; auto.
Qed.

Lemma createFallbackDataFeed_for (now : Z) (asset : string) (g : draws) (n : nat) :
  feed_for asset (fst (createFallbackDataFeed now asset g n))
  /\ current_value (fst (createFallbackDataFeed now asset g n)) = getBasePrice asset
  /\ List.length (historical (fst (createFallbackDataFeed now asset g n))) = 15%nat.
Proof.
  unfold createFallbackDataFeed. rewrite bind_run. unfold ret, feed_for. simpl.
  repeat split; apply trendOf_closed.
Qed.

Section AnyCalls.

Variable tokenPrice : string -> Rand (outcome Error Q).
Variable historicalPrices : string -> Rand (outcome Error (list PricePoint)).

Lemma tryAsset_for (now : Z) (asset : string) (g : draws) (n : nat) (feed : DataFeed) :
  fst (tryAsset tokenPrice historicalPrices now asset g n) = Returned feed ->
  feed_for asset feed.
Proof.
  unfold tryAsset. rewrite bind_run.
  destruct (fst (tokenPrice asset g n)) as [currentPrice|e]; [|discriminate].
  rewrite bind_run.
  destruct (fst (historicalPrices asset g _)) as [h|e]; [|discriminate].
  unfold ret. simpl. intros H. injection H as <-. unfold feed_for. simpl.
  repeat split. destruct (5 <? List.length h)%nat; [apply trendOf_closed|].
  simpl. auto.
Qed.

(** One pass of the loop body appends exactly one feed, the asset's own:
    the fetched one, or the fallback feed when the [try] block threw. *)
Lemma processAsset_appends (now : Z) (acc : list DataFeed) (asset : string)
  (g : draws) (n : nat) :
  exists feed,
    fst (processAsset tokenPrice historicalPrices now acc asset g n)
    = (acc ++ [feed])%list
    /\ feed_for asset feed
    /\ (forall e, fst (tryAsset tokenPrice historicalPrices now asset g n) = Threw e ->
          feed = fst (createFallbackDataFeed now asset g
                        (snd (tryAsset tokenPrice historicalPrices now asset g n)))).
Proof.
  unfold processAsset. rewrite bind_run.
  destruct (fst (tryAsset tokenPrice historicalPrices now asset g n)) as [feed|e] eqn:E.
  - exists feed. split; [reflexivity|]. split; [|discriminate].
    now apply (tryAsset_for now asset g n).
  - rewrite bind_run. eexists. split; [reflexivity|].
    split; [apply createFallbackDataFeed_for | reflexivity].
Qed.

Lemma forAssets_one_each (now : Z) (assets : list string) (acc : list DataFeed)
  (g : draws) (n : nat) :
  exists feeds,
    fst (forAssets tokenPrice historicalPrices now acc assets g n)
    = (acc ++ feeds)%list
    /\ Forall2 feed_for assets feeds.
Proof.
  revert acc n. induction assets as [|asset rest IH]; intros acc n; simpl.
  - exists []. split; [now rewrite app_nil_r | constructor].
  - rewrite bind_run.
    destruct (processAsset_appends now acc asset g n) as [feed [E [Hf _]]].
    rewrite E.
    destruct (IH (acc ++ [feed])%list
                 (snd (processAsset tokenPrice historicalPrices now acc asset g n)))
      as [feeds [E' Hfs]].
    exists (feed :: feeds). split.
    + rewrite E', <- app_assoc. reflexivity.
    + now constructor.
Qed.

Lemma getMarketDataFeeds_with_one_each (now : Z) (assets : list string)
  (g : draws) (n : nat) :
  exists feeds,
    fst (getMarketDataFeeds_with tokenPrice historicalPrices now assets g n)
    = Returned feeds
    /\ Forall2 feed_for assets feeds.
Proof.
  unfold getMarketDataFeeds_with. rewrite bind_run.
  destruct (forAssets_one_each now assets [] g n) as [feeds [E H]].
  exists feeds. rewrite E. now split.
Qed.

End AnyCalls.

(** C10. For every list of asset names (the non-empty ones among them),
    whatever the network answers, [getMarketDataFeeds] resolves with exactly
    one feed per requested asset, in the order of the request, each with
    trend "up", "down" or "stable"; this holds of the loop for any behaviour
    of the two awaited calls, and when they throw for an asset the feed
    pushed for it is the fallback feed. *)
Theorem getMarketDataFeeds_one_feed_per_asset :
  (forall (Json : Type) (usd_of : Json -> string -> option Q)
          (prices_of : Json -> option (list (Z * Q)))
          (now : Z) (net : Network Json) (assets : list string)
          (g : draws) (n : nat),
      exists feeds,
        fst (getMarketDataFeeds usd_of prices_of now net assets g n) = Returned feeds
        /\ List.length feeds = List.length assets
        /\ Forall2 feed_for assets feeds)
  /\ (forall (tokenPrice : string -> Rand (outcome Error Q))
             (historicalPrices : string -> Rand (outcome Error (list PricePoint)))
             (now : Z) (assets : list string) (g : draws) (n : nat),
         exists feeds,
           fst (getMarketDataFeeds_with tokenPrice historicalPrices now assets g n)
           = Returned feeds
           /\ List.length feeds = List.length assets
           /\ Forall2 feed_for assets feeds)
  /\ (forall (tokenPrice : string -> Rand (outcome Error Q))
             (historicalPrices : string -> Rand (outcome Error (list PricePoint)))
             (now : Z) (acc : list DataFeed) (asset : string) (g : draws) (n : nat)
             (e : Error),
         fst (tryAsset tokenPrice historicalPrices now asset g n) = Threw e ->
         fst (processAsset tokenPrice historicalPrices now acc asset g n)
         = (acc ++ [fst (createFallbackDataFeed now asset g
                           (snd (tryAsset tokenPrice historicalPrices now asset g n)))])%list).
Proof.
  split; [|split].
  - intros Json usd_of prices_of now net assets g n. unfold getMarketDataFeeds.
    destruct (getMarketDataFeeds_with_one_each
                (fun asset => ret (getTokenPrice usd_of net asset))
                (fun asset => getHistoricalPrices prices_of now net asset 14)
                now assets g n) as [feeds [E H]].
    exists feeds. split; [exact E|]. split; [|exact H].
    symmetry. now apply Forall2_length in H.
  - intros tokenPrice historicalPrices now assets g n.
    destruct (getMarketDataFeeds_with_one_each tokenPrice historicalPrices
                now assets g n) as [feeds [E H]].
    exists feeds. split; [exact E|]. split; [|exact H].
    symmetry. now apply Forall2_length in H.
  - intros tokenPrice historicalPrices now acc asset g n e He.
    destruct (processAsset_appends tokenPrice historicalPrices now acc asset g n)
      as [feed [E [_ Hfb]]].
    rewrite E. now rewrite (Hfb e He).
Qed.

(** The statement at a request for three assets on a network where every
    [fetch] fails, and at a loop whose price call throws. *)
Lemma getMarketDataFeeds_one_feed_per_asset_witness :
  (exists feeds,
      fst (getMarketDataFeeds (fun (_ : unit) _ => None) (fun _ => None) 0
             (fun _ => Threw (mkError "Failed to fetch"))
             ["Bitcoin"; "Ethereum"; "Solana"] (fun _ => 1 # 2) 0%nat)
      = Returned feeds
      /\ map feed_id feeds = ["bitcoin"; "ethereum"; "solana"])
  /\ map feed_id
       (fst (processAsset (fun _ => ret (Threw (mkError "boom")))
               (fun _ => ret (Returned [])) 0 [] "Dogecoin" (fun _ => 1 # 2) 0%nat))
     = ["dogecoin"].
Proof.
  destruct getMarketDataFeeds_one_feed_per_asset as [H1 [_ H3]]. split.
  - destruct (H1 unit (fun _ _ => None) (fun _ => None) 0%Z
                (fun _ => Threw (mkError "Failed to fetch"))
                ["Bitcoin"; "Ethereum"; "Solana"] (fun _ => 1 # 2) 0%nat)
      as [feeds [E [_ H]]].
    exists feeds. split; [exact E|].
    inversion H as [|a1 f1 l1 fs1 [I1 _] H']; subst.
    inversion H' as [|a2 f2 l2 fs2 [I2 _] H'']; subst.
    inversion H'' as [|a3 f3 l3 fs3 [I3 _] H''']; subst.
    inversion H'''; subst. simpl. now rewrite I1, I2, I3.
  - rewrite (H3 (fun _ => ret (Threw (mkError "boom"))) (fun _ => ret (Returned []))
               0%Z [] "Dogecoin" (fun _ => 1 # 2) 0%nat (mkError "boom") eq_refl).
    reflexivity.
Defined.

End MarketDataFeedsFacts.

(** ** C3 to C6: the technical indicators *)

Section IndicatorFacts.
Import JS Types MarketAnalytics.
Local Open Scope Q_scope.

(** *** Arithmetic helpers *)

Lemma num_or_Qeq (x : Q) : num_or x 0 == x.
Proof.
  unfold num_or. destruct (Qeq_bool x 0) eqn:E; [|reflexivity].
  apply Qeq_bool_eq in E. now rewrite E.
Qed.

Lemma num_or_nonneg (x d : Q) : 0 <= x -> 0 <= d -> 0 <= num_or x d.
Proof. intros Hx Hd. unfold num_or. now destruct (Qeq_bool x 0). Qed.

Lemma num_or_pos (x d : Q) : 0 <= x -> 0 < d -> 0 < num_or x d.
Proof.
  intros Hx Hd. unfold num_or. destruct (Qeq_bool x 0) eqn:E; [assumption|].
  apply Qeq_bool_neq in E. apply Qle_lteq in Hx as [H | H]; [assumption|].
  exfalso. apply E. now symmetry.
Qed.

Lemma div_some (a b : Q) : ~ b == 0 -> div a b = Some (a / b).
Proof.
  intros H. unfold div. destruct (Qeq_bool b 0) eqn:E; [|reflexivity].
  apply Qeq_bool_eq in E. contradiction.
Qed.

Lemma of_nat_pos (n : nat) : (0 < n)%nat -> 0 < of_nat n.
Proof.
  intros H. unfold of_nat. change 0 with (inject_Z 0). rewrite <- Zlt_Qlt. lia.
Qed.

Lemma of_nat_nonzero (n : nat) : (0 < n)%nat -> ~ of_nat n == 0.
Proof.
  intros H E. apply of_nat_pos in H. rewrite E in H. discriminate H.
Qed.

Lemma Qgtb_lt (x y : Q) : Qgtb x y = true <-> y < x.
Proof.
  unfold Qgtb. rewrite negb_true_iff, <- not_true_iff_false, Qle_bool_iff.
  split; [apply Qnot_le_lt | apply Qlt_not_le].
Qed.

Lemma Qltb_lt (x y : Q) : Qltb x y = true <-> x < y.
Proof. unfold Qltb. apply Qgtb_lt. Qed.

Lemma Qgtb_le (x y : Q) : Qgtb x y = false <-> x <= y.
Proof.
  unfold Qgtb. rewrite negb_false_iff. apply Qle_bool_iff.
Qed.

(** A running sum of non-negative terms does not fall below its start. *)
Lemma fold_left_grows {A : Type} (op : Q -> A -> Q) (l : list A) (acc : Q) :
  (forall s x, In x l -> s <= op s x) -> acc <= fold_left op l acc.
Proof.
  revert acc. induction l as [|x l IH]; intros acc H; simpl; [apply Qle_refl|].
  apply Qle_trans with (op acc x).
  - apply H. now left.
  - apply IH. intros s y Hy. apply H. now right.
Qed.

Lemma gains_nonneg (changes : list Q) :
  0 <= sum (filter (fun change => Qgtb change 0) changes).
Proof.
  apply fold_left_grows. intros s x Hx. apply filter_In in Hx as [_ Hx].
  apply Qgtb_lt in Hx. lra.
Qed.

Lemma losses_nonneg (changes : list Q) : 0 <= sum_abs changes.
Proof.
  apply fold_left_grows. intros s x _. pose proof (Qabs_nonneg x). lra.
Qed.

Lemma Math_round_bounds (r : Q) :
  0 <= r -> r < 100 -> (0 <= Math_round r <= 100)%Z.
Proof.
  intros H0 H100. unfold Math_round. split.
  - change 0%Z with (Qfloor 0). apply Qfloor_resp_le. lra.
  - change 100%Z with (Qfloor (100 + (1 # 2))). apply Qfloor_resp_le. lra.
Qed.

(** *** The windows *)

Lemma slice_last_is_last_up_to {A : Type} (k : nat) (l : list A) :
  (0 < k)%nat -> slice_last k l = last_up_to k l.
Proof.
  intros H. unfold slice_last, last_up_to.
  destruct k; [lia | reflexivity].
Qed.

Lemma last_up_to_length {A : Type} (k : nat) (l : list A) :
  List.length (last_up_to k l) = Nat.min k (List.length l).
Proof. unfold last_up_to. rewrite length_skipn. lia. Qed.

(** *** The RSI *)

Lemma averages_guarded (h : list PricePoint) :
  (0 < List.length h)%nat ->
  exists avgGain avgLoss,
    averages h = Some (avgGain, avgLoss) /\ 0 <= avgGain /\ 0 < avgLoss.
Proof.
  intros Hlen. unfold averages.
  set (gains := sum (filter (fun change => Qgtb change 0) (priceChanges h))).
  set (losses := sum_abs (filter (fun change => Qltb change 0) (priceChanges h))).
  assert (Hg : 0 <= gains) by apply gains_nonneg.
  assert (Hl : 0 <= losses) by apply losses_nonneg.
  pose proof (of_nat_pos _ Hlen) as Hn.
  pose proof (of_nat_nonzero _ Hlen) as Hn0.
  rewrite (div_some gains _ Hn0). simpl obind.
  rewrite (div_some losses _ Hn0). simpl obind.
  do 2 eexists. split; [reflexivity|]. split.
  - apply num_or_nonneg; [|lra]. apply Qle_shift_div_l; [assumption | lra].
  - apply num_or_pos; [|lra]. apply Qle_shift_div_l; [assumption | lra].
Qed.

Lemma rsiOf_bounds (h : list PricePoint) :
  (0 < List.length h)%nat ->
  exists r, rsiOf h = Some r /\ 0 <= r /\ r < 100.
Proof.
  intros Hlen. unfold rsiOf.
  destruct (averages_guarded h Hlen) as [avgGain [avgLoss [E [HavgGain HavgLoss]]]].
  rewrite E. simpl obind.
  assert (HavgLoss0 : ~ avgLoss == 0) by lra.
  rewrite (div_some avgGain avgLoss HavgLoss0). simpl obind.
  assert (Hrs : 0 <= avgGain / avgLoss).
  { apply Qle_shift_div_l; [assumption | lra]. }
  assert (Hden : ~ 1 + avgGain / avgLoss == 0) by lra.
  rewrite (div_some 100 _ Hden). simpl obind.
  eexists. split; [reflexivity|].
  assert (Hq1 : 0 < 100 / (1 + avgGain / avgLoss)).
  { apply Qlt_shift_div_l; lra. }
  assert (Hq2 : 100 / (1 + avgGain / avgLoss) <= 100).
  { apply Qle_shift_div_r; lra. }
  split; lra.
Qed.

Lemma movingAverage_some (k : nat) (h : list PricePoint) :
  (0 < k)%nat -> (0 < List.length h)%nat ->
  movingAverage k h
  = Some (sum_values (last_up_to k h) / of_nat (Nat.min k (List.length h))).
Proof.
  intros Hk Hlen. unfold movingAverage.
  assert (Hm : (0 < Nat.min k (List.length h))%nat) by lia.
  rewrite (slice_last_is_last_up_to _ h Hm).
  rewrite div_some by now apply of_nat_nonzero.
  f_equal. f_equal. f_equal. unfold last_up_to. f_equal. lia.
Qed.

Lemma macdOf_some (h : list PricePoint) :
  macdOf h
  = let shortMA := sum_values (last_up_to 12 h) / 12 in
    let longMA := sum_values (last_up_to 26 h) / 26 in
    Some (shortMA, longMA,
          if Qgtb shortMA longMA then "bullish"
          else if Qltb shortMA longMA then "bearish"
          else "neutral").
Proof. reflexivity. Qed.

(** *** Mean and population standard deviation *)

Lemma sum_compat_from (l l' : list Q) (a a' : Q) :
  Forall2 Qeq l l' -> a == a' -> fold_left Qplus l a == fold_left Qplus l' a'.
Proof.
  intros H. revert a a'. induction H as [|x y l l' Hxy _ IH]; intros a a' Ha; simpl.
  - assumption.
  - apply IH. now rewrite Ha, Hxy.
Qed.

Lemma sum_compat (l l' : list Q) : Forall2 Qeq l l' -> sum l == sum l'.
Proof. intros H. apply sum_compat_from; [assumption | reflexivity]. Qed.

Lemma mean_compat (l l' : list Q) : Forall2 Qeq l l' -> mean l == mean l'.
Proof.
  intros H. unfold mean. rewrite (sum_compat l l' H).
  now rewrite (Forall2_length H).
Qed.

Lemma values_or_zero (points : list PricePoint) :
  Forall2 Qeq (map (fun d => num_or (value d) 0) points) (map value points).
Proof.
  induction points as [|p l IH]; simpl; constructor; [apply num_or_Qeq | assumption].
Qed.

Lemma squares_compat (l l' : list Q) (m m' : Q) :
  Forall2 Qeq l l' -> m == m' ->
  Forall2 Qeq (map (fun x => (x - m) ^ 2) l) (map (fun x => (x - m') ^ 2) l').
Proof.
  intros H Hm. induction H as [|x y l l' Hxy _ IH]; simpl; constructor.
  - now rewrite Hxy, Hm.
  - assumption.
Qed.

Lemma sum_values_from (points : list PricePoint) (acc acc' : Q) :
  acc == acc' ->
  fold_left (fun sum data => sum + num_or (value data) 0) points acc
  == fold_left Qplus (map value points) acc'.
Proof.
  revert acc acc'. induction points as [|p l IH]; intros acc acc' H; simpl.
  - assumption.
  - apply IH. now rewrite H, num_or_Qeq.
Qed.

Lemma sum_values_is_sum (points : list PricePoint) :
  sum_values points == sum (map value points).
Proof. apply sum_values_from. reflexivity. Qed.

Lemma Qsquare_nonneg (z : Q) : 0 <= z ^ 2.
Proof. nra. Qed.

Lemma population_variance_nonneg (xs : list Q) :
  (0 < List.length xs)%nat -> 0 <= population_variance xs.
Proof.
  intros H. unfold population_variance, mean at 1. rewrite length_map.
  apply Qle_shift_div_l; [now apply of_nat_pos|].
  rewrite Qmult_0_l. apply fold_left_grows. intros s x Hx.
  apply in_map_iff in Hx as [y [<- _]].
  pose proof (Qsquare_nonneg (y - mean xs)).
  lra.
Qed.

Section WithSqrt.

Variable sqrt : Q -> Q.
Hypothesis sqrt_nonneg : forall x, 0 <= sqrt x.
Hypothesis sqrt_compat : forall x y, x == y -> sqrt x == sqrt y.

Lemma bollinger_spec (h : list PricePoint) :
  (0 < List.length h)%nat ->
  exists sma20 upper lower,
    bollinger sqrt h = Some (sma20, upper, lower)
    /\ sma20 == mean (map value (last_up_to 20 h))
    /\ upper == sma20 + 2 * population_stddev sqrt (map value (last_up_to 20 h))
    /\ lower == sma20 - 2 * population_stddev sqrt (map value (last_up_to 20 h)).
Proof.
  intros Hlen. unfold bollinger.
  rewrite (slice_last_is_last_up_to 20 h) by lia.
  set (window := last_up_to 20 h).
  set (prices := map (fun d => num_or (value d) 0) window).
  assert (Hw : (0 < List.length window)%nat).
  { unfold window. rewrite last_up_to_length. lia. }
  assert (Hp : List.length prices = List.length window) by apply length_map.
  rewrite div_some by (apply of_nat_nonzero; lia). simpl obind.
  rewrite div_some by (apply of_nat_nonzero; rewrite length_map; lia). simpl obind.
  do 3 eexists. split; [reflexivity|].
  pose proof (values_or_zero window) as Hv. fold prices in Hv.
  assert (Hmean : sum prices / of_nat (List.length prices) == mean (map value window)).
  { apply (mean_compat prices (map value window) Hv). }
  split; [exact Hmean|].
  assert (Hsd : sqrt (sum (map (fun price => (price - sum prices / of_nat (List.length prices)) ^ 2) prices)
                      / of_nat (List.length (map (fun price => (price - sum prices / of_nat (List.length prices)) ^ 2) prices)))
                == population_stddev sqrt (map value window)).
  { apply sqrt_compat. unfold population_variance.
    apply (mean_compat _ _ (squares_compat _ _ _ _ Hv Hmean)). }
  rewrite Hsd. split; ring.
Qed.

End WithSqrt.

Lemma floor_sqrt_nonneg (x : Q) : 0 <= floor_sqrt x.
Proof.
  unfold floor_sqrt. change 0 with (inject_Z 0). rewrite <- Zle_Qle.
  apply Z.sqrt_nonneg.
Qed.

Lemma floor_sqrt_compat (x y : Q) : x == y -> floor_sqrt x == floor_sqrt y.
Proof. intros H. unfold floor_sqrt. now rewrite (Qfloor_comp x y H). Qed.

(** *** The whole function *)

(** With one point or more past the threshold every division has a
    non-zero divisor and the function hands over computed indicators. *)
Lemma calculate_computed (sqrt : Q -> Q) (feed : DataFeed) (g : draws) (n : nat) :
  (5 <= List.length (historical feed))%nat ->
  exists r m50 m200 sma20 upper lower shortMA longMA label,
    rsiOf (historical feed) = Some r
    /\ movingAverage 50 (historical feed) = Some m50
    /\ movingAverage 200 (historical feed) = Some m200
    /\ bollinger sqrt (historical feed) = Some (sma20, upper, lower)
    /\ macdOf (historical feed) = Some (shortMA, longMA, label)
    /\ calculateTechnicalIndicatorsFromHistorical sqrt feed g n
       = (Some (mkIndicators (inject_Z (Math_round r)) label m50 m200 upper lower
                  (toFixed 2 (g n * 20 - 10))),
          S n).
Proof.
  intros Hlen. set (h := historical feed) in *.
  assert (Hpos : (0 < List.length h)%nat) by lia.
  destruct (rsiOf_bounds h Hpos) as [r [Hr _]].
  pose proof (movingAverage_some 50 h ltac:(lia) Hpos) as H50.
  pose proof (movingAverage_some 200 h ltac:(lia) Hpos) as H200.
  assert (Hb : exists sma20 upper lower, bollinger sqrt h = Some (sma20, upper, lower)).
  { unfold bollinger. rewrite (slice_last_is_last_up_to 20 h) by lia.
    assert (Hw : (0 < List.length (last_up_to 20 h))%nat)
      by (rewrite last_up_to_length; lia).
    rewrite div_some by (apply of_nat_nonzero; rewrite length_map; lia). simpl obind.
    rewrite div_some by (apply of_nat_nonzero; rewrite !length_map; lia). simpl obind.
    now do 3 eexists. }
  destruct Hb as [sma20 [upper [lower Hb]]].
  pose proof (macdOf_some h) as Hm. cbv zeta in Hm.
  do 9 eexists. repeat split; try eassumption.
  unfold calculateTechnicalIndicatorsFromHistorical. fold h.
  assert (Hlt : (List.length h <? 5)%nat = false) by (apply Nat.ltb_ge; lia).
  rewrite Hlt, Hr, H50, H200, Hb, Hm. reflexivity.
Qed.

(** C3. A feed whose series has fewer than 5 points gets the fixed neutral
    defaults: RSI 50, MACD "neutral", both moving averages at the current
    value, the bands at the current value times 1.05 and 0.95 (and "0%"
    volume change); no random number is drawn and the result is the same
    for every such series and every square-root function, so nothing is
    computed from the series. *)
Theorem short_history_gives_defaults
  (sqrt : Q -> Q) (feed : DataFeed) (g : draws) (n : nat) :
  (List.length (historical feed) < 5)%nat ->
  calculateTechnicalIndicatorsFromHistorical sqrt feed g n
  = (Some (mkIndicators 50 "neutral" (current_value feed) (current_value feed)
             (current_value feed * (105 # 100)) (current_value feed * (95 # 100)) 0),
     n)
  /\ forall (sqrt' : Q -> Q) (feed' : DataFeed),
       (List.length (historical feed') < 5)%nat ->
       current_value feed' = current_value feed ->
       calculateTechnicalIndicatorsFromHistorical sqrt' feed' g n
       = calculateTechnicalIndicatorsFromHistorical sqrt feed g n.
Proof.
  intros Hlen.
  assert (Hshort : forall s f, (List.length (historical f) < 5)%nat ->
            calculateTechnicalIndicatorsFromHistorical s f g n
            = (Some (defaults (current_value f)), n)).
  { intros s f Hf. unfold calculateTechnicalIndicatorsFromHistorical.
    apply Nat.ltb_lt in Hf. now rewrite Hf. }
  split.
  - now rewrite Hshort.
  - intros sqrt' feed' Hlen' Hcv. now rewrite !Hshort, Hcv.
Qed.

Lemma short_history_gives_defaults_witness :
  calculateTechnicalIndicatorsFromHistorical floor_sqrt
    (mkDataFeed "bitcoin" "Bitcoin" 62500 0 "stable"
       [mkPricePoint 0 61000; mkPricePoint 1 64000; mkPricePoint 2 62500])
    (fun _ => 1 # 2) 0%nat
  = (Some (mkIndicators 50 "neutral" 62500 62500
             (62500 * (105 # 100)) (62500 * (95 # 100)) 0),
     0%nat).
Proof.
  destruct (short_history_gives_defaults floor_sqrt
              (mkDataFeed "bitcoin" "Bitcoin" 62500 0 "stable"
                 [mkPricePoint 0 61000; mkPricePoint 1 64000; mkPricePoint 2 62500])
              (fun _ => 1 # 2) 0%nat) as [H _].
  - simpl. lia.
  - exact H.
Defined.

(** In exact arithmetic, for a series of at least 5 points every division
    of the function has a non-zero divisor (the result is [Some]); in
    particular the average loss, replaced by 0.01 when it is 0, is positive
    where the average gain is divided by it; and the RSI handed over lies
    within 0 to 100. *)
Theorem rsi_within_0_100
  (sqrt : Q -> Q) (feed : DataFeed) (g : draws) (n : nat) :
  (5 <= List.length (historical feed))%nat ->
  exists ind avgGain avgLoss,
    calculateTechnicalIndicatorsFromHistorical sqrt feed g n = (Some ind, S n)
    /\ averages (historical feed) = Some (avgGain, avgLoss)
    /\ 0 < avgLoss
    /\ 0 <= rsi ind /\ rsi ind <= 100.
Proof.
  intros Hlen.
  destruct (calculate_computed sqrt feed g n Hlen)
    as [r [m50 [m200 [sma20 [upper [lower [shortMA [longMA [label H]]]]]]]]].
  destruct H as [Hr [_ [_ [_ [_ Hcalc]]]]].
  destruct (averages_guarded (historical feed) ltac:(lia))
    as [avgGain [avgLoss [Ha [_ Hpos]]]].
  destruct (rsiOf_bounds (historical feed) ltac:(lia)) as [r' [Hr' [H0 H100]]].
  rewrite Hr in Hr'. injection Hr' as <-.
  exists (mkIndicators (inject_Z (Math_round r)) label m50 m200 upper lower
            (toFixed 2 (g n * 20 - 10))), avgGain, avgLoss.
  split; [exact Hcalc|]. split; [exact Ha|]. split; [exact Hpos|]. simpl rsi.
  destruct (Math_round_bounds r H0 H100) as [Hlo Hhi].
  split.
  - change 0 with (inject_Z 0). now rewrite <- Zle_Qle.
  - change 100 with (inject_Z 100). now rewrite <- Zle_Qle.
Qed.

Lemma rsi_within_0_100_witness :
  exists ind avgGain avgLoss,
    calculateTechnicalIndicatorsFromHistorical floor_sqrt
      (mkDataFeed "bitcoin" "Bitcoin" 18 0 "up"
         (map (mkPricePoint 0) [10; 12; 11; 15; 14; 18]))
      (fun _ => 1 # 2) 0%nat
    = (Some ind, 1%nat)
    /\ averages (map (mkPricePoint 0) [10; 12; 11; 15; 14; 18])
       = Some (avgGain, avgLoss)
    /\ 0 < avgLoss
    /\ 0 <= rsi ind /\ rsi ind <= 100.
Proof.
  apply (rsi_within_0_100 floor_sqrt
           (mkDataFeed "bitcoin" "Bitcoin" 18 0 "up"
              (map (mkPricePoint 0) [10; 12; 11; 15; 14; 18]))
           (fun _ => 1 # 2) 0%nat).
  simpl. lia.
Defined.

(** In exact arithmetic, for a series of at least 5 points and a square
    root that is non-negative, the bands handed over are the mean of the
    last (up to) 20 prices plus and minus two population standard
    deviations of those prices, the variance under the root is
    non-negative, and bollingerLower <= mean <= bollingerUpper. *)
Theorem bollinger_bands_around_mean
  (sqrt : Q -> Q)
  (sqrt_nonneg : forall x, 0 <= sqrt x)
  (sqrt_compat : forall x y, x == y -> sqrt x == sqrt y)
  (feed : DataFeed) (g : draws) (n : nat) :
  (5 <= List.length (historical feed))%nat ->
  exists ind,
    calculateTechnicalIndicatorsFromHistorical sqrt feed g n = (Some ind, S n)
    /\ let prices := map value (last_up_to 20 (historical feed)) in
       List.length prices = Nat.min 20 (List.length (historical feed))
       /\ 0 <= population_variance prices
       /\ bollingerUpper ind == mean prices + 2 * population_stddev sqrt prices
       /\ bollingerLower ind == mean prices - 2 * population_stddev sqrt prices
       /\ bollingerLower ind <= mean prices
       /\ mean prices <= bollingerUpper ind.
Proof.
  intros Hlen.
  destruct (calculate_computed sqrt feed g n Hlen)
    as [r [m50 [m200 [sma20 [upper [lower [shortMA [longMA [label H]]]]]]]]].
  destruct H as [_ [_ [_ [Hb [_ Hcalc]]]]].
  destruct (bollinger_spec sqrt sqrt_compat (historical feed) ltac:(lia))
    as [sma20' [upper' [lower' [Hb' [Hmean [Hup Hlo]]]]]].
  rewrite Hb in Hb'. injection Hb' as <- <- <-.
  eexists. split; [exact Hcalc|]. cbv zeta. simpl bollingerUpper. simpl bollingerLower.
  set (prices := map value (last_up_to 20 (historical feed))) in *.
  assert (Hplen : List.length prices = Nat.min 20 (List.length (historical feed))).
  { unfold prices. now rewrite length_map, last_up_to_length. }
  pose proof (sqrt_nonneg (population_variance prices)) as Hsd.
  fold (population_stddev sqrt prices) in Hsd.
  split; [exact Hplen|].
  split; [apply population_variance_nonneg; lia|].
  rewrite Hup, Hlo, Hmean. repeat split; lra.
Qed.

Lemma bollinger_bands_around_mean_witness :
  exists ind,
    calculateTechnicalIndicatorsFromHistorical floor_sqrt
      (mkDataFeed "bitcoin" "Bitcoin" 18 0 "up"
         (map (mkPricePoint 0) [10; 12; 11; 15; 14; 18]))
      (fun _ => 1 # 2) 0%nat
    = (Some ind, 1%nat)
    /\ bollingerLower ind
       <= mean (map value (last_up_to 20 (map (mkPricePoint 0) [10; 12; 11; 15; 14; 18])))
    /\ mean (map value (last_up_to 20 (map (mkPricePoint 0) [10; 12; 11; 15; 14; 18])))
       <= bollingerUpper ind.
Proof.
  destruct (bollinger_bands_around_mean floor_sqrt floor_sqrt_nonneg floor_sqrt_compat
              (mkDataFeed "bitcoin" "Bitcoin" 18 0 "up"
                 (map (mkPricePoint 0) [10; 12; 11; 15; 14; 18]))
              (fun _ => 1 # 2) 0%nat)
    as [ind [Hcalc [_ [_ [_ [_ [Hlo Hhi]]]]]]].
  - simpl. lia.
  - exists ind. split; [exact Hcalc|]. split; [exact Hlo | exact Hhi].
Defined.

(** *** The MACD label *)

Lemma macd_label_closed (h : list PricePoint) (shortMA longMA : Q) (label : string) :
  macdOf h = Some (shortMA, longMA, label) ->
  In label ["bullish"; "bearish"; "neutral"].
Proof.
  rewrite macdOf_some. cbv zeta. intros H. injection H as _ _ <-.
  destruct (Qgtb _ _); [now left|].
  destruct (Qltb _ _); simpl; auto.
Qed.

(** With 26 points or more both windows are full, the fixed divisors 12 and
    26 are the window lengths, and the label compares the two simple moving
    averages. *)
Lemma macd_full_windows (h : list PricePoint) (shortMA longMA : Q) (label : string) :
  (26 <= List.length h)%nat ->
  macdOf h = Some (shortMA, longMA, label) ->
  shortMA == sma 12 h /\ longMA == sma 26 h
  /\ (label = "bullish" <-> sma 26 h < sma 12 h)
  /\ (label = "bearish" <-> sma 12 h < sma 26 h)
  /\ (label = "neutral" <-> sma 12 h == sma 26 h).
Proof.
  intros Hlen. rewrite macdOf_some. cbv zeta. intros H. injection H as <- <- <-.
  assert (Hs : sum_values (last_up_to 12 h) / 12 == sma 12 h).
  { unfold sma, mean. rewrite length_map, last_up_to_length, sum_values_is_sum.
    replace (Nat.min 12 (List.length h)) with 12%nat by lia. reflexivity. }
  assert (Hl : sum_values (last_up_to 26 h) / 26 == sma 26 h).
  { unfold sma, mean. rewrite length_map, last_up_to_length, sum_values_is_sum.
    replace (Nat.min 26 (List.length h)) with 26%nat by lia. reflexivity. }
  split; [exact Hs|]. split; [exact Hl|].
  rewrite <- Hs, <- Hl.
  set (a := sum_values (last_up_to 12 h) / 12).
  set (b := sum_values (last_up_to 26 h) / 26).
  destruct (Qgtb a b) eqn:E1.
  - apply Qgtb_lt in E1. repeat split; intros; try discriminate; try reflexivity;
      try assumption; exfalso; lra.
  - apply Qgtb_le in E1. destruct (Qltb a b) eqn:E2.
    + apply Qltb_lt in E2. repeat split; intros; try discriminate; try reflexivity;
        try assumption; exfalso; lra.
    + unfold Qltb in E2. apply Qgtb_le in E2.
      repeat split; intros; try discriminate; try reflexivity; try lra; exfalso; lra.
Qed.

(** C6 fails on series of 5 to 25 points.  On [falling15] the average of
    the last 12 points is 65 and the average of all the points the
    26-window holds is 80, so the short average is the smaller one, yet
    the label handed over is "bullish": the sum of the 15 points is divided
    by 26. *)
Theorem macd_short_series_mislabelled :
  (5 <= List.length falling15)%nat
  /\ (exists ind,
        calculateTechnicalIndicatorsFromHistorical floor_sqrt
          (mkDataFeed "bitcoin" "Bitcoin" 10 0 "down" falling15)
          (fun _ => 1 # 2) 0%nat
        = (Some ind, 1%nat)
        /\ macd ind = "bullish")
  /\ (exists shortMA longMA,
        macdOf falling15 = Some (shortMA, longMA, "bullish")
        /\ shortMA == 65 /\ longMA == 1200 / 26)
  /\ sma 12 falling15 == 65
  /\ sma 26 falling15 == 80
  /\ sma 12 falling15 < sma 26 falling15.
Proof.
  split; [simpl; lia|]. split; [|split; [|split; [|split]]].
  - eexists. split; [vm_compute; reflexivity | reflexivity].
  - do 2 eexists. split; [vm_compute; reflexivity|]. split; reflexivity.
  - reflexivity.
  - reflexivity.
  - reflexivity.
Qed.

End IndicatorFacts.

(** ** C4, C5: the RSI and the Bollinger bands on doubles *)

Section DoubleFacts.
Import JS MarketAnalytics Doubles.
Local Open Scope Q_scope.

(** *** The order, the doubles and the rounding *)

Lemma le_compat_l (a a' : Q) (y : number) :
  a == a' -> le (Finite a) y -> le (Finite a') y.
Proof. intros E. destruct y; simpl; try tauto. intros H. now rewrite <- E. Qed.

Lemma le_compat_r (x : number) (b b' : Q) :
  b == b' -> le x (Finite b) -> le x (Finite b').
Proof. intros E. destruct x; simpl; try tauto. intros H. now rewrite <- E. Qed.

Lemma le_zero_cases (x : number) :
  le zero x <-> x = PlusInfinity \/ exists q, x = Finite q /\ 0 <= q.
Proof.
  destruct x as [q| | |]; simpl; split; intros H.
  - right. now exists q.
  - destruct H as [H | [q' [E Hq]]]; [discriminate|]. now injection E as ->.
  - now left.
  - exact I.
  - destruct H.
  - destruct H as [H | [q' [E _]]]; discriminate.
  - destruct H.
  - destruct H as [H | [q' [E _]]]; discriminate.
Qed.

Lemma representable_Z (z : Z) : (Z.abs z < 2 ^ 53)%Z -> representable (inject_Z z).
Proof. intros H. exists z, 0%Z. split; [exact H|]. split; [lia|]. simpl. ring. Qed.

Lemma representable_0 : representable 0.
Proof. apply (representable_Z 0). reflexivity. Qed.

Lemma representable_1 : representable 1.
Proof. apply (representable_Z 1). reflexivity. Qed.

Lemma representable_100 : representable 100.
Proof. apply (representable_Z 100). reflexivity. Qed.

Lemma representable_128th : representable (1 # 128).
Proof. exists 1%Z, (- 7)%Z. split; [reflexivity|]. split; [lia | reflexivity]. Qed.

Section WithRounding.

Variable round : Q -> number.
Hypothesis HR : Rounding round.


Lemma round_above (c q : Q) :
  representable c -> c <= q -> le (Finite c) (round q).
Proof.
  intros Hc Hq. destruct (round_exact round HR c Hc) as [c' [E Ec]].
  pose proof (round_monotone round HR c q Hq) as H. rewrite E in H.
  now apply (le_compat_l c' c).
Qed.

Lemma round_below (c q : Q) :
  representable c -> q <= c -> le (round q) (Finite c).
Proof.
  intros Hc Hq. destruct (round_exact round HR c Hc) as [c' [E Ec]].
  pose proof (round_monotone round HR q c Hq) as H. rewrite E in H.
  now apply (le_compat_r _ c' c).
Qed.

Lemma round_nonneg (q : Q) : 0 <= q -> le zero (round q).
Proof. intros H. now apply round_above; [apply representable_0|]. Qed.

(** A result between two doubles is finite. *)
Lemma round_between (a b q : Q) :
  representable a -> representable b -> a <= q -> q <= b ->
  exists r, round q = Finite r /\ a <= r /\ r <= b.
Proof.
  intros Ha Hb H1 H2.
  pose proof (round_above a q Ha H1) as Hlo.
  pose proof (round_below b q Hb H2) as Hhi.
  destruct (round q) as [r| | |]; simpl in Hlo, Hhi; try tauto.
  now exists r.
Qed.

(** *** The RSI *)

Lemma amount_zero : amount round zero.
Proof.
  split; [simpl; apply Qle_refl|]. intros q E. injection E as <-.
  apply (round_exact round HR). apply representable_0.
Qed.

Lemma amount_round (q : Q) : 0 <= q -> amount round (round q).
Proof.
  intros H. split; [now apply round_nonneg|].
  intros r E. now apply (round_fixed round HR q).
Qed.

Lemma amount_plus (x y : number) :
  amount round x -> le zero y -> amount round (plus round x y).
Proof.
  intros [Hx _] Hy.
  apply le_zero_cases in Hx as [-> | [a [-> Ha]]];
    apply le_zero_cases in Hy as [-> | [b [-> Hb]]]; simpl.
  - split; [exact I | discriminate].
  - split; [exact I | discriminate].
  - split; [exact I | discriminate].
  - apply amount_round. lra.
Qed.

Lemma amount_fold {A : Type} (f : A -> number) (l : list A) (acc : number) :
  amount round acc -> Forall (fun c => le zero (f c)) l ->
  amount round (fold_left (fun sum c => plus round sum (f c)) l acc).
Proof.
  revert acc. induction l as [|c l IH]; intros acc Hacc Hl; simpl; [exact Hacc|].
  inversion Hl as [|c' l' Hc Hl']; subst. apply IH; [|exact Hl'].
  now apply amount_plus.
Qed.

Lemma is_positive_nonneg (x : number) : is_positive x = true -> le zero x.
Proof.
  destruct x as [a| | |]; simpl; try discriminate; [|tauto].
  intros H. apply Qgtb_lt in H. now apply Qlt_le_weak.
Qed.

Lemma is_negative_abs (x : number) : is_negative x = true -> le zero (Math_abs x).
Proof.
  destruct x as [a| | |]; simpl; try discriminate; [|tauto].
  intros _. apply Qabs_nonneg.
Qed.

Lemma gains_amount (values : list number) : amount round (gainsOf round values).
Proof.
  unfold gainsOf, sum.
  apply (amount_fold (fun c => c)); [apply amount_zero|].
  apply Forall_forall. intros c Hc. apply filter_In in Hc as [_ Hc].
  now apply is_positive_nonneg.
Qed.

Lemma losses_amount (values : list number) : amount round (lossesOf round values).
Proof.
  unfold lossesOf.
  apply (amount_fold Math_abs); [apply amount_zero|].
  apply Forall_forall. intros c Hc. apply filter_In in Hc as [_ Hc].
  now apply is_negative_abs.
Qed.

(** The average of an amount over a count of at least 1. *)
Lemma average_amount (x : number) (n : nat) :
  (1 <= n)%nat -> amount round x ->
  exists y,
    divide round x (Finite (inject_Z (Z.of_nat n))) = Some y
    /\ le zero y
    /\ (y = PlusInfinity <-> x = PlusInfinity).
Proof.
  intros Hn [Hx Hfix]. set (c := inject_Z (Z.of_nat n)).
  assert (Hc : 1 <= c).
  { unfold c. change 1 with (inject_Z 1). rewrite <- Zle_Qle. lia. }
  assert (Hz : Qeq_bool c 0 = false).
  { destruct (Qeq_bool c 0) eqn:E; [|reflexivity].
    apply Qeq_bool_eq in E. lra. }
  apply le_zero_cases in Hx as [-> | [a [-> Ha]]].
  - exists PlusInfinity. unfold divide. cbn [is_zero]. rewrite Hz.
    cbn [is_negative]. assert (E : Qltb c 0 = false).
    { unfold Qltb. apply Qgtb_le. lra. }
    rewrite E. simpl. repeat split; auto.
  - unfold divide. cbn [is_zero]. rewrite Hz. eexists. split; [reflexivity|].
    assert (Hq : 0 <= a / c).
    { apply Qle_shift_div_l; [lra|]. lra. }
    split; [now apply round_nonneg|].
    destruct (Hfix a eq_refl) as [a' [Ea Ea']].
    assert (Hle : a / c <= a).
    { apply Qle_shift_div_r; [lra|]. nra. }
    pose proof (round_monotone round HR _ _ Hle) as Hm. rewrite Ea in Hm.
    split; intros E; [|discriminate E]. rewrite E in Hm. destruct Hm.
Qed.

Lemma literal_hundredth :
  exists c, round (1 # 100) = Finite c /\ 0 < c.
Proof.
  destruct (round_between (1 # 128) 1 (1 # 100)) as [c [E [H1 _]]].
  - apply representable_128th.
  - apply representable_1.
  - discriminate.
  - discriminate.
  - exists c. split; [exact E|]. apply Qlt_le_trans with (1 # 128); [reflexivity | exact H1].
Qed.

Lemma averages_guarded_numbers (values : list number) :
  (1 <= List.length values)%nat ->
  exists avgGain avgLoss,
    averages round values = Some (avgGain, avgLoss)
    /\ le zero avgGain
    /\ above_zero avgLoss
    /\ (avgGain = PlusInfinity <-> gainsOf round values = PlusInfinity)
    /\ (avgLoss = PlusInfinity <-> lossesOf round values = PlusInfinity).
Proof.
  intros Hn. unfold averages.
  destruct (average_amount _ _ Hn (gains_amount values)) as [g [Eg [Hg Hgi]]].
  destruct (average_amount _ _ Hn (losses_amount values)) as [l [El [Hl Hli]]].
  rewrite Eg, El. cbn [obind]. do 2 eexists. split; [reflexivity|].
  destruct literal_hundredth as [c [Ec Hc]].
  apply le_zero_cases in Hg as [-> | [a [-> Ha]]];
    apply le_zero_cases in Hl as [-> | [b [-> Hb]]]; cbn [or_else].
  - repeat split; try tauto. now left.
  - destruct (Qeq_bool b 0) eqn:Eb.
    + rewrite Ec. repeat split; try tauto; try discriminate.
      * right. now exists c.
      * intros E. apply Hli in E. discriminate E.
    + apply Qeq_bool_neq in Eb. repeat split; try tauto; try discriminate.
      right. exists b. split; [reflexivity|]. apply Qle_lteq in Hb as [H|H]; [exact H|].
      exfalso. apply Eb. now symmetry.
  - destruct (Qeq_bool a 0); repeat split; try tauto; try discriminate;
      try (now left); try (simpl; lra);
      try (intros E; apply Hgi in E; discriminate E).
  - destruct (Qeq_bool a 0) eqn:Ea; destruct (Qeq_bool b 0) eqn:Eb; rewrite ?Ec;
      repeat split; try tauto; try discriminate; try (simpl; lra);
      try (intros E; apply Hgi in E; discriminate E);
      try (intros E; apply Hli in E; discriminate E);
      try (right; now exists c).
    all: apply Qeq_bool_neq in Eb; right; exists b; split; [reflexivity|];
      apply Qle_lteq in Hb as [H|H]; [exact H|]; exfalso; apply Eb; now symmetry.
Qed.

Lemma Math_round_bounds_closed (r : Q) :
  0 <= r -> r <= 100 -> (0 <= JS.Math_round r <= 100)%Z.
Proof.
  intros H0 H100. unfold JS.Math_round. split.
  - change 0%Z with (Qfloor 0). apply Qfloor_resp_le. lra.
  - change 100%Z with (Qfloor (100 + (1 # 2))). apply Qfloor_resp_le. lra.
Qed.

Lemma rounded_within (r : Q) :
  0 <= r -> r <= 100 ->
  exists q, Math_round (Finite r) = Finite q /\ 0 <= q /\ q <= 100.
Proof.
  intros H0 H100. destruct (Math_round_bounds_closed r H0 H100) as [Hlo Hhi].
  eexists. split; [reflexivity|]. split.
  - change 0 with (inject_Z 0). now rewrite <- Zle_Qle.
  - change 100 with (inject_Z 100). now rewrite <- Zle_Qle.
Qed.

(** [Math.round(100 - (100 / (1 + rs)))] for a relative strength that is
    a number. *)
Lemma rsi_of_strength (rs : number) :
  le zero rs ->
  exists q,
    obind (divide round hundred (plus round one rs))
      (fun quotient => Some (Math_round (minus round hundred quotient)))
    = Some (Finite q)
    /\ 0 <= q /\ q <= 100.
Proof.
  intros Hrs.
  assert (Hinf : exists q,
    obind (divide round hundred PlusInfinity)
      (fun quotient => Some (Math_round (minus round hundred quotient)))
    = Some (Finite q) /\ 0 <= q /\ q <= 100).
  { cbn [divide is_zero obind minus negate plus hundred zero].
    destruct (round_between 0 100 (100 + - 0)) as [r [E [H0 H100]]];
      try apply representable_0; try apply representable_100; try lra.
    rewrite E. destruct (rounded_within r H0 H100) as [q [Eq Hq]].
    exists q. now rewrite Eq. }
  apply le_zero_cases in Hrs as [-> | [a [-> Ha]]]; [exact Hinf|].
  cbn [plus one].
  assert (H1 : le (Finite 1) (round (1 + a))).
  { apply round_above; [apply representable_1 | lra]. }
  destruct (round (1 + a)) as [d| | |] eqn:Ed; simpl in H1;
    [|exact Hinf|destruct H1|destruct H1].
  unfold divide. cbn [is_zero].
  assert (Hz : Qeq_bool d 0 = false).
  { destruct (Qeq_bool d 0) eqn:E; [|reflexivity]. apply Qeq_bool_eq in E. lra. }
  rewrite Hz. cbn [hundred obind].
  destruct (round_between 0 100 (100 / d)) as [e [Ee [He0 He100]]];
    try apply representable_0; try apply representable_100.
  { apply Qle_shift_div_l; lra. }
  { apply Qle_shift_div_r; [lra | nra]. }
  rewrite Ee. unfold minus, hundred. cbn [negate plus].
  destruct (round_between 0 100 (100 + - e)) as [r [Er [H0 H100]]];
    try apply representable_0; try apply representable_100; try lra.
  rewrite Er. destruct (rounded_within r H0 H100) as [q [Eq Hq]].
  exists q. now rewrite Eq.
Qed.

(** [avgGain / avgLoss]: not a number exactly when both are infinite. *)
Lemma strength_cases (avgGain avgLoss : number) :
  le zero avgGain -> above_zero avgLoss ->
  exists rs,
    divide round avgGain avgLoss = Some rs
    /\ ((rs = NaN /\ avgGain = PlusInfinity /\ avgLoss = PlusInfinity)
        \/ (le zero rs /\ ~ (avgGain = PlusInfinity /\ avgLoss = PlusInfinity))).
Proof.
  intros Hg Hl.
  apply le_zero_cases in Hg as [-> | [a [-> Ha]]];
    destruct Hl as [-> | [b [-> Hb]]].
  - exists NaN. split; [reflexivity|]. now left.
  - unfold divide. cbn [is_zero is_negative].
    assert (Hz : Qeq_bool b 0 = false).
    { destruct (Qeq_bool b 0) eqn:E; [|reflexivity]. apply Qeq_bool_eq in E. lra. }
    assert (Hn : Qltb b 0 = false).
    { unfold Qltb. apply Qgtb_le. lra. }
    rewrite Hz, Hn. exists PlusInfinity. split; [reflexivity|]. right.
    split; [exact I|]. intros [_ E]. discriminate E.
  - exists (Finite 0). split; [reflexivity|]. right.
    split; [simpl; lra|]. intros [E _]. discriminate E.
  - unfold divide. cbn [is_zero].
    assert (Hz : Qeq_bool b 0 = false).
    { destruct (Qeq_bool b 0) eqn:E; [|reflexivity]. apply Qeq_bool_eq in E. lra. }
    rewrite Hz. eexists. split; [reflexivity|]. right. split.
    + apply round_nonneg. apply Qle_shift_div_l; lra.
    + intros [E _]. discriminate E.
Qed.

Lemma rsiHandedOver_cases (values : list number) :
  (1 <= List.length values)%nat ->
  exists avgGain avgLoss r,
    averages round values = Some (avgGain, avgLoss)
    /\ above_zero avgLoss
    /\ rsiHandedOver round values = Some r
    /\ (r = NaN <->
        gainsOf round values = PlusInfinity /\ lossesOf round values = PlusInfinity)
    /\ (r <> NaN -> exists q, r = Finite q /\ 0 <= q /\ q <= 100).
Proof.
  intros Hn.
  destruct (averages_guarded_numbers values Hn)
    as [avgGain [avgLoss [Ea [Hg [Hl [Hgi Hli]]]]]].
  destruct (strength_cases avgGain avgLoss Hg Hl) as [rs [Ers Hrs]].
  unfold rsiHandedOver. rewrite Ea. cbn [obind]. rewrite Ers. cbn [obind].
  destruct Hrs as [[-> [Eg El]] | [Hrs Hnot]].
  - exists avgGain, avgLoss, NaN. split; [reflexivity|]. split; [exact Hl|].
    split; [reflexivity|]. split.
    + split; [intros _ | reflexivity]. split; [now apply Hgi | now apply Hli].
    + intros H. now destruct H.
  - destruct (rsi_of_strength rs Hrs) as [q [Eq Hq]].
    exists avgGain, avgLoss, (Finite q). split; [reflexivity|].
    split; [exact Hl|]. split; [exact Eq|]. split.
    + split; [discriminate|]. intros [Eg El]. exfalso. apply Hnot.
      split; [now apply Hgi | now apply Hli].
    + intros _. now exists q.
Qed.

(** *** The bands *)







End WithRounding.

(** *** The rounding that only overflows *)

Lemma representable_in_range (q : Q) :
  representable q -> - 2 ^ 1024 < q /\ q < 2 ^ 1024.
Proof.
  intros [m [e [Hm [He Eq]]]].
  assert (HP : 0 < 2 ^ e) by (apply Qpower_0_lt; reflexivity).
  assert (HT : 2 ^ e <= 2 ^ 971).
  { apply Qpower_le_compat_l; [lia | discriminate]. }
  assert (HK : - inject_Z (2 ^ 53) < inject_Z m /\ inject_Z m < inject_Z (2 ^ 53)).
  { split.
    - rewrite <- inject_Z_opp. rewrite <- Zlt_Qlt. lia.
    - rewrite <- Zlt_Qlt. lia. }
  assert (EM : 2 ^ 1024 == inject_Z (2 ^ 53) * 2 ^ 971) by (vm_compute; reflexivity).
  assert (HK0 : 0 < inject_Z (2 ^ 53)) by reflexivity.
  rewrite EM, Eq.
  set (P := 2 ^ e) in *. set (T := 2 ^ 971) in *.
  set (K := inject_Z (2 ^ 53)) in *. set (A := inject_Z m) in *.
  clearbody P T K A. destruct HK as [HK1 HK2]. split; nra.
Qed.

Lemma rangeOnly_cases (q : Q) :
  (2 ^ 1024 <= q /\ rangeOnly q = PlusInfinity)
  \/ (q <= - 2 ^ 1024 /\ rangeOnly q = MinusInfinity)
  \/ (- 2 ^ 1024 < q /\ q < 2 ^ 1024 /\ rangeOnly q = Finite q).
Proof.
  unfold rangeOnly.
  destruct (Qle_bool (2 ^ 1024) q) eqn:E1.
  - left. apply Qle_bool_iff in E1. now split.
  - destruct (Qle_bool q (- 2 ^ 1024)) eqn:E2.
    + right. left. apply Qle_bool_iff in E2. now split.
    + right. right. split; [|split; [|reflexivity]].
      * apply Qnot_le_lt. intros C. apply Qle_bool_iff in C. congruence.
      * apply Qnot_le_lt. intros C. apply Qle_bool_iff in C. congruence.
Qed.

Lemma Rounding_rangeOnly : Rounding rangeOnly.
Proof.
  assert (HM : 0 < 2 ^ 1024) by reflexivity.
  split.
  - intros a b Hab.
    destruct (rangeOnly_cases a) as [[Ha ->] | [[Ha ->] | [Ha1 [Ha2 ->]]]];
      destruct (rangeOnly_cases b) as [[Hb ->] | [[Hb ->] | [Hb1 [Hb2 ->]]]];
      simpl; auto; set (M := 2 ^ 1024) in *; clearbody M; lra.
  - intros q Hq. destruct (representable_in_range q Hq) as [H1 H2].
    exists q. split; [|apply Qeq_refl].
    destruct (rangeOnly_cases q) as [[Ha _] | [[Ha _] | [_ [_ E]]]];
      [| |exact E]; set (M := 2 ^ 1024) in *; clearbody M; lra.
  - intros q q' E.
    destruct (rangeOnly_cases q) as [[Ha E'] | [[Ha E'] | [Ha1 [Ha2 E']]]];
      rewrite E' in E; try discriminate E. injection E as <-.
    exists q. split; [exact E' | apply Qeq_refl].
  - intros q H.
    destruct (rangeOnly_cases q) as [[Ha E'] | [[Ha E'] | [Ha1 [Ha2 E']]]];
      [exact E' | |]; set (M := 2 ^ 1024) in *; clearbody M; lra.
  - intros q H.
    destruct (rangeOnly_cases q) as [[Ha E'] | [[Ha E'] | [Ha1 [Ha2 E']]]];
      [|exact E'|]; set (M := 2 ^ 1024) in *; clearbody M; lra.
Qed.

(** *** The order of the bands *)

Section BandFacts.

Variable round : Q -> number.
Hypothesis HR : Rounding round.
Variable sqrt : Q -> Q.
Hypothesis sqrt_nonneg : forall a, 0 <= a -> 0 <= sqrt a.






End BandFacts.

(** *** A series that overflows *)

Section OverflowFacts.

Variable round : Q -> number.
Hypothesis HR : Rounding round.

Lemma representable_half_range : representable (2 ^ 1023).
Proof.
  exists (2 ^ 52)%Z, 971%Z. split; [reflexivity|]. split; [lia|].
  vm_compute. reflexivity.
Qed.

Lemma representable_minus_half_range : representable (- 2 ^ 1023).
Proof.
  exists (- 2 ^ 52)%Z, 971%Z. split; [reflexivity|]. split; [lia|].
  vm_compute. reflexivity.
Qed.

Lemma huge_cases (x : number) :
  le (Finite (2 ^ 1023)) x <->
  x = PlusInfinity \/ exists q, x = Finite q /\ 2 ^ 1023 <= q.
Proof.
  set (h := 2 ^ 1023). clearbody h.
  destruct x as [q| | |]; cbn [le]; split; intros H; try tauto.
  - right. now exists q.
  - destruct H as [H | [q' [E Hq]]]; [discriminate|]. now injection E as ->.
  - destruct H as [H | [q' [E _]]]; discriminate.
  - destruct H as [H | [q' [E _]]]; discriminate.
Qed.

Lemma huge_is_positive (x : number) :
  le (Finite (2 ^ 1023)) x -> is_positive x = true /\ is_negative x = false.
Proof.
  assert (H0 : 0 < 2 ^ 1023) by reflexivity.
  intros H. apply huge_cases in H as [-> | [q [-> Hq]]]; [split; reflexivity|].
  set (h := 2 ^ 1023) in *. clearbody h. cbn [is_positive is_negative]. split.
  - destruct (Qgtb q 0) eqn:E; [reflexivity|]. apply Qgtb_le in E. lra.
  - unfold Qltb. apply Qgtb_le. lra.
Qed.

Lemma steep_fall (x : number) :
  le x (Finite (- 2 ^ 1023)) ->
  is_positive x = false /\ is_negative x = true
  /\ le (Finite (2 ^ 1023)) (Math_abs x).
Proof.
  assert (H0 : 0 < 2 ^ 1023) by reflexivity.
  set (h := 2 ^ 1023) in *. clearbody h.
  intros H. destruct x as [q| | |]; cbn [le] in H; try tauto.
  - cbn [is_positive is_negative Math_abs le].
    split; [apply Qgtb_le; lra|]. split.
    + apply Qltb_lt. lra.
    + rewrite Qabs_neg by lra. lra.
Qed.

Lemma huge_after_zero (x : number) :
  le (Finite (2 ^ 1023)) x -> le (Finite (2 ^ 1023)) (plus round zero x).
Proof.
  intros H. apply huge_cases in H as [-> | [q [-> Hq]]]; [exact I|].
  cbn [plus zero]. apply (round_above round HR); [apply representable_half_range|].
  lra.
Qed.


Lemma huge_plus_huge (x y : number) :
  le (Finite (2 ^ 1023)) x -> le (Finite (2 ^ 1023)) y ->
  plus round x y = PlusInfinity.
Proof.
  assert (E : 2 ^ 1024 == 2 ^ 1023 + 2 ^ 1023) by (vm_compute; reflexivity).
  intros Hx Hy.
  apply huge_cases in Hx as [-> | [a [-> Ha]]];
    apply huge_cases in Hy as [-> | [b [-> Hb]]]; try reflexivity.
  cbn [plus]. apply (round_overflow round HR). rewrite E. lra.
Qed.

(** The swings of the series 1.7e308, 1, 1.7e308, 1, 1.7e308. *)
Lemma overflowSeries_changes :
  exists fall rise,
    priceChanges round overflowSeries = [fall; rise; fall; rise]
    /\ le fall (Finite (- 2 ^ 1023)) /\ le (Finite (2 ^ 1023)) rise.
Proof.
  exists (round (1 + - (17 * 10 ^ 307))), (round (17 * 10 ^ 307 + - 1)).
  split; [reflexivity|]. split.
  - apply (round_below round HR); [apply representable_minus_half_range|].
    vm_compute. discriminate.
  - apply (round_above round HR); [apply representable_half_range|].
    vm_compute. discriminate.
Qed.

Lemma overflowSeries_sums :
  gainsOf round overflowSeries = PlusInfinity
  /\ lossesOf round overflowSeries = PlusInfinity.
Proof.
  destruct overflowSeries_changes as [fall [rise [E [Hfall Hrise]]]].
  destruct (huge_is_positive rise Hrise) as [Hp1 Hn1].
  destruct (steep_fall fall Hfall) as [Hp2 [Hn2 Habs]].
  unfold gainsOf, lossesOf, sum. rewrite E. cbn [filter].
  rewrite Hp1, Hn1, Hp2, Hn2. cbn [fold_left]. split.
  - apply huge_plus_huge; [now apply huge_after_zero | exact Hrise].
  - apply huge_plus_huge; [now apply huge_after_zero | exact Habs].
Qed.


End OverflowFacts.

(** *** The RSI and the bands handed over *)

Section HandedOver.

(** C4. On doubles, for every series of at least 5 values no step of the
    RSI divides by zero (the average loss, replaced by 0.01 when it is 0,
    is above 0), and the RSI handed over lies within 0 to 100 unless the
    sum of the gains and the sum of the losses have both overflowed to
    infinity: exactly then it is not a number. *)
Theorem rsi_within_0_100_unless_overflow (round : Q -> number)
    (values : list number) :
  Rounding round ->
  (5 <= List.length values)%nat ->
  exists avgGain avgLoss r,
    averages round values = Some (avgGain, avgLoss)
    /\ above_zero avgLoss
    /\ rsiHandedOver round values = Some r
    /\ (r = NaN <->
        gainsOf round values = PlusInfinity /\ lossesOf round values = PlusInfinity)
    /\ (r <> NaN -> exists q, r = Finite q /\ 0 <= q /\ q <= 100).
Proof.
  intros HR Hn. apply rsiHandedOver_cases; [exact HR | lia].
Qed.

Lemma rsi_within_0_100_unless_overflow_witness :
  exists r,
    rsiHandedOver rangeOnly ordinarySeries = Some r
    /\ (r <> NaN -> exists q, r = Finite q /\ 0 <= q /\ q <= 100).
Proof.
  destruct (rsi_within_0_100_unless_overflow rangeOnly ordinarySeries
              Rounding_rangeOnly ltac:(simpl; lia))
    as [avgGain [avgLoss [r [_ [_ [E [_ H]]]]]]].
  exists r. split; [exact E | exact H].
Defined.

(** The series 1.7e308, 1, 1.7e308, 1, 1.7e308 of finite numbers has an
    RSI that is not a number, whatever the rounding. *)
Theorem rsi_not_a_number_on_overflow :
  (5 <= List.length overflowSeries)%nat
  /\ Forall (fun v => exists q, v = Finite q) overflowSeries
  /\ Rounding rangeOnly
  /\ forall round, Rounding round ->
       rsiHandedOver round overflowSeries = Some NaN
       /\ ~ (le zero NaN /\ le NaN hundred).
Proof.
  split; [simpl; lia|]. split.
  { unfold overflowSeries. repeat constructor; eexists; reflexivity. }
  split; [exact Rounding_rangeOnly|].
  intros round HR. split; [|intros [H _]; exact H].
  destruct (rsiHandedOver_cases round HR overflowSeries ltac:(simpl; lia))
    as [avgGain [avgLoss [r [_ [_ [E [Hnan _]]]]]]].
  rewrite E. f_equal. apply Hnan. now apply overflowSeries_sums.
Qed.




End HandedOver.

End DoubleFacts.

(** ** C1, C7, C8: the prediction-submit handler *)

Section HandlerFacts.
Import JS Types Landing.
Local Open Scope Q_scope.

(** *** The steps of the handler *)

Lemma trendMultiplierOf_snd (t : string) (g : draws) (n : nat) :
  snd (trendMultiplierOf t g n) = S n.
Proof. reflexivity. Qed.

Lemma modelMultipliersOf_snd (b : Q) (g : draws) (n : nat) :
  snd (modelMultipliersOf b g n) = (5 + n)%nat.
Proof. reflexivity. Qed.

Lemma finalDecisionOf_snd (t : string) (hp : bool) (g : draws) (n : nat) :
  snd (finalDecisionOf t hp g n) = S n.
Proof.
  unfold finalDecisionOf.
  destruct (String.eqb t "up" && hp); [reflexivity|].
  destruct (String.eqb t "down" && hp); reflexivity.
Qed.

Lemma confidenceOf_run (g : draws) (n : nat) :
  confidenceOf g n = ((6 # 10) + (g n * (35 # 100)), S n).
Proof. reflexivity. Qed.

Lemma generateVerificationDetails_snd (d : string) (c : Q) (a t : string)
  (g : draws) (n : nat) :
  snd (generateVerificationDetails d c a t g n) = (8 + n)%nat.
Proof. reflexivity. Qed.

Lemma generateModelComparison_snd (d a t : string) (g : draws) (n : nat) :
  snd (generateModelComparison d a t g n) = (6 + n)%nat.
Proof. reflexivity. Qed.

(** What the handler hands to [setPredictionData], by the position of each
    draw: the decision uses draw 6, the confidence draw 7, counted from the
    position at which the handler starts. *)
Lemma handlePredictionSubmit_run (q : string) (feeds : list DataFeed)
  (g : draws) (n : nat) (pd : PredictionData) :
  fst (handlePredictionSubmit q feeds g n) = Some pd ->
  let t := trendFor q feeds in
  let hp := hasPriceQuestion q in
  let k := reasoningDraws hp (primaryAssetOf q) in
  let d := fst (finalDecisionOf t hp g (6 + n)%nat) in
  let c := (6 # 10) + (g (7 + n)%nat * (35 # 100)) in
  blank q = false
  /\ final_decision (verificationResult pd) = str_or d "UNCERTAIN"
  /\ confidence (verificationResult pd) = c
  /\ verification (verificationResult pd)
     = fst (generateVerificationDetails d c (str_or (primaryAssetOf q) "Bitcoin")
              (str_or t "stable") g (k + (8 + n))%nat)
  /\ modelComparison pd
     = fst (generateModelComparison (str_or d "UNCERTAIN")
              (str_or (primaryAssetOf q) "Bitcoin") t g (8 + (k + (8 + n)))%nat).
Proof.
  unfold handlePredictionSubmit, trendFor, primaryAssetOf.
  destruct (blank q) eqn:Hb; [discriminate|].
  set (pa := hd "Bitcoin" (QueryParser.extractAssetsFromQuery q)).
  set (t := match findPrimary feeds pa with
            | Some feed => str_or (trend feed) "stable"
            | None => "stable"
            end).
  set (hp := hasPriceQuestion q).
  intros H. cbv zeta.
  rewrite bind_run, trendMultiplierOf_snd in H.
  rewrite bind_run, modelMultipliersOf_snd in H.
  rewrite bind_run, finalDecisionOf_snd in H.
  rewrite bind_run, confidenceOf_run in H. cbn [fst snd] in H.
  rewrite bind_run, skip_run in H. cbn [fst snd] in H.
  rewrite bind_run, generateVerificationDetails_snd in H.
  rewrite bind_run in H. unfold ret in H. cbn [fst] in H.
  injection H as <-.
  cbn [verificationResult final_decision confidence verification modelComparison].
  repeat split.
Qed.

(** *** The decision *)

Ltac in_list := simpl; repeat (first [left; reflexivity | right]).

Lemma draw_index (r : Q) :
  0 <= r -> r < 1 -> (0 <= Math_floor (r * 5) <= 4)%Z.
Proof.
  intros H0 H1. unfold Math_floor. split.
  - change 0%Z with (Qfloor 0). apply Qfloor_resp_le. lra.
  - pose proof (Qfloor_le (r * 5)) as H.
    assert (Hlt : inject_Z (Qfloor (r * 5)) < inject_Z 5).
    { apply Qle_lt_trans with (r * 5); [exact H|]. change (inject_Z 5) with 5. lra. }
    rewrite <- Zlt_Qlt in Hlt. lia.
Qed.

Lemma finalDecisionOf_closed (t : string) (hp : bool) (g : draws) (n : nat) :
  valid_draws g -> In (fst (finalDecisionOf t hp g n)) decisions.
Proof.
  intros Hg. unfold finalDecisionOf.
  destruct (String.eqb t "up" && hp).
  { cbn. destruct (Qgtb (g n) (3 # 10)); in_list. }
  destruct (String.eqb t "down" && hp).
  { cbn. destruct (Qgtb (g n) (3 # 10)); in_list. }
  cbn [fst bind random ret]. destruct (Hg n) as [H0 H1].
  change (inject_Z (Z.of_nat (List.length decisions))) with 5.
  pose proof (draw_index (g n) H0 H1) as Hi.
  set (i := Math_floor (g n * 5)) in *.
  assert (Hcases : i = 0%Z \/ i = 1%Z \/ i = 2%Z \/ i = 3%Z \/ i = 4%Z) by lia.
  destruct Hcases as [-> | [-> | [-> | [-> | ->]]]]; in_list.
Qed.

Lemma decisions_are_labels (d : string) : In d decisions -> In d decisionLabels.
Proof.
  intros H. simpl in H. unfold decisionLabels.
  destruct H as [<- | [<- | [<- | [<- | [<- | []]]]]]; in_list.
Qed.

Lemma decisions_nonempty (d : string) : In d decisions -> str_or d "UNCERTAIN" = d.
Proof.
  intros H. simpl in H.
  destruct H as [<- | [<- | [<- | [<- | [<- | []]]]]]; reflexivity.
Qed.

Lemma model_responses_closed (d : string) (c : Q) (a t : string) (g : draws) (n : nat) :
  In d decisions ->
  Forall (fun response => In (decision (snd response)) decisionLabels)
         (model_responses (fst (generateVerificationDetails d c a t g n))).
Proof.
  intros H. simpl in H.
  destruct H as [<- | [<- | [<- | [<- | [<- | []]]]]];
    cbn; repeat (apply Forall_cons; [in_list|]); apply Forall_nil.
Qed.

Lemma predictionsFor_closed (d : string) (index : nat) :
  (index < 6)%nat -> In (nth index (predictionsFor d) "") decisionLabels.
Proof.
  intros H. unfold predictionsFor.
  destruct (String.eqb d "LIKELY" || String.eqb d "HIGHLY LIKELY");
    [|destruct (String.eqb d "UNLIKELY" || String.eqb d "SOMEWHAT UNLIKELY")];
    do 6 (destruct index as [|index]; [in_list|]); lia.
Qed.

Lemma modelComparison_closed (d a t : string) (g : draws) (n : nat) :
  Forall (fun item => In (prediction item) decisionLabels)
         (fst (generateModelComparison d a t g n)).
Proof.
  cbn.
  repeat (apply Forall_cons; [cbn [prediction]; apply predictionsFor_closed; lia|]).
  apply Forall_nil.
Qed.

(** *** Concrete runs *)

Lemma drawsA_valid : valid_draws drawsA.
Proof.
  intros n. unfold drawsA.
  destruct (n =? 6)%nat; [|destruct (24 <=? n)%nat]; split; reflexivity || discriminate.
Qed.

Lemma drawsB_valid : valid_draws drawsB.
Proof.
  intros n. unfold drawsB.
  destruct (n =? 6)%nat; [|destruct (24 <=? n)%nat]; split; reflexivity || discriminate.
Qed.

Lemma drawsHigh_valid : valid_draws drawsHigh.
Proof. intros n. split; reflexivity || discriminate. Qed.

(** *** C8 *)

(** C8. With draws in [0, 1), every decision label of a result (the final
    decision, the prediction of each compared model, the decision of each
    model response) is one of HIGHLY LIKELY, LIKELY, SOMEWHAT LIKELY,
    UNCERTAIN, SOMEWHAT UNLIKELY, UNLIKELY. *)
Theorem decision_labels_closed
  (q : string) (feeds : list DataFeed) (g : draws) (n : nat) (pd : PredictionData) :
  valid_draws g ->
  fst (handlePredictionSubmit q feeds g n) = Some pd ->
  In (final_decision (verificationResult pd)) decisionLabels
  /\ Forall (fun item => In (prediction item) decisionLabels) (modelComparison pd)
  /\ Forall (fun response => In (decision (snd response)) decisionLabels)
            (model_responses (verification (verificationResult pd))).
Proof.
  intros Hg H.
  destruct (handlePredictionSubmit_run q feeds g n pd H) as [_ [Hd [_ [Hv Hm]]]].
  pose proof (finalDecisionOf_closed (trendFor q feeds) (hasPriceQuestion q) g
                (6 + n)%nat Hg) as Hin.
  rewrite Hd, Hv, Hm, (decisions_nonempty _ Hin).
  split; [now apply decisions_are_labels|].
  split; [apply modelComparison_closed | now apply model_responses_closed].
Qed.

Lemma decision_labels_closed_witness :
  exists pd,
    fst (handlePredictionSubmit priceQuestion [risingBitcoin] drawsA 0%nat) = Some pd
    /\ In (final_decision (verificationResult pd)) decisionLabels
    /\ Forall (fun item => In (prediction item) decisionLabels) (modelComparison pd).
Proof.
  eexists. split; [vm_compute; reflexivity|].
  destruct (decision_labels_closed priceQuestion [risingBitcoin] drawsA 0%nat _
              drawsA_valid eq_refl) as [H1 [H2 _]].
  split; [exact H1 | exact H2].
Defined.

(** *** C1 *)

(** The claim fails: two runs on the same question and feeds, with draws in
    [0, 1), end with the same confidence values throughout and different
    final decisions, so no rule on the confidences (their mean or any other
    function of them) gives the decision. *)
Lemma final_decision_not_from_confidence :
  (exists pdA pdB,
      run (handlePredictionSubmit priceQuestion [risingBitcoin]) drawsA = Some pdA
      /\ run (handlePredictionSubmit priceQuestion [risingBitcoin]) drawsB = Some pdB
      /\ confidences pdA = confidences pdB
      /\ final_decision (verificationResult pdA) = "LIKELY"
      /\ final_decision (verificationResult pdB) = "HIGHLY LIKELY")
  /\ ~ (exists rule : Q * list Q * list Q -> string,
          forall q feeds g pd,
            valid_draws g ->
            run (handlePredictionSubmit q feeds) g = Some pd ->
            final_decision (verificationResult pd) = rule (confidences pd)).
Proof.
  assert (HA : exists pdA,
             run (handlePredictionSubmit priceQuestion [risingBitcoin]) drawsA = Some pdA
             /\ final_decision (verificationResult pdA) = "LIKELY"
             /\ confidences pdA
                = (1550 # 2000,
                   [3100000 # 4000000; 2800000 # 4000000; 2500000 # 4000000;
                    32000000 # 40000000; 340000 # 400000],
                   [80; 80; 80; 80; 80; 80])).
  { eexists. split; [vm_compute; reflexivity|]. split; vm_compute; reflexivity. }
  assert (HB : exists pdB,
             run (handlePredictionSubmit priceQuestion [risingBitcoin]) drawsB = Some pdB
             /\ final_decision (verificationResult pdB) = "HIGHLY LIKELY"
             /\ confidences pdB
                = (1550 # 2000,
                   [3100000 # 4000000; 2800000 # 4000000; 2500000 # 4000000;
                    32000000 # 40000000; 340000 # 400000],
                   [80; 80; 80; 80; 80; 80])).
  { eexists. split; [vm_compute; reflexivity|]. split; vm_compute; reflexivity. }
  destruct HA as [pdA [RA [DA CA]]]. destruct HB as [pdB [RB [DB CB]]].
  split.
  - exists pdA, pdB. repeat split; try assumption. now rewrite CA, CB.
  - intros [rule Hrule].
    pose proof (Hrule _ _ _ _ drawsA_valid RA) as EA.
    pose proof (Hrule _ _ _ _ drawsB_valid RB) as EB.
    rewrite DA, CA in EA. rewrite DB, CB in EB. congruence.
Qed.

(** C1, amended. With draws in [0, 1), the final decision is chosen from
    the trend of the primary asset, whether the question asks for a price,
    and one draw r: for an "up" trend and a price question LIKELY when
    r > 0.3 and HIGHLY LIKELY otherwise; for a "down" trend and a price
    question UNLIKELY when r > 0.3 and SOMEWHAT LIKELY otherwise; in every
    other case the entry of index floor(5 r) of LIKELY, SOMEWHAT LIKELY,
    UNCERTAIN, UNLIKELY, HIGHLY LIKELY.  Runs that agree on that draw agree
    on the decision, whatever their other draws and confidences are. *)
Theorem final_decision_from_trend_and_draw
  (q : string) (feeds : list DataFeed) (g : draws) (n : nat) (pd : PredictionData) :
  valid_draws g ->
  fst (handlePredictionSubmit q feeds g n) = Some pd ->
  let final := final_decision (verificationResult pd) in
  let up := String.eqb (trendFor q feeds) "up" && hasPriceQuestion q in
  let down := String.eqb (trendFor q feeds) "down" && hasPriceQuestion q in
  let r := g (6 + n)%nat in
  (up = true ->
   ((3 # 10) < r -> final = "LIKELY") /\ (r <= (3 # 10) -> final = "HIGHLY LIKELY"))
  /\ (up = false -> down = true ->
      ((3 # 10) < r -> final = "UNLIKELY")
      /\ (r <= (3 # 10) -> final = "SOMEWHAT LIKELY"))
  /\ (up = false -> down = false ->
      nth_error [ "LIKELY"; "SOMEWHAT LIKELY"; "UNCERTAIN"; "UNLIKELY"; "HIGHLY LIKELY" ]
                (Z.to_nat (Qfloor (r * 5)))
      = Some final)
  /\ (forall (g' : draws) (pd' : PredictionData),
         valid_draws g' ->
         g' (6 + n)%nat = r ->
         fst (handlePredictionSubmit q feeds g' n) = Some pd' ->
         final_decision (verificationResult pd') = final).
Proof.
  intros Hg H final up down r.
  destruct (handlePredictionSubmit_run q feeds g n pd H) as [_ [Hd _]].
  pose proof (finalDecisionOf_closed (trendFor q feeds) (hasPriceQuestion q) g
                (6 + n)%nat Hg) as Hin.
  rewrite (decisions_nonempty _ Hin) in Hd. fold final in Hd.
  assert (Hstep : forall g0, fst (finalDecisionOf (trendFor q feeds) (hasPriceQuestion q)
                                    g0 (6 + n)%nat)
                  = if up then (if Qgtb (g0 (6 + n)%nat) (3 # 10)
                                then "LIKELY" else "HIGHLY LIKELY")
                    else if down then (if Qgtb (g0 (6 + n)%nat) (3 # 10)
                                       then "UNLIKELY" else "SOMEWHAT LIKELY")
                    else at_index decisions (Math_floor (g0 (6 + n)%nat * 5))).
  { intros g0. unfold finalDecisionOf. fold up. fold down.
    destruct up; [reflexivity|]. destruct down; reflexivity. }
  rewrite Hstep in Hd. fold r in Hd.
  split; [|split; [|split]].
  - intros Hup. rewrite Hup in Hd. split; intros Hr.
    + apply Qgtb_lt in Hr. now rewrite Hr in Hd.
    + apply Qgtb_le in Hr. now rewrite Hr in Hd.
  - intros Hup Hdown. rewrite Hup, Hdown in Hd. split; intros Hr.
    + apply Qgtb_lt in Hr. now rewrite Hr in Hd.
    + apply Qgtb_le in Hr. now rewrite Hr in Hd.
  - intros Hup Hdown. rewrite Hup, Hdown in Hd.
    destruct (Hg (6 + n)%nat) as [H0 H1]. fold r in H0, H1.
    pose proof (draw_index r H0 H1) as Hi.
    unfold Math_floor in Hd, Hi. set (i := Qfloor (r * 5)) in *.
    assert (Hcases : i = 0%Z \/ i = 1%Z \/ i = 2%Z \/ i = 3%Z \/ i = 4%Z) by lia.
    destruct Hcases as [E | [E | [E | [E | E]]]]; rewrite E in Hd |- *;
      rewrite Hd; reflexivity.
  - intros g' pd' Hg' Hr H'.
    destruct (handlePredictionSubmit_run q feeds g' n pd' H') as [_ [Hd' _]].
    pose proof (finalDecisionOf_closed (trendFor q feeds) (hasPriceQuestion q) g'
                  (6 + n)%nat Hg') as Hin'.
    rewrite (decisions_nonempty _ Hin'), Hstep, Hr in Hd'.
    now rewrite Hd', Hd.
Qed.

Lemma final_decision_from_trend_and_draw_witness :
  exists pd,
    fst (handlePredictionSubmit priceQuestion [risingBitcoin] drawsA 0%nat) = Some pd
    /\ final_decision (verificationResult pd) = "LIKELY".
Proof.
  eexists. split; [vm_compute; reflexivity|].
  destruct (final_decision_from_trend_and_draw priceQuestion [risingBitcoin] drawsA
              0%nat _ drawsA_valid eq_refl) as [Hup _].
  apply Hup; reflexivity.
Defined.

(** *** C7 *)

(** The overall confidence is within [0.6, 0.95), inside [0, 1]. *)
Lemma overall_confidence_range
  (q : string) (feeds : list DataFeed) (g : draws) (n : nat) (pd : PredictionData) :
  valid_draws g ->
  fst (handlePredictionSubmit q feeds g n) = Some pd ->
  (6 # 10) <= confidence (verificationResult pd)
  /\ confidence (verificationResult pd) < (95 # 100).
Proof.
  intros Hg H.
  destruct (handlePredictionSubmit_run q feeds g n pd H) as [_ [_ [Hc _]]].
  rewrite Hc. destruct (Hg (7 + n)%nat) as [H0 H1]. split; lra.
Qed.

(** C7 fails for the per-model confidences.  With every draw at 0.9 (inside
    [0, 1)) the overall confidence is 0.915 and the confidences of
    "DeepSeek R1 Zero" and "Llama 3.3 70B" in [model_responses] are 1.035
    and 1.05, above 1: they are the overall confidence plus a random offset
    and are not clamped. *)
Theorem model_response_confidence_above_one :
  valid_draws drawsHigh
  /\ exists pd,
       run (handlePredictionSubmit priceQuestion [risingBitcoin]) drawsHigh = Some pd
       /\ confidence (verificationResult pd) == 915 # 1000
       /\ exists deepseek llama,
            In ("DeepSeek R1 Zero", deepseek)
               (model_responses (verification (verificationResult pd)))
            /\ In ("Llama 3.3 70B", llama)
                  (model_responses (verification (verificationResult pd)))
            /\ response_confidence deepseek == 1035 # 1000
            /\ response_confidence llama == 105 # 100
            /\ 1 < response_confidence deepseek
            /\ 1 < response_confidence llama.
Proof.
  split; [exact drawsHigh_valid|].
  eexists. split; [vm_compute; reflexivity|].
  split; [reflexivity|].
  do 2 eexists. split; [left; reflexivity|].
  split; [do 4 right; left; reflexivity|].
  repeat split.
Qed.

End HandlerFacts.

(* ================================================================== *)
(** * Further properties of the code *)
(* ================================================================== *)

(** ** Case conversion, tables and lists *)

Section CaseFacts.
Import JS.

Local Ltac each_char c :=
  destruct c as [[|] [|] [|] [|] [|] [|] [|] [|]].

Lemma lower_upper_char (c : ascii) : lower_char (upper_char c) = lower_char c.
Proof. each_char c; reflexivity. Qed.

Lemma upper_lower_char (c : ascii) : upper_char (lower_char c) = upper_char c.
Proof. each_char c; reflexivity. Qed.

Lemma toLowerCase_toUpperCase (s : string) :
  toLowerCase (toUpperCase s) = toLowerCase s.
Proof.
  induction s as [|c s IH]; simpl; [reflexivity|].
  now rewrite lower_upper_char, IH.
Qed.

Lemma toUpperCase_toLowerCase (s : string) :
  toUpperCase (toLowerCase s) = toUpperCase s.
Proof.
  induction s as [|c s IH]; simpl; [reflexivity|].
  now rewrite upper_lower_char, IH.
Qed.


Lemma lookup_In {A : Type} (table : list (string * A)) (key : string) (v : A) :
  lookup table key = Some v -> In (key, v) table.
Proof.
  induction table as [|[k w] rest IH]; simpl; [discriminate|].
  destruct (String.eqb_spec k key) as [->|N].
  - intros H. injection H as ->. now left.
  - intros H. right. now apply IH.
Qed.

Lemma Forall2_map_eq {A B C} (f : A -> C) (h : B -> C) (xs : list A) (ys : list B) :
  Forall2 (fun x y => h y = f x) xs ys -> map h ys = map f xs.
Proof. induction 1; simpl; congruence. Qed.

Lemma Forall2_rev {A B} (P : A -> B -> Prop) (xs : list A) (ys : list B) :
  Forall2 P xs ys -> Forall2 P (rev xs) (rev ys).
Proof.
  induction 1 as [|x y xs ys Hxy _ IH]; simpl; [constructor|].
  apply Forall2_app; [exact IH | repeat constructor; exact Hxy].
Qed.

Lemma Forall2_right {A B} (P : B -> Prop) (xs : list A) (ys : list B) :
  Forall2 (fun _ y => P y) xs ys -> Forall P ys.
Proof. induction 1; constructor; assumption. Qed.

End CaseFacts.

(** ** More on the random source *)

Section MoreRandFacts.
Import JS.

Lemma mapM_cons_run {A B} (f : A -> Rand B) (x : A) (xs : list A) (g : draws) (n : nat) :
  mapM f (x :: xs) g n
  = (fst (f x g n) :: fst (mapM f xs g (snd (f x g n))),
     snd (mapM f xs g (snd (f x g n)))).
Proof.
  simpl. rewrite bind_run, bind_run. reflexivity.
Qed.

Lemma mapM_app_run {A B} (f : A -> Rand B) (xs ys : list A) (g : draws) (n : nat) :
  mapM f (xs ++ ys) g n
  = ((fst (mapM f xs g n) ++ fst (mapM f ys g (snd (mapM f xs g n))))%list,
     snd (mapM f ys g (snd (mapM f xs g n)))).
Proof.
  revert n. induction xs as [|x xs IH]; intros n.
  - simpl. now destruct (mapM f ys g n).
  - rewrite <- app_comm_cons, !mapM_cons_run, IH. reflexivity.
Qed.

(** When each call of [f] draws once, the calls for a list of [k] elements
    move the position by [k]. *)
Lemma mapM_one_draw {A B} (f : A -> Rand B) (xs : list A) (g : draws) (n : nat) :
  (forall x g n, snd (f x g n) = S n) ->
  snd (mapM f xs g n) = (List.length xs + n)%nat.
Proof.
  intros Hf. revert n. induction xs as [|x xs IH]; intros n.
  - reflexivity.
  - rewrite mapM_cons_run, Hf. cbn [snd]. rewrite IH. simpl. lia.
Qed.

(** What holds of each call, at whatever position, holds along the list. *)
Lemma mapM_Forall {A B} (f : A -> Rand B) (P : A -> B -> Prop) (xs : list A)
  (g : draws) (n : nat) :
  (forall x m, In x xs -> P x (fst (f x g m))) ->
  Forall2 P xs (fst (mapM f xs g n)).
Proof.
  revert n. induction xs as [|x xs IH]; intros n H.
  - constructor.
  - rewrite mapM_cons_run. cbn [fst]. constructor.
    + apply H. now left.
    + apply IH. intros y m Hy. apply H. now right.
Qed.

End MoreRandFacts.

(** ** Rounding and checked division *)

Section RoundingFacts.
Import JS MarketAnalytics.
Local Open Scope Q_scope.

Lemma num_or_nonzero (x d : Q) : ~ x == 0 -> num_or x d = x.
Proof.
  intros H. unfold num_or. destruct (Qeq_bool x 0) eqn:E; [|reflexivity].
  apply Qeq_bool_eq in E. contradiction.
Qed.

Lemma num_or_zero_nonzero (x : Q) : ~ num_or x 0 == 0 <-> ~ x == 0.
Proof. now rewrite num_or_Qeq. Qed.

Lemma div_some_inv (a b q : Q) : div a b = Some q -> ~ b == 0 /\ q = a / b.
Proof.
  unfold div. destruct (Qeq_bool b 0) eqn:E; [discriminate|].
  intros H. injection H as <-. split; [now apply Qeq_bool_neq | reflexivity].
Qed.

Lemma Qfloor_plus_half (k : Z) : Qfloor (inject_Z k + (1 # 2)) = k.
Proof.
  pose proof (Qfloor_le (inject_Z k + (1 # 2))) as Hle.
  pose proof (Qlt_floor (inject_Z k + (1 # 2))) as Hlt.
  set (f := Qfloor (inject_Z k + (1 # 2))) in *.
  rewrite inject_Z_plus in Hlt. change (inject_Z 1) with 1 in Hlt.
  destruct (Z.lt_trichotomy f k) as [H | [H | H]]; [|assumption|].
  - exfalso. assert (H' : (f + 1 <= k)%Z) by lia.
    rewrite Zle_Qle, inject_Z_plus in H'. change (inject_Z 1) with 1 in H'. lra.
  - exfalso. assert (H' : (k + 1 <= f)%Z) by lia.
    rewrite Zle_Qle, inject_Z_plus in H'. change (inject_Z 1) with 1 in H'. lra.
Qed.

Lemma Math_round_mono (x y : Q) : x <= y -> (Math_round x <= Math_round y)%Z.
Proof. intros H. unfold Math_round. apply Qfloor_resp_le. lra. Qed.

Lemma round2_mono (x y : Q) : x <= y -> round2 x <= round2 y.
Proof.
  intros H. unfold round2.
  assert (Hz : (Math_round (x * 100) <= Math_round (y * 100))%Z)
    by (apply Math_round_mono; lra).
  rewrite Zle_Qle in Hz. unfold Qdiv. apply Qmult_le_compat_r; [exact Hz|].
  discriminate.
Qed.

(** Rounding to two decimals leaves a rounded number as it is. *)
Lemma round2_fixed (x : Q) : round2 (round2 x) == round2 x.
Proof.
  unfold round2 at 1. unfold Math_round at 1.
  assert (E : round2 x * 100 + (1 # 2) == inject_Z (Math_round (x * 100)) + (1 # 2)).
  { unfold round2. field. }
  rewrite (Qfloor_comp _ _ E), Qfloor_plus_half. reflexivity.
Qed.

Lemma round2_nonneg (x : Q) : 0 <= x -> 0 <= round2 x.
Proof.
  intros H. apply Qle_trans with (round2 0); [discriminate | now apply round2_mono].
Qed.

Lemma scale_pos (d : nat) : 0 < inject_Z (10 ^ Z.of_nat d).
Proof.
  change 0 with (inject_Z 0). rewrite <- Zlt_Qlt. apply Z.pow_pos_nonneg; lia.
Qed.

Lemma fixedMagnitude_mono (d : nat) (a b : Q) :
  a <= b -> fixedMagnitude d a <= fixedMagnitude d b.
Proof.
  intros H. unfold fixedMagnitude. pose proof (scale_pos d) as Hs.
  set (s := inject_Z (10 ^ Z.of_nat d)) in *.
  assert (Hz : (Qfloor (a * s + (1 # 2)) <= Qfloor (b * s + (1 # 2)))%Z).
  { apply Qfloor_resp_le. nra. }
  rewrite Zle_Qle in Hz. unfold Qdiv. apply Qmult_le_compat_r; [exact Hz|].
  apply Qlt_le_weak. now apply Qinv_lt_0_compat.
Qed.

Lemma fixedMagnitude_nonneg (d : nat) (a : Q) : 0 <= a -> 0 <= fixedMagnitude d a.
Proof.
  intros H. unfold fixedMagnitude. pose proof (scale_pos d) as Hs.
  set (s := inject_Z (10 ^ Z.of_nat d)) in *.
  assert (Hz : (0 <= Qfloor (a * s + (1 # 2)))%Z).
  { change 0%Z with (Qfloor 0). apply Qfloor_resp_le. nra. }
  rewrite Zle_Qle in Hz. apply Qle_shift_div_l; [exact Hs|]. now rewrite Qmult_0_l.
Qed.

Lemma toFixed_cases (d : nat) (x : Q) :
  toFixed d x = if Qltb x 0 then - fixedMagnitude d (Qabs x) else fixedMagnitude d (Qabs x).
Proof. reflexivity. Qed.

(** [toFixed] keeps the order of its arguments. *)
Lemma toFixed_mono (d : nat) (x y : Q) : x <= y -> toFixed d x <= toFixed d y.
Proof.
  intros H. rewrite !toFixed_cases.
  pose proof (fixedMagnitude_nonneg d (Qabs x) (Qabs_nonneg x)) as Hx.
  pose proof (fixedMagnitude_nonneg d (Qabs y) (Qabs_nonneg y)) as Hy.
  destruct (Qltb x 0) eqn:Ex; destruct (Qltb y 0) eqn:Ey.
  - apply Qltb_lt in Ex, Ey. apply Qopp_le_compat. apply fixedMagnitude_mono.
    rewrite (Qabs_neg x), (Qabs_neg y) by lra. lra.
  - lra.
  - apply Qltb_lt in Ey. unfold Qltb in Ex. apply Qgtb_le in Ex. lra.
  - unfold Qltb in Ex, Ey. apply Qgtb_le in Ex, Ey. apply fixedMagnitude_mono.
    rewrite (Qabs_pos x), (Qabs_pos y) by lra. exact H.
Qed.

End RoundingFacts.

(** ** The market-data service: prices, mock histories, trends *)

Section MoralisServiceFacts.
Import JS Types MoralisService.
Local Open Scope Q_scope.

(** *** The two price tables *)

Lemma lookup_or_positive (table : list (string * Q)) (key : string) (d : Q) :
  Forall (fun entry => 0 < snd entry) table -> 0 < d ->
  0 < lookup_or table key d.
Proof.
  intros Ht Hd. unfold lookup_or.
  destruct (lookup table key) as [v|] eqn:E; [|assumption].
  apply lookup_In in E. rewrite Forall_forall in Ht. specialize (Ht _ E). simpl in Ht.
  unfold num_or. now destruct (Qeq_bool v 0).
Qed.

Lemma getBasePrice_pos (token : string) : 0 < getBasePrice token.
Proof.
  apply lookup_or_positive; [|reflexivity].
  unfold baseTokenPrices. repeat constructor.
Qed.

(** A key that is none of the keys of a table misses it. *)
Local Ltac miss :=
  repeat match goal with
         | |- context [String.eqb ?k ?x] =>
             rewrite (proj2 (String.eqb_neq k x)) by congruence
         end.

(** For a lower-case token the fallback table, read through the symbol map,
    and the base-price table give the same price. *)
Lemma fallback_matches_base (L : string) :
  toLowerCase L = L ->
  lookup_or estimatedPrices
    (match lookup tokenSymbols L with
     | Some s => if String.eqb s "" then toUpperCase L else s
     | None => toUpperCase L
     end) 100
  = lookup_or baseTokenPrices L 100.
Proof.
  intros HL.
  destruct (string_dec L "bitcoin") as [->|N1]; [reflexivity|].
  destruct (string_dec L "btc") as [->|N2]; [reflexivity|].
  destruct (string_dec L "ethereum") as [->|N3]; [reflexivity|].
  destruct (string_dec L "eth") as [->|N4]; [reflexivity|].
  destruct (string_dec L "solana") as [->|N5]; [reflexivity|].
  destruct (string_dec L "sol") as [->|N6]; [reflexivity|].
  destruct (string_dec L "cardano") as [->|N7]; [reflexivity|].
  destruct (string_dec L "ada") as [->|N8]; [reflexivity|].
  destruct (string_dec L "bnb") as [->|N9]; [reflexivity|].
  destruct (string_dec L "xrp") as [->|N10]; [reflexivity|].
  destruct (string_dec L "dogecoin") as [->|N11]; [reflexivity|].
  destruct (string_dec L "doge") as [->|N12]; [reflexivity|].
  destruct (string_dec L "polkadot") as [->|N13]; [reflexivity|].
  destruct (string_dec L "dot") as [->|N14]; [reflexivity|].
  destruct (string_dec L "avalanche") as [->|N15]; [reflexivity|].
  destruct (string_dec L "avax") as [->|N16]; [reflexivity|].
  destruct (string_dec L "litecoin") as [->|N17]; [reflexivity|].
  destruct (string_dec L "ltc") as [->|N18]; [reflexivity|].
  assert (Hup : forall K, toUpperCase L = K -> L = toLowerCase K).
  { intros K E. rewrite <- E, toLowerCase_toUpperCase. now symmetry. }
  assert (U1 : "BTC" <> toUpperCase L) by (intros E; symmetry in E; apply Hup in E; contradiction).
  assert (U2 : "ETH" <> toUpperCase L) by (intros E; symmetry in E; apply Hup in E; contradiction).
  assert (U3 : "SOL" <> toUpperCase L) by (intros E; symmetry in E; apply Hup in E; contradiction).
  assert (U4 : "ADA" <> toUpperCase L) by (intros E; symmetry in E; apply Hup in E; contradiction).
  assert (U5 : "BNB" <> toUpperCase L) by (intros E; symmetry in E; apply Hup in E; contradiction).
  assert (U6 : "XRP" <> toUpperCase L) by (intros E; symmetry in E; apply Hup in E; contradiction).
  assert (U7 : "DOGE" <> toUpperCase L) by (intros E; symmetry in E; apply Hup in E; contradiction).
  assert (U8 : "DOT" <> toUpperCase L) by (intros E; symmetry in E; apply Hup in E; contradiction).
  assert (U9 : "AVAX" <> toUpperCase L) by (intros E; symmetry in E; apply Hup in E; contradiction).
  assert (U10 : "LTC" <> toUpperCase L) by (intros E; symmetry in E; apply Hup in E; contradiction).
  unfold lookup_or, tokenSymbols, baseTokenPrices, estimatedPrices, lookup.
  miss. reflexivity.
Qed.

Lemma fallbackPrice_base (token : string) : fallbackPrice token = getBasePrice token.
Proof.
  unfold fallbackPrice, getBasePrice.
  rewrite <- (toUpperCase_toLowerCase token).
  apply fallback_matches_base. apply toLowerCase_idem.
Qed.

Lemma getTokenPrice_cases
  (Json : Type) (usd_of : Json -> string -> option Q)
  (net : Network Json) (token : string) :
  exists price,
    getTokenPrice usd_of net token = Returned price
    /\ ~ price == 0
    /\ (price = fallbackPrice token
        \/ exists response data,
             net (SimplePrice (toLowerCase token)) = Returned response
             /\ ok response = true
             /\ json response = Returned data
             /\ usd_of data (toLowerCase token) = Some price).
Proof.
  assert (Hfb : ~ fallbackPrice token == 0).
  { rewrite fallbackPrice_base. pose proof (getBasePrice_pos token). lra. }
  unfold getTokenPrice, tryTokenPrice.
  destruct (net (SimplePrice (toLowerCase token))) as [response|e] eqn:En;
    [|exists (fallbackPrice token); auto].
  destruct (ok response) eqn:Eok; cbn [negb];
    [|exists (fallbackPrice token); auto].
  destruct (json response) as [data|e] eqn:Ej;
    [|exists (fallbackPrice token); auto].
  destruct (usd_of data (toLowerCase token)) as [price|] eqn:Eu;
    [|exists (fallbackPrice token); auto].
  destruct (Qeq_bool price 0) eqn:Ez;
    [exists (fallbackPrice token); auto|].
  exists price. split; [reflexivity|]. split; [now apply Qeq_bool_neq|].
  right. exists response, data. auto.
Qed.

(** X1. Whatever the network answers, [getTokenPrice] resolves, never
    rejects, and never with the price 0: it resolves with the fallback price
    of the token, or with the price found under the lower-cased token in the
    body of a successful response. *)
Theorem getTokenPrice_resolves_nonzero
  (Json : Type) (usd_of : Json -> string -> option Q)
  (net : Network Json) (token : string) :
  exists price,
    getTokenPrice usd_of net token = Returned price
    /\ ~ price == 0
    /\ (price = fallbackPrice token
        \/ exists response data,
             net (SimplePrice (toLowerCase token)) = Returned response
             /\ ok response = true
             /\ json response = Returned data
             /\ usd_of data (toLowerCase token) = Some price).
Proof. apply getTokenPrice_cases. Qed.

(** X2. For a token whose lower-cased name is not one every object
    inherits ("constructor", "__proto__"), the price [getTokenPrice] falls
    back to (the table of estimated prices, read through the symbol map or
    the upper-cased token, 100 for an unknown token) is the base price
    [getBasePrice] gives for the same token, whatever its letter case: the
    two tables of the service agree. *)
Theorem fallbackPrice_is_base_price (token : string) :
  inherited (toLowerCase token) = false ->
  fallbackPrice token = getBasePrice token.
Proof. intros _. apply fallbackPrice_base. Qed.

Lemma fallbackPrice_is_base_price_witness :
  fallbackPrice "Dogecoin" = getBasePrice "Dogecoin".
Proof. apply (fallbackPrice_is_base_price "Dogecoin"). reflexivity. Defined.

(** X3. For a token whose lower-cased name is not one every object
    inherits, [getBasePrice] is positive (100 for an unknown token) and
    does not depend on the letter case of the token. *)
Theorem getBasePrice_positive_any_case (token : string) :
  inherited (toLowerCase token) = false ->
  0 < getBasePrice token
  /\ getBasePrice (toUpperCase token) = getBasePrice token
  /\ getBasePrice (toLowerCase token) = getBasePrice token.
Proof.
  intros _. split; [apply getBasePrice_pos|]. unfold getBasePrice.
  now rewrite toLowerCase_toUpperCase, toLowerCase_idem.
Qed.

Lemma getBasePrice_positive_any_case_witness :
  0 < getBasePrice "Bitcoin"
  /\ getBasePrice (toUpperCase "Bitcoin") = getBasePrice "Bitcoin"
  /\ getBasePrice (toLowerCase "Bitcoin") = getBasePrice "Bitcoin".
Proof. apply (getBasePrice_positive_any_case "Bitcoin"). reflexivity. Defined.

(** *** The mock history *)

Lemma mockPricePoint_run (now : Z) (base vol : Q) (days i : nat) (g : draws) (n : nat) :
  mockPricePoint now base vol days i g n
  = (mkPricePoint (now - Z.of_nat i * ms_per_day)%Z
       (base
        * (1 + (inject_Z (Z.of_nat (days - i)) / inject_Z (Z.of_nat days)) * (1 # 10))
        * (1 + ((g n - (1 # 2)) * vol * 2))),
     S n).
Proof. reflexivity. Qed.

Lemma mockPricePoint_snd (now : Z) (base vol : Q) (days : nat) (i : nat) (g : draws) (n : nat) :
  snd (mockPricePoint now base vol days i g n) = S n.
Proof. reflexivity. Qed.

(** The share of the period that has passed at the point [i] days back. *)
Lemma elapsed_share (days i : nat) :
  (0 < days)%nat -> (i <= days)%nat ->
  0 <= inject_Z (Z.of_nat (days - i)) / inject_Z (Z.of_nat days)
  /\ inject_Z (Z.of_nat (days - i)) / inject_Z (Z.of_nat days) <= 1.
Proof.
  intros Hd Hi.
  assert (Hpos : 0 < inject_Z (Z.of_nat days)).
  { change 0 with (inject_Z 0). rewrite <- Zlt_Qlt. lia. }
  split.
  - apply Qle_shift_div_l; [assumption|]. rewrite Qmult_0_l.
    change 0 with (inject_Z 0). rewrite <- Zle_Qle. lia.
  - apply Qle_shift_div_r; [assumption|]. rewrite Qmult_1_l.
    rewrite <- Zle_Qle. lia.
Qed.

Lemma mock_value_bounds (base vol t r : Q) :
  0 < base -> 0 <= vol -> vol <= 1 -> 0 <= t -> t <= 1 -> 0 <= r -> r < 1 ->
  base * (1 - vol) <= base * (1 + t * (1 # 10)) * (1 + ((r - (1 # 2)) * vol * 2))
  /\ base * (1 + t * (1 # 10)) * (1 + ((r - (1 # 2)) * vol * 2))
     <= base * (11 # 10) * (1 + vol).
Proof.
  intros Hb Hv0 Hv1 Ht0 Ht1 Hr0 Hr1.
  set (A := 1 + t * (1 # 10)). set (B := 1 + ((r - (1 # 2)) * vol * 2)).
  assert (HA : 1 <= A /\ A <= 11 # 10) by (unfold A; split; lra).
  assert (HB : 1 - vol <= B /\ B <= 1 + vol) by (unfold B; split; nra).
  assert (HB0 : 0 <= B) by lra.
  destruct HA as [HA1 HA2]. destruct HB as [HB1 HB2].
  assert (HbA : base <= base * A) by nra.
  assert (HbA2 : base * A <= base * (11 # 10)) by nra.
  split.
  - apply Qle_trans with (base * B); [nra|]. nra.
  - apply Qle_trans with (base * (11 # 10) * B); [nra|]. nra.
Qed.

Lemma rev_seq_head (days : nat) :
  rev (seq 0 (S days)) = days :: rev (seq 0 days).
Proof. rewrite seq_S, rev_app_distr. reflexivity. Qed.

Lemma rev_seq_last (days : nat) :
  rev (seq 0 (S days)) = (rev (seq 1 days) ++ [0%nat])%list.
Proof. reflexivity. Qed.

Lemma first_value_mockHistory (now : Z) (base vol : Q) (days : nat) (g : draws) (n : nat) :
  first_value (fst (mockHistory now base vol days g n))
  = num_or (value (fst (mockPricePoint now base vol days days g n))) 0.
Proof.
  unfold mockHistory. rewrite rev_seq_head, mapM_cons_run. reflexivity.
Qed.

Lemma last_value_mockHistory (now : Z) (base vol : Q) (days : nat) (g : draws) (n : nat) :
  last_value (fst (mockHistory now base vol days g n))
  = num_or (value (fst (mockPricePoint now base vol days 0 g (days + n)%nat))) 0.
Proof.
  unfold mockHistory. rewrite rev_seq_last, mapM_app_run. cbn [fst].
  rewrite (mapM_one_draw (mockPricePoint now base vol days) (rev (seq 1 days)) g n
             (mockPricePoint_snd now base vol days)).
  rewrite length_rev, length_seq.
  unfold last_value. rewrite rev_app_distr. reflexivity.
Qed.

Lemma mockHistory_length (now : Z) (base vol : Q) (days : nat) (g : draws) (n : nat) :
  List.length (fst (mockHistory now base vol days g n)) = S days.
Proof. unfold mockHistory. now rewrite mapM_length, length_rev, length_seq. Qed.

Lemma mockHistory_snd (now : Z) (base vol : Q) (days : nat) (g : draws) (n : nat) :
  snd (mockHistory now base vol days g n) = (S days + n)%nat.
Proof.
  unfold mockHistory.
  rewrite (mapM_one_draw (mockPricePoint now base vol days) (rev (seq 0 (S days))) g n
             (mockPricePoint_snd now base vol days)).
  now rewrite length_rev, length_seq.
Qed.

Lemma mockHistory_timestamps (now : Z) (base vol : Q) (days : nat) (g : draws) (n : nat) :
  map timestamp (fst (mockHistory now base vol days g n))
  = map (fun i => (now - Z.of_nat i * ms_per_day)%Z) (rev (seq 0 (S days))).
Proof.
  apply Forall2_map_eq. unfold mockHistory. apply mapM_Forall.
  intros i m _. reflexivity.
Qed.

Lemma mockHistory_bounds (now : Z) (base vol : Q) (days : nat) (g : draws) (n : nat) :
  valid_draws g -> (0 < days)%nat -> 0 < base -> 0 <= vol -> vol <= 1 ->
  Forall (fun point => base * (1 - vol) <= value point
                       /\ value point <= base * (11 # 10) * (1 + vol))
         (fst (mockHistory now base vol days g n)).
Proof.
  intros Hg Hd Hb Hv0 Hv1.
  apply (Forall2_right _ (rev (seq 0 (S days)))).
  unfold mockHistory. apply mapM_Forall. intros i m Hi.
  rewrite mockPricePoint_run. cbn [fst value].
  apply in_rev, in_seq in Hi.
  destruct (elapsed_share days i Hd ltac:(lia)) as [Ht0 Ht1].
  destruct (Hg m) as [Hr0 Hr1].
  now apply mock_value_bounds.
Qed.

(** The two ends of a 14-day mock history. *)
Lemma mock_ends (base vol r1 r2 : Q) :
  0 < base -> 0 <= vol -> vol <= (3 # 100) ->
  0 <= r1 -> r1 < 1 -> 0 <= r2 -> r2 < 1 ->
  let first := base * (1 + (inject_Z (Z.of_nat (14 - 14)) / inject_Z (Z.of_nat 14)) * (1 # 10))
               * (1 + ((r1 - (1 # 2)) * vol * 2)) in
  let last := base * (1 + (inject_Z (Z.of_nat (14 - 0)) / inject_Z (Z.of_nat 14)) * (1 # 10))
              * (1 + ((r2 - (1 # 2)) * vol * 2)) in
  0 < first /\ 0 < last /\ (95 # 100) * first < last
  /\ (vol <= (2 # 100) -> (105 # 100) * first < last).
Proof.
  intros Hb Hv0 Hv1 Hr10 Hr11 Hr20 Hr21.
  assert (E0 : inject_Z (Z.of_nat (14 - 14)) / inject_Z (Z.of_nat 14) == 0) by reflexivity.
  assert (E1 : inject_Z (Z.of_nat (14 - 0)) / inject_Z (Z.of_nat 14) == 1) by reflexivity.
  cbv zeta. rewrite E0, E1.
  set (u1 := 1 + ((r1 - (1 # 2)) * vol * 2)).
  set (u2 := 1 + ((r2 - (1 # 2)) * vol * 2)).
  assert (Hu1 : 1 - vol <= u1 /\ u1 <= 1 + vol) by (unfold u1; split; nra).
  assert (Hu2 : 1 - vol <= u2 /\ u2 <= 1 + vol) by (unfold u2; split; nra).
  destruct Hu1 as [Hu1a Hu1b]. destruct Hu2 as [Hu2a Hu2b].
  repeat split.
  - nra.
  - nra.
  - assert (0 < (11 # 10) * u2 - (95 # 100) * u1) by lra. nra.
  - intros Hv2. assert (0 < (11 # 10) * u2 - (105 # 100) * u1) by lra. nra.
Qed.

Lemma mockHistory14_ends (now : Z) (base vol : Q) (g : draws) (n : nat) :
  valid_draws g -> 0 < base -> 0 <= vol -> vol <= (3 # 100) ->
  let h := fst (mockHistory now base vol 14 g n) in
  0 < first_value h
  /\ (95 # 100) * first_value h < last_value h
  /\ (vol <= (2 # 100) -> (105 # 100) * first_value h < last_value h).
Proof.
  intros Hg Hb Hv0 Hv1 h. unfold h.
  rewrite first_value_mockHistory, last_value_mockHistory, !mockPricePoint_run.
  cbn [fst value].
  destruct (Hg n) as [Hr10 Hr11]. destruct (Hg (14 + n)%nat) as [Hr20 Hr21].
  destruct (mock_ends base vol (g n) (g (14 + n)%nat) Hb Hv0 Hv1 Hr10 Hr11 Hr20 Hr21)
    as [Hf [Hl [H95 H105]]].
  rewrite !num_or_nonzero by lra. auto.
Qed.

(** *** The trend *)

Lemma trendOf_up (x : Q) : trendOf x = "up" <-> 5 < x.
Proof.
  unfold trendOf. rewrite <- Qgtb_lt.
  destruct (Qgtb x 5); [tauto|].
  destruct (Qltb x (- 5)); split; discriminate.
Qed.

Lemma trendOf_down (x : Q) : trendOf x = "down" <-> x < - 5.
Proof.
  unfold trendOf. destruct (Qgtb x 5) eqn:E.
  - apply Qgtb_lt in E. split; [discriminate | intros; lra].
  - rewrite <- Qltb_lt. destruct (Qltb x (- 5)); split; (reflexivity || discriminate || tauto).
Qed.

Lemma relative_change (recent past : Q) :
  0 < past ->
  (5 < (recent - past) / past * 100 <-> (105 # 100) * past < recent)
  /\ ((recent - past) / past * 100 < - 5 <-> recent < (95 # 100) * past).
Proof.
  intros Hp.
  set (q := (recent - past) / past).
  assert (Hq : q * past == recent - past).
  { unfold q. field. lra. }
  split; split; intros H; nra.
Qed.

Lemma percentChange_pos (recent past : Q) :
  0 < past -> percentChange recent past = (recent - past) / past * 100.
Proof. intros H. unfold percentChange. apply Qgtb_lt in H. now rewrite H. Qed.

Lemma percentChange_nonpos (recent past : Q) :
  past <= 0 -> percentChange recent past = 0.
Proof. intros H. unfold percentChange. apply Qgtb_le in H. now rewrite H. Qed.

Lemma trend_from_ends (recent past : Q) :
  0 < past ->
  ((95 # 100) * past < recent -> trendOf (percentChange recent past) <> "down")
  /\ ((105 # 100) * past < recent -> trendOf (percentChange recent past) = "up").
Proof.
  intros Hp. rewrite (percentChange_pos recent past Hp).
  destruct (relative_change recent past Hp) as [Hup Hdown]. split.
  - intros H E. apply trendOf_down in E. apply Hdown in E. lra.
  - intros H. apply trendOf_up. now apply Hup.
Qed.

(** X4. For a positive number of days whose dates, counted back from now,
    are valid times, [getHistoricalPrices] does not reject.  Either the
    fetch gave a history, which is returned without a call of
    [Math.random()], or the function returns a mock history of [days + 1]
    points, built with [days + 1] random draws. *)
Theorem getHistoricalPrices_resolves_on_valid_dates
  (Json : Type) (prices_of : Json -> option (list (Z * Q)))
  (now : Z) (net : Network Json) (token : string) (days : nat)
  (g : draws) (n : nat) :
  (0 < days)%nat ->
  mock_dates_valid now days = true ->
  (exists fetched,
      tryHistoricalPrices prices_of net token days = Returned fetched
      /\ getHistoricalPrices prices_of now net token days g n = (Returned fetched, n))
  \/ (exists error mock,
         tryHistoricalPrices prices_of net token days = Threw error
         /\ getHistoricalPrices prices_of now net token days g n
            = (Returned mock, (S days + n)%nat)
         /\ List.length mock = S days).
Proof.
  intros _ _. unfold getHistoricalPrices.
  destruct (tryHistoricalPrices prices_of net token days) as [fetched|error].
  - left. exists fetched. split; reflexivity.
  - right. exists error, (fst (mockHistory now (getBasePrice token) (3 # 100) days g n)).
    split; [reflexivity|]. split.
    + rewrite bind_run, mockHistory_snd. reflexivity.
    + apply mockHistory_length.
Qed.

Lemma getHistoricalPrices_resolves_on_valid_dates_witness :
  exists error mock,
    tryHistoricalPrices noPrices deadNetwork "Bitcoin" 14 = Threw error
    /\ getHistoricalPrices noPrices 0 deadNetwork "Bitcoin" 14 drawsHigh 0%nat
       = (Returned mock, 15%nat)
    /\ List.length mock = 15%nat.
Proof.
  destruct (getHistoricalPrices_resolves_on_valid_dates unit noPrices 0%Z deadNetwork
              "Bitcoin" 14 drawsHigh 0%nat ltac:(lia) eq_refl)
    as [[fetched [E _]] | H].
  - discriminate E.
  - exact H.
Defined.

(** X5. With draws in [0, 1), a positive number of days whose dates are
    valid times and a token whose lower-cased name is not one every object
    inherits, every value of the mock history [getHistoricalPrices]
    generates when the fetch fails lies between 0.97 and 1.133 times the
    base price of the token (a rise of up to 10 percent over the period,
    3 percent volatility). *)
Theorem mock_history_within_base_band
  (Json : Type) (prices_of : Json -> option (list (Z * Q)))
  (now : Z) (net : Network Json) (token : string) (days : nat)
  (g : draws) (n : nat) (error : Error) :
  valid_draws g -> (0 < days)%nat ->
  mock_dates_valid now days = true ->
  inherited (toLowerCase token) = false ->
  tryHistoricalPrices prices_of net token days = Threw error ->
  exists mock,
    fst (getHistoricalPrices prices_of now net token days g n) = Returned mock
    /\ Forall (fun point =>
                 getBasePrice token * (97 # 100) <= value point
                 /\ value point <= getBasePrice token * (1133 # 1000))
              mock.
Proof.
  intros Hg Hd _ _ E. unfold getHistoricalPrices. rewrite E, bind_run.
  eexists. split; [reflexivity|].
  pose proof (mockHistory_bounds now (getBasePrice token) (3 # 100) days g n Hg Hd
                (getBasePrice_pos token) ltac:(lra) ltac:(lra)) as H.
  eapply Forall_impl; [|exact H]. intros point [H1 H2]. cbv beta. split; lra.
Qed.

Lemma mock_history_within_base_band_witness :
  exists mock,
    fst (getHistoricalPrices noPrices 0 deadNetwork "Bitcoin" 14 drawsHigh 0%nat)
    = Returned mock
    /\ Forall (fun point =>
                 getBasePrice "Bitcoin" * (97 # 100) <= value point
                 /\ value point <= getBasePrice "Bitcoin" * (1133 # 1000))
              mock.
Proof.
  apply (mock_history_within_base_band unit noPrices 0%Z deadNetwork "Bitcoin" 14
           drawsHigh 0%nat (mkError "Failed to fetch")).
  - exact drawsHigh_valid.
  - lia.
  - reflexivity.
  - reflexivity.
  - reflexivity.
Defined.

(** X6. With draws in [0, 1), dates that are valid times and an asset
    whose lower-cased name is not one every object inherits, the trend of a
    fallback feed is "up": its 15 mock points rise by 10 percent over the
    period with 2 percent volatility, so the last value is more than
    5 percent above the first.  Its current value is the base price of the
    asset, and building it takes 15 random draws. *)
Theorem createFallbackDataFeed_trend_up (now : Z) (asset : string) (g : draws) (n : nat) :
  valid_draws g ->
  mock_dates_valid now 14 = true ->
  inherited (toLowerCase asset) = false ->
  let feed := fst (createFallbackDataFeed now asset g n) in
  trend feed = "up"
  /\ current_value feed = getBasePrice asset
  /\ List.length (historical feed) = 15%nat
  /\ snd (createFallbackDataFeed now asset g n) = (15 + n)%nat.
Proof.
  intros Hg _ _ feed. unfold feed, createFallbackDataFeed. rewrite bind_run.
  unfold ret. cbn [fst snd trend current_value historical].
  destruct (mockHistory14_ends now (getBasePrice asset) (2 # 100) g n Hg
              (getBasePrice_pos asset) ltac:(lra) ltac:(lra)) as [Hf [_ H105]].
  split; [|split; [reflexivity|split; [apply mockHistory_length | apply mockHistory_snd]]].
  apply trend_from_ends; [assumption|]. apply H105. lra.
Qed.

Lemma createFallbackDataFeed_trend_up_witness :
  trend (fst (createFallbackDataFeed 0 "Dogecoin" drawsHigh 0%nat)) = "up"
  /\ current_value (fst (createFallbackDataFeed 0 "Dogecoin" drawsHigh 0%nat))
     = getBasePrice "Dogecoin".
Proof.
  pose proof (createFallbackDataFeed_trend_up 0%Z "Dogecoin" drawsHigh 0%nat
                drawsHigh_valid eq_refl eq_refl) as H.
  cbv zeta in H. destruct H as [H1 [H2 _]]. split; [exact H1 | exact H2].
Defined.

(** *** The loop over the assets *)

Lemma forAssets_Forall2
  (tokenPrice : string -> Rand (outcome Error Q))
  (historicalPrices : string -> Rand (outcome Error (list PricePoint)))
  (P : string -> DataFeed -> Prop) (now : Z) (g : draws) :
  (forall acc asset n,
      exists feed,
        fst (processAsset tokenPrice historicalPrices now acc asset g n)
        = (acc ++ [feed])%list
        /\ P asset feed) ->
  forall assets acc n,
  exists feeds,
    fst (forAssets tokenPrice historicalPrices now acc assets g n) = (acc ++ feeds)%list
    /\ Forall2 P assets feeds.
Proof.
  intros Hstep assets. induction assets as [|asset rest IH]; intros acc n; simpl.
  - exists []. split; [now rewrite app_nil_r | constructor].
  - rewrite bind_run. destruct (Hstep acc asset n) as [feed [E Hf]]. rewrite E.
    destruct (IH (acc ++ [feed])%list
                 (snd (processAsset tokenPrice historicalPrices now acc asset g n)))
      as [feeds [E' Hfs]].
    exists (feed :: feeds). split; [|now constructor].
    rewrite E', <- app_assoc. reflexivity.
Qed.

Lemma tryAsset_returned
  (tokenPrice : string -> Rand (outcome Error Q))
  (historicalPrices : string -> Rand (outcome Error (list PricePoint)))
  (now : Z) (asset : string) (g : draws) (n n1 n2 : nat) (p : Q) (h : list PricePoint) :
  tokenPrice asset g n = (Returned p, n1) ->
  historicalPrices asset g n1 = (Returned h, n2) ->
  tryAsset tokenPrice historicalPrices now asset g n
  = (Returned
       (mkDataFeed (toLowerCase asset) (displayName asset) p now
          (if (5 <? List.length h)%nat
           then trendOf (percentChange (last_value h) (first_value h))
           else "stable")
          h),
     n2).
Proof.
  intros Hp Hh. unfold tryAsset, bind. rewrite Hp, Hh. reflexivity.
Qed.

Lemma processAsset_returned
  (tokenPrice : string -> Rand (outcome Error Q))
  (historicalPrices : string -> Rand (outcome Error (list PricePoint)))
  (now : Z) (acc : list DataFeed) (asset : string) (g : draws) (n n' : nat)
  (feed : DataFeed) :
  tryAsset tokenPrice historicalPrices now asset g n = (Returned feed, n') ->
  processAsset tokenPrice historicalPrices now acc asset g n
  = ((acc ++ [feed])%list, n').
Proof.
  intros H. unfold processAsset, bind. rewrite H. reflexivity.
Qed.

Lemma getMarketDataFeeds_serviced
  (Json : Type) (usd_of : Json -> string -> option Q)
  (prices_of : Json -> option (list (Z * Q)))
  (now : Z) (net : Network Json) (assets : list string) (g : draws) (n : nat) :
  valid_draws g ->
  exists feeds,
    fst (getMarketDataFeeds usd_of prices_of now net assets g n) = Returned feeds
    /\ Forall2 (serviced_feed prices_of net) assets feeds.
Proof.
  intros Hg. unfold getMarketDataFeeds, getMarketDataFeeds_with. rewrite bind_run.
  destruct (forAssets_Forall2
              (fun asset => ret (getTokenPrice usd_of net asset))
              (fun asset => getHistoricalPrices prices_of now net asset 14)
              (serviced_feed prices_of net) now g)
    with (assets := assets) (acc := @nil DataFeed) (n := n) as [feeds [E H]].
  - intros acc asset m.
    destruct (getTokenPrice_cases Json usd_of net asset) as [price [Ep [Hnz _]]].
    assert (Hp : ret (getTokenPrice usd_of net asset) g m = (Returned price, m))
      by (unfold ret; now rewrite Ep).
    unfold serviced_feed, feed_for.
    destruct (tryHistoricalPrices prices_of net asset 14) as [fetched|error] eqn:Et.
    + assert (Eg : getHistoricalPrices prices_of now net asset 14 g m
                   = (Returned fetched, m))
        by (unfold getHistoricalPrices; now rewrite Et).
      rewrite (processAsset_returned _ _ now acc asset g m _ _
                 (tryAsset_returned
                    (fun asset => ret (getTokenPrice usd_of net asset))
                    (fun asset => getHistoricalPrices prices_of now net asset 14)
                    now asset g m m m price fetched Hp Eg)).
      eexists. split; [reflexivity|]. cbn [feed_id name trend current_value historical].
      split; [|split; [exact Hnz | intros error He; discriminate He]].
      split; [reflexivity|]. split; [reflexivity|].
      destruct (5 <? List.length fetched)%nat; [apply trendOf_closed | simpl; auto].
    + set (mock := fst (mockHistory now (getBasePrice asset) (3 # 100) 14 g m)).
      assert (Eg : getHistoricalPrices prices_of now net asset 14 g m
                   = (Returned mock, (15 + m)%nat)).
      { unfold getHistoricalPrices. rewrite Et, bind_run, mockHistory_snd. reflexivity. }
      rewrite (processAsset_returned _ _ now acc asset g m _ _
                 (tryAsset_returned
                    (fun asset => ret (getTokenPrice usd_of net asset))
                    (fun asset => getHistoricalPrices prices_of now net asset 14)
                    now asset g m m _ price mock Hp Eg)).
      eexists. split; [reflexivity|]. cbn [feed_id name trend current_value historical].
      assert (Hlen : List.length mock = 15%nat) by apply mockHistory_length.
      rewrite Hlen. cbn [Nat.ltb Nat.leb].
      destruct (mockHistory14_ends now (getBasePrice asset) (3 # 100) g m Hg
                  (getBasePrice_pos asset) ltac:(lra) ltac:(lra)) as [Hf [H95 _]].
      fold mock in Hf, H95.
      destruct (trend_from_ends (last_value mock) (first_value mock) Hf) as [Hnd _].
      specialize (Hnd H95).
      pose proof (trendOf_closed (percentChange (last_value mock) (first_value mock))) as Hc.
      split; [split; [reflexivity | split; [reflexivity | exact Hc]]|].
      split; [exact Hnz|]. intros _ _. split; [reflexivity|].
      simpl in Hc. destruct Hc as [Hc | [Hc | [Hc | []]]].
      * left. assumption.
      * symmetry in Hc. contradiction.
      * right. left. assumption.
  - exists feeds. rewrite E. split; [reflexivity | exact H].
Qed.

(** X7. With draws in [0, 1), whatever the network answers,
    [getMarketDataFeeds] resolves with the own feed of each requested
    asset, each with a current value that is not 0; and the feed of an
    asset whose history could not be fetched has the 15 mock points and the
    trend "up" or "stable", never "down". *)
Theorem getMarketDataFeeds_mock_history_never_down
  (Json : Type) (usd_of : Json -> string -> option Q)
  (prices_of : Json -> option (list (Z * Q)))
  (now : Z) (net : Network Json) (assets : list string) (g : draws) (n : nat) :
  valid_draws g ->
  exists feeds,
    fst (getMarketDataFeeds usd_of prices_of now net assets g n) = Returned feeds
    /\ Forall2 (serviced_feed prices_of net) assets feeds.
Proof. apply getMarketDataFeeds_serviced. Qed.

Lemma getMarketDataFeeds_mock_history_never_down_witness :
  exists feeds,
    fst (getMarketDataFeeds noUsd noPrices 0 deadNetwork ["Bitcoin"; "Dogecoin"]
           drawsHigh 0%nat)
    = Returned feeds
    /\ Forall2 (serviced_feed noPrices deadNetwork) ["Bitcoin"; "Dogecoin"] feeds.
Proof.
  apply (getMarketDataFeeds_mock_history_never_down unit noUsd noPrices 0%Z deadNetwork
           ["Bitcoin"; "Dogecoin"] drawsHigh 0%nat).
  exact drawsHigh_valid.
Defined.

(** X8. The trend computed from the two ends of a history: "up" exactly
    when the first value is positive and the last one is more than 5
    percent above it, "down" exactly when the first value is positive and
    the last one is more than 5 percent below it, and "stable" whenever the
    first value is not positive, whatever the last one is. *)
Theorem trend_thresholds (recent past : Q) :
  (trendOf (percentChange recent past) = "up"
   <-> 0 < past /\ (105 # 100) * past < recent)
  /\ (trendOf (percentChange recent past) = "down"
      <-> 0 < past /\ recent < (95 # 100) * past)
  /\ (past <= 0 -> trendOf (percentChange recent past) = "stable").
Proof.
  destruct (Qlt_le_dec 0 past) as [Hp | Hp].
  - rewrite (percentChange_pos recent past Hp), trendOf_up, trendOf_down.
    destruct (relative_change recent past Hp) as [Hup Hdown].
    split; [|split].
    + rewrite Hup. tauto.
    + rewrite Hdown. tauto.
    + intros H. exfalso. lra.
  - rewrite (percentChange_nonpos recent past Hp), trendOf_up, trendOf_down.
    split; [|split].
    + split; [intros H; exfalso; lra | intros [H _]; exfalso; lra].
    + split; [intros H; exfalso; lra | intros [H _]; exfalso; lra].
    + reflexivity.
Qed.

End MoralisServiceFacts.

(** ** The query parser: the order of the result *)

Section QueryOrderFacts.
Import JS QueryParser.

Lemma table_stepsb_Sorted (l : list string) :
  table_stepsb l = true -> Sorted table_step l.
Proof.
  induction l as [|a [|b rest] IH]; intros H.
  - constructor.
  - repeat constructor.
  - cbn [table_stepsb] in H. apply andb_true_iff in H as [H Hrest].
    apply andb_true_iff in H as [Hle Heq].
    constructor; [now apply IH|]. constructor. split.
    + now apply Nat.leb_le.
    + intros E. apply orb_true_iff in Heq as [Hn | Hs].
      * apply negb_true_iff, Nat.eqb_neq in Hn. contradiction.
      * now apply String.eqb_eq.
Qed.

Lemma table_step_trans : Transitive table_step.
Proof.
  intros a b c [H1 E1] [H2 E2]. split; [lia|].
  intros E. assert (tablePosition (pushed a) = tablePosition (pushed b)) by lia.
  assert (tablePosition (pushed b) = tablePosition (pushed c)) by lia.
  rewrite E1, E2; auto.
Qed.

(** The table lists the assets so that the names they stand for come in
    blocks: first everything that stands for Bitcoin, then for Ethereum, ... *)
Lemma commonAssets_steps : StronglySorted table_step commonAssets.
Proof.
  apply Sorted_StronglySorted; [exact table_step_trans|].
  apply table_stepsb_Sorted. vm_compute. reflexivity.
Qed.

Lemma StronglySorted_snoc {A : Type} (R : A -> A -> Prop) (l : list A) (y : A) :
  StronglySorted R l -> (forall x, In x l -> R x y) -> StronglySorted R (l ++ [y]).
Proof.
  induction 1 as [|a l Hl IH Ha]; intros H; simpl.
  - repeat constructor.
  - constructor.
    + apply IH. intros x Hx. apply H. now right.
    + apply Forall_app. split; [assumption|]. constructor; [|constructor].
      apply H. now left.
Qed.

Lemma scan_sorted (nq : string) (l : list string) (acc : list string) :
  StronglySorted before_in_table acc ->
  (forall x a, In x acc -> In a l ->
     (tablePosition x <= tablePosition (pushed a))%nat
     /\ (tablePosition x = tablePosition (pushed a) -> x = pushed a)) ->
  StronglySorted table_step l ->
  StronglySorted before_in_table (fold_left (check_asset nq) l acc).
Proof.
  revert acc. induction l as [|a l IH]; intros acc Hs Hacc Hl; simpl; [assumption|].
  apply StronglySorted_inv in Hl as [Hl Ha]. rewrite Forall_forall in Ha.
  assert (Hkeep : forall x b, In x acc -> In b l ->
            (tablePosition x <= tablePosition (pushed b))%nat
            /\ (tablePosition x = tablePosition (pushed b) -> x = pushed b)).
  { intros x b Hx Hb. apply Hacc; [assumption | now right]. }
  rewrite check_asset_eq. destruct (asset_present nq a); [|now apply IH].
  fold (pushed a). unfold push_unique.
  destruct (array_includes acc (pushed a)) eqn:E; [now apply IH|].
  assert (Hnew : ~ In (pushed a) acc).
  { intros Hin. apply array_includes_In in Hin. congruence. }
  apply IH; [| |assumption].
  - apply StronglySorted_snoc; [assumption|]. intros x Hx. unfold before_in_table.
    destruct (Hacc x a Hx (or_introl eq_refl)) as [Hle Heq].
    destruct (Nat.eq_dec (tablePosition x) (tablePosition (pushed a))) as [E'|N]; [|lia].
    exfalso. apply Hnew. now rewrite <- (Heq E').
  - intros x b Hx Hb. apply in_app_iff in Hx as [Hx | [<- | []]].
    + now apply Hkeep.
    + now apply Ha.
Qed.

Lemma extract_sorted (query : string) :
  StronglySorted before_in_table (extractAssetsFromQuery query).
Proof.
  unfold extractAssetsFromQuery. apply scan_sorted.
  - constructor.
  - intros x a [].
  - exact commonAssets_steps.
Qed.

Lemma sorted_head (l : list string) (name : string) :
  StronglySorted before_in_table l -> In name l -> tablePosition name = 0%nat ->
  hd_error l = Some name.
Proof.
  intros Hs Hin Hpos. destruct l as [|x r]; [destruct Hin|].
  destruct Hin as [-> | Hin]; [reflexivity|].
  apply StronglySorted_inv in Hs as [_ Hx]. rewrite Forall_forall in Hx.
  specialize (Hx name Hin). unfold before_in_table in Hx. lia.
Qed.

(** X9. The assets [extractAssetsFromQuery] returns come in the order of
    the asset table, not in the order in which the query mentions them.  So
    when the query mentions Bitcoin (by name or symbol) the result starts
    with Bitcoin, and the primary asset of the handler, the first asset
    found or Bitcoin when none is, is then Bitcoin whatever else the query
    mentions. *)
Theorem extractAssetsFromQuery_table_order (query : string) :
  StronglySorted before_in_table (extractAssetsFromQuery query)
  /\ (In "Bitcoin" (extractAssetsFromQuery query) ->
      hd_error (extractAssetsFromQuery query) = Some "Bitcoin")
  /\ (In "Bitcoin" (extractAssetsFromQuery query)
      \/ extractAssetsFromQuery query = [] ->
      primaryAssetOf query = "Bitcoin").
Proof.
  pose proof (extract_sorted query) as Hs.
  split; [exact Hs|]. split.
  - intros Hin. now apply sorted_head.
  - unfold primaryAssetOf. intros [Hin | ->]; [|reflexivity].
    pose proof (sorted_head _ "Bitcoin" Hs Hin eq_refl) as Hh.
    destruct (extractAssetsFromQuery query); [discriminate|].
    simpl in Hh. injection Hh as ->. reflexivity.
Qed.

End QueryOrderFacts.

(** ** The indicators on short and on falling series *)

Section IndicatorExtras.
Import JS Types MarketAnalytics.
Local Open Scope Q_scope.

Lemma last_up_to_all {A : Type} (k : nat) (l : list A) :
  (List.length l <= k)%nat -> last_up_to k l = l.
Proof.
  intros H. unfold last_up_to.
  replace (List.length l - k)%nat with 0%nat by lia. reflexivity.
Qed.

(** X10. For a series of 5 to 50 points the two moving averages handed
    over, [ma50] and [ma200], are the same number, the mean of all values of
    the series: both windows hold the whole series. *)
Theorem moving_averages_coincide_up_to_50
  (sqrt : Q -> Q) (feed : DataFeed) (g : draws) (n : nat) :
  (5 <= List.length (historical feed))%nat ->
  (List.length (historical feed) <= 50)%nat ->
  exists ind,
    calculateTechnicalIndicatorsFromHistorical sqrt feed g n = (Some ind, S n)
    /\ ma50 ind = ma200 ind
    /\ ma50 ind == mean (map value (historical feed)).
Proof.
  intros H5 H50.
  destruct (calculate_computed sqrt feed g n H5)
    as [r [m50 [m200 [sma20 [upper [lower [shortMA [longMA [label H]]]]]]]]].
  destruct H as [_ [Hm50 [Hm200 [_ [_ Hcalc]]]]].
  rewrite (movingAverage_some 50 (historical feed)) in Hm50 by lia.
  rewrite (movingAverage_some 200 (historical feed)) in Hm200 by lia.
  rewrite last_up_to_all in Hm50, Hm200 by lia.
  replace (Nat.min 50 (List.length (historical feed)))
    with (List.length (historical feed)) in Hm50 by lia.
  replace (Nat.min 200 (List.length (historical feed)))
    with (List.length (historical feed)) in Hm200 by lia.
  injection Hm50 as <-. injection Hm200 as <-.
  eexists. split; [exact Hcalc|]. cbn [ma50 ma200]. split; [reflexivity|].
  unfold mean. now rewrite sum_values_is_sum, length_map.
Qed.

Lemma moving_averages_coincide_up_to_50_witness :
  exists ind,
    calculateTechnicalIndicatorsFromHistorical floor_sqrt fallingFeed drawsHigh 0%nat
    = (Some ind, 1%nat)
    /\ ma50 ind = ma200 ind
    /\ ma50 ind == mean (map value falling15).
Proof.
  apply (moving_averages_coincide_up_to_50 floor_sqrt fallingFeed drawsHigh 0%nat).
  - simpl. lia.
  - simpl. lia.
Defined.

Lemma filter_nothing {A : Type} (p : A -> bool) (l : list A) :
  Forall (fun x => p x = false) l -> filter p l = [].
Proof.
  induction 1 as [|x l Hx _ IH]; simpl; [reflexivity|]. now rewrite Hx.
Qed.

Lemma rsiOf_no_rise (h : list PricePoint) :
  (0 < List.length h)%nat ->
  Forall (fun change => change <= 0) (priceChanges h) ->
  exists r, rsiOf h = Some r /\ r == 0.
Proof.
  intros Hlen Hflat. unfold rsiOf.
  destruct (averages_guarded h Hlen) as [avgGain [avgLoss [E [_ HavgLoss]]]].
  assert (Hgain : avgGain = 0).
  { unfold averages in E.
    rewrite (filter_nothing (fun change => Qgtb change 0)) in E.
    - rewrite !div_some in E by now apply of_nat_nonzero. cbn [obind] in E.
      injection E as <- _. unfold num_or.
      assert (Hz : sum [] / of_nat (List.length h) == 0).
      { unfold sum. simpl. unfold Qdiv. ring. }
      now rewrite (Qeq_eq_bool _ _ Hz).
    - eapply Forall_impl; [|exact Hflat]. intros c Hc. now apply Qgtb_le. }
  subst avgGain. rewrite E. cbn [obind].
  rewrite div_some by lra. cbn [obind].
  assert (Hrs : 0 / avgLoss == 0) by (unfold Qdiv; ring).
  rewrite div_some by (rewrite Hrs; discriminate). cbn [obind].
  eexists. split; [reflexivity|]. rewrite Hrs. reflexivity.
Qed.

(** X11. For a series of at least 5 points in which no value is above the
    one before it (a flat or falling series) the RSI handed over is 0: a
    flat series is rated like a falling one, not as the neutral 50 of the
    defaults. *)
Theorem rsi_zero_without_rise
  (sqrt : Q -> Q) (feed : DataFeed) (g : draws) (n : nat) :
  (5 <= List.length (historical feed))%nat ->
  Forall (fun change => change <= 0) (priceChanges (historical feed)) ->
  exists ind,
    calculateTechnicalIndicatorsFromHistorical sqrt feed g n = (Some ind, S n)
    /\ rsi ind = 0.
Proof.
  intros H5 Hflat.
  destruct (calculate_computed sqrt feed g n H5)
    as [r [m50 [m200 [sma20 [upper [lower [shortMA [longMA [label H]]]]]]]]].
  destruct H as [Hr [_ [_ [_ [_ Hcalc]]]]].
  destruct (rsiOf_no_rise (historical feed) ltac:(lia) Hflat) as [r' [Hr' Hz]].
  rewrite Hr in Hr'. injection Hr' as <-.
  eexists. split; [exact Hcalc|]. cbn [rsi]. unfold Math_round.
  assert (E : r + (1 # 2) == 1 # 2) by (rewrite Hz; reflexivity).
  rewrite (Qfloor_comp _ _ E). reflexivity.
Qed.

Lemma rsi_zero_without_rise_witness :
  exists ind,
    calculateTechnicalIndicatorsFromHistorical floor_sqrt fallingFeed drawsHigh 0%nat
    = (Some ind, 1%nat)
    /\ rsi ind = 0.
Proof.
  apply (rsi_zero_without_rise floor_sqrt fallingFeed drawsHigh 0%nat).
  - simpl. lia.
  - cbn. repeat (apply Forall_cons; [vm_compute; discriminate|]). apply Forall_nil.
Defined.

End IndicatorExtras.

(** ** The market metrics *)

Section MarketMetricsFacts.
Import JS Types MarketAnalytics.
Local Open Scope Q_scope.

Lemma value_at_cons (data : PricePoint) (h : list PricePoint) (i : nat) :
  value_at (data :: h) (S i) = value_at h i.
Proof. reflexivity. Qed.

Lemma value_at_nonzero (h : list PricePoint) (i : nat) :
  Forall (fun data => ~ value data == 0) h -> (i < List.length h)%nat ->
  ~ value_at h i == 0.
Proof.
  intros Hall Hi. unfold value_at.
  destruct (nth_error h i) as [data|] eqn:E.
  - apply num_or_zero_nonzero. rewrite Forall_forall in Hall. apply Hall.
    eapply nth_error_In. exact E.
  - apply nth_error_None in E. lia.
Qed.

Lemma returnsOf_step (prev cur : PricePoint) (rest : list PricePoint) :
  returnsOf (prev :: cur :: rest)
  = obind (div (num_or (value cur) 0 - num_or (value prev) 0) (num_or (value prev) 0))
      (fun r => obind (returnsOf (cur :: rest)) (fun rs => Some (r :: rs))).
Proof. reflexivity. Qed.

Lemma returnsOf_length (h : list PricePoint) (rs : list Q) :
  returnsOf h = Some rs -> List.length rs = (List.length h - 1)%nat.
Proof.
  revert rs. induction h as [|prev [|cur rest] IH]; intros rs H.
  - injection H as <-. reflexivity.
  - injection H as <-. reflexivity.
  - rewrite returnsOf_step in H.
    destruct (div (num_or (value cur) 0 - num_or (value prev) 0) (num_or (value prev) 0))
      as [r|]; [|discriminate H].
    cbn [obind] in H. destruct (returnsOf (cur :: rest)) as [rs'|]; [|discriminate H].
    cbn [obind] in H. injection H as <-. specialize (IH rs' eq_refl).
    cbn [List.length] in *. lia.
Qed.

(** The loop over the returns completes exactly when no value that serves
    as [prevValue] is 0. *)
Lemma returnsOf_some_iff (h : list PricePoint) :
  (exists rs, returnsOf h = Some rs)
  <-> (forall i, (S i < List.length h)%nat -> ~ value_at h i == 0).
Proof.
  induction h as [|prev [|cur rest] IH].
  - split; [intros _ i Hi; simpl in Hi; lia | intros _; now exists []].
  - split; [intros _ i Hi; simpl in Hi; lia | intros _; now exists []].
  - rewrite returnsOf_step. split.
    + intros [rs H] i Hi.
      destruct (div (num_or (value cur) 0 - num_or (value prev) 0) (num_or (value prev) 0))
        as [r|] eqn:Ed; [|discriminate H].
      cbn [obind] in H.
      destruct (returnsOf (cur :: rest)) as [rs'|] eqn:Er; [|discriminate H].
      destruct i as [|i].
      * apply div_some_inv in Ed as [Hnz _]. exact Hnz.
      * rewrite value_at_cons. apply (proj1 IH); [now exists rs'|].
        cbn [List.length] in *. lia.
    + intros H.
      assert (H0 : ~ num_or (value prev) 0 == 0).
      { apply (H 0%nat). cbn [List.length]. lia. }
      rewrite (div_some _ _ H0). cbn [obind].
      destruct (proj2 IH) as [rs' Er].
      { intros i Hi. rewrite <- (value_at_cons prev). apply H.
        cbn [List.length] in *. lia. }
      rewrite Er. cbn [obind]. eexists. reflexivity.
Qed.

Section WithRoot.

Variable sqrt : Q -> Q.

Lemma volatilityOf_of_returns (h : list PricePoint) (rs : list Q) :
  (2 <= List.length h)%nat -> returnsOf h = Some rs ->
  exists v, volatilityOf sqrt h = Some v /\ In (snd v) ["Low"; "Medium"; "High"].
Proof.
  intros Hlen Er. unfold volatilityOf. rewrite Er. cbn [obind].
  pose proof (returnsOf_length h rs Er) as Hl.
  rewrite div_some by (apply of_nat_nonzero; lia). cbn [obind].
  rewrite length_map.
  rewrite div_some by (apply of_nat_nonzero; lia). cbn [obind].
  eexists. split; [reflexivity|]. cbn [snd].
  destruct (Qgtb _ 5); [simpl; auto|]. destruct (Qgtb _ 2); simpl; auto.
Qed.

Lemma volatilityOf_some_iff (h : list PricePoint) :
  (2 <= List.length h)%nat ->
  (exists v, volatilityOf sqrt h = Some v /\ In (snd v) ["Low"; "Medium"; "High"])
  <-> (forall i, (S i < List.length h)%nat -> ~ value_at h i == 0).
Proof.
  intros Hlen. rewrite <- returnsOf_some_iff. split.
  - intros [v [H _]]. unfold volatilityOf in H.
    destruct (returnsOf h) as [rs|]; [now exists rs | discriminate H].
  - intros [rs Er]. now apply (volatilityOf_of_returns h rs).
Qed.

Lemma volatilityOf_some_closed (h : list PricePoint) (v : Q * string) :
  (2 <= List.length h)%nat -> volatilityOf sqrt h = Some v ->
  forall i, (S i < List.length h)%nat -> ~ value_at h i == 0.
Proof.
  intros Hlen Ev. apply returnsOf_some_iff. unfold volatilityOf in Ev.
  destruct (returnsOf h) as [rs|]; [now exists rs | discriminate Ev].
Qed.

Lemma calculateMarketMetrics_long (feed : DataFeed) (g : draws) (m : nat) :
  (5 <= List.length (historical feed))%nat ->
  let h := historical feed in
  let n := List.length h in
  let latestPrice := value_at h (n - 1) in
  let weekAgoPrice := if (7 <? n)%nat then value_at h (n - 8) else latestPrice in
  let monthAgoPrice := if (30 <? n)%nat then value_at h (n - 31) else latestPrice in
  calculateMarketMetricsFromHistorical sqrt feed g m
  = (obind (div (latestPrice - value_at h (n - 2)) (value_at h (n - 2))) (fun d =>
     obind (div (latestPrice - weekAgoPrice) weekAgoPrice) (fun w =>
     obind (div (latestPrice - monthAgoPrice) monthAgoPrice) (fun mo =>
     obind (volatilityOf sqrt h) (fun v =>
     Some (HistoricalMetrics (toLocaleString (calculateEstimatedMarketCap feed))
             (toFixed 2 (d * 100)) (toFixed 2 (w * 100)) (toFixed 2 (mo * 100))
             (snd v)
             (if includes (toLowerCase (name feed)) "bitcoin"
                 || includes (toLowerCase (name feed)) "ethereum" then "High"
              else if includes (toLowerCase (name feed)) "dogecoin"
                      || includes (toLowerCase (name feed)) "shiba" then "Medium-High"
              else "Medium")
             (if includes (toLowerCase (name feed)) "bitcoin" then "45%"
              else if includes (toLowerCase (name feed)) "ethereum" then "18%"
              else if includes (toLowerCase (name feed)) "bnb" then "4%"
              else if includes (toLowerCase (name feed)) "solana" then "3%"
              else "5%")))))),
     m).
Proof.
  intros H5. cbv zeta. unfold calculateMarketMetricsFromHistorical.
  assert (E5 : (List.length (historical feed) <? 5)%nat = false)
    by (apply Nat.ltb_ge; lia).
  assert (E1 : (1 <? List.length (historical feed))%nat = true)
    by (apply Nat.ltb_lt; lia).
  rewrite E5, E1. reflexivity.
Qed.

End WithRoot.

Lemma ordinary_nonzero (x : Q) : ordinary x -> ~ x == 0.
Proof.
  intros [H _] E. rewrite E in H. vm_compute in H. now apply H.
Qed.

(** X12. For a history of at least 5 points
    [calculateMarketMetricsFromHistorical] meets no zero divisor exactly
    when every value but the last is not 0 and, for a history of at most 30
    points, the last value is not 0 either.  Unlike the RSI and the trend,
    the percentage changes and the returns divide by earlier prices
    without a guard. *)
Theorem market_metrics_result_iff
  (sqrt : Q -> Q) (feed : DataFeed) (g : draws) (m : nat) :
  (5 <= List.length (historical feed))%nat ->
  let h := historical feed in
  fst (calculateMarketMetricsFromHistorical sqrt feed g m) <> None
  <-> (forall i, (S i < List.length h)%nat -> ~ value_at h i == 0)
      /\ ((List.length h <= 30)%nat -> ~ value_at h (List.length h - 1) == 0).
Proof.
  intros H5 h. unfold h. clear h.
  rewrite (calculateMarketMetrics_long sqrt feed g m H5). cbn [fst].
  set (h := historical feed) in *. set (n := List.length h) in *.
  split.
  - intros H.
    destruct (div (value_at h (n - 1) - value_at h (n - 2)) (value_at h (n - 2)))
      as [d|] eqn:Ed; [|now contradiction H].
    cbn [obind] in H.
    destruct (div _ (if (7 <? n)%nat then _ else _)) as [w|] eqn:Ew;
      [|now contradiction H].
    cbn [obind] in H.
    destruct (div _ (if (30 <? n)%nat then _ else _)) as [mo|] eqn:Em;
      [|now contradiction H].
    cbn [obind] in H.
    destruct (volatilityOf sqrt h) as [v|] eqn:Ev; [|now contradiction H].
    split.
    + apply (volatilityOf_some_closed sqrt h v); [unfold n in H5; lia | exact Ev].
    + intros H30. apply div_some_inv in Em as [Hnz _].
      assert (E30 : (30 <? n)%nat = false) by (apply Nat.ltb_ge; exact H30).
      now rewrite E30 in Hnz.
  - intros [Hprev Hlast].
    assert (Hd : ~ value_at h (n - 2) == 0) by (apply Hprev; unfold n in *; lia).
    assert (Hw : ~ (if (7 <? n)%nat then value_at h (n - 8) else value_at h (n - 1)) == 0).
    { destruct (7 <? n)%nat eqn:E.
      - apply Nat.ltb_lt in E. apply Hprev. unfold n in *. lia.
      - apply Nat.ltb_ge in E. apply Hlast. unfold n in *. lia. }
    assert (Hm : ~ (if (30 <? n)%nat then value_at h (n - 31) else value_at h (n - 1)) == 0).
    { destruct (30 <? n)%nat eqn:E.
      - apply Nat.ltb_lt in E. apply Hprev. unfold n in *. lia.
      - apply Nat.ltb_ge in E. apply Hlast. unfold n in *. lia. }
    rewrite (div_some _ _ Hd), (div_some _ _ Hw), (div_some _ _ Hm). cbn [obind].
    destruct (proj2 (volatilityOf_some_iff sqrt h ltac:(unfold n in H5; lia)) Hprev)
      as [v [Ev _]].
    rewrite Ev. cbn [obind]. discriminate.
Qed.

Lemma market_metrics_result_iff_witness :
  (forall i, (S i < List.length falling15)%nat -> ~ value_at falling15 i == 0)
  /\ ((List.length falling15 <= 30)%nat
      -> ~ value_at falling15 (List.length falling15 - 1) == 0).
Proof.
  apply (market_metrics_result_iff floor_sqrt fallingFeed drawsHigh 0%nat).
  - simpl. lia.
  - vm_compute. discriminate.
Defined.

(** X13. For a history of at least 5 points whose values are of ordinary
    magnitude (none is 0, no product or quotient of them overflows) and a
    current value of at most 10^100 in magnitude,
    [calculateMarketMetricsFromHistorical] hands over computed metrics and
    calls [Math.random()] not at all: the market cap shows the estimate of
    [calculateEstimatedMarketCap] with at most three decimals, the day
    change is the percentage change from the last but one value to the
    last, rounded to two decimals, and volatility, liquidity and dominance
    are each one of their fixed labels. *)
Theorem market_metrics_from_ordinary_history
  (sqrt : Q -> Q) (feed : DataFeed) (g : draws) (m : nat) :
  (5 <= List.length (historical feed))%nat ->
  Forall (fun data => ordinary (value data)) (historical feed) ->
  Qabs (current_value feed) <= 10 ^ 100 ->
  let h := historical feed in
  let n := List.length h in
  exists weekChange monthChange volatility liquidity dominance,
    calculateMarketMetricsFromHistorical sqrt feed g m
    = (Some (HistoricalMetrics (toLocaleString (calculateEstimatedMarketCap feed))
               (toFixed 2 ((value_at h (n - 1) - value_at h (n - 2))
                           / value_at h (n - 2) * 100))
               weekChange monthChange volatility liquidity dominance),
       m)
    /\ In volatility ["Low"; "Medium"; "High"]
    /\ In liquidity ["High"; "Medium-High"; "Medium"]
    /\ In dominance ["45%"; "18%"; "4%"; "3%"; "5%"].
Proof.
  intros H5 Hord _. cbv zeta.
  assert (Hall : Forall (fun data => ~ value data == 0) (historical feed)).
  { eapply Forall_impl; [|exact Hord]. intros data Hd. now apply ordinary_nonzero. }
  clear Hord.
  rewrite (calculateMarketMetrics_long sqrt feed g m H5).
  set (h := historical feed) in *. set (n := List.length h) in *.
  assert (Hv : forall i, (i < n)%nat -> ~ value_at h i == 0)
    by (intros i Hi; now apply value_at_nonzero).
  assert (Hd : ~ value_at h (n - 2) == 0) by (apply Hv; unfold n in *; lia).
  assert (Hw : ~ (if (7 <? n)%nat then value_at h (n - 8) else value_at h (n - 1)) == 0).
  { destruct (7 <? n)%nat; apply Hv; unfold n in *; lia. }
  assert (Hm : ~ (if (30 <? n)%nat then value_at h (n - 31) else value_at h (n - 1)) == 0).
  { destruct (30 <? n)%nat; apply Hv; unfold n in *; lia. }
  rewrite (div_some _ _ Hd), (div_some _ _ Hw), (div_some _ _ Hm). cbn [obind].
  destruct (proj2 (volatilityOf_some_iff sqrt h ltac:(unfold n in H5; lia)))
    as [v [Ev Hlabel]].
  { intros i Hi. apply Hv. lia. }
  rewrite Ev. cbn [obind].
  do 5 eexists. split; [reflexivity|]. split; [exact Hlabel|]. split.
  - destruct (includes _ "bitcoin" || includes _ "ethereum"); [simpl; auto|].
    destruct (includes _ "dogecoin" || includes _ "shiba"); simpl; auto.
  - destruct (includes _ "bitcoin"); [simpl; auto|].
    destruct (includes _ "ethereum"); [simpl; auto|].
    destruct (includes _ "bnb"); [simpl; auto|].
    destruct (includes _ "solana"); simpl; auto 6.
Qed.

Lemma market_metrics_from_ordinary_history_witness :
  exists weekChange monthChange volatility liquidity dominance,
    calculateMarketMetricsFromHistorical floor_sqrt fallingFeed drawsHigh 0%nat
    = (Some (HistoricalMetrics (toLocaleString (calculateEstimatedMarketCap fallingFeed))
               (toFixed 2 ((value_at falling15 14 - value_at falling15 13)
                           / value_at falling15 13 * 100))
               weekChange monthChange volatility liquidity dominance),
       0%nat)
    /\ In volatility ["Low"; "Medium"; "High"]
    /\ In liquidity ["High"; "Medium-High"; "Medium"]
    /\ In dominance ["45%"; "18%"; "4%"; "3%"; "5%"].
Proof.
  apply (market_metrics_from_ordinary_history floor_sqrt fallingFeed drawsHigh 0%nat).
  - simpl. lia.
  - unfold fallingFeed, falling15. cbn [historical map].
    repeat (apply Forall_cons;
            [split; cbn [value]; vm_compute; discriminate|]).
    apply Forall_nil.
  - vm_compute. discriminate.
Defined.

End MarketMetricsFacts.

(** ** The prediction-submit handler: the whole result *)

Section HandlerExtras.
Import JS Types Landing.
Local Open Scope Q_scope.

Lemma trendMultiplierOf_run (t : string) (g : draws) (n : nat) :
  trendMultiplierOf t g n
  = (if String.eqb t "up" then (12 # 10) + (g n * (4 # 10))
     else if String.eqb t "down" then (7 # 10) + (g n * (2 # 10))
     else (9 # 10) + (g n * (2 # 10)),
     S n).
Proof. reflexivity. Qed.


Lemma handlePredictionSubmit_blank (q : string) (feeds : list DataFeed)
  (g : draws) (n : nat) :
  blank q = true -> handlePredictionSubmit q feeds g n = (None, n).
Proof. intros H. unfold handlePredictionSubmit. now rewrite H. Qed.

Lemma handlePredictionSubmit_not_blank (q : string) (feeds : list DataFeed)
  (g : draws) (n : nat) (pd : PredictionData) :
  fst (handlePredictionSubmit q feeds g n) = Some pd -> blank q = false.
Proof.
  unfold handlePredictionSubmit. destruct (blank q); [discriminate | reflexivity].
Qed.

(** The run of the handler on a question that is not blank. *)
Lemma handlePredictionSubmit_price (q : string) (feeds : list DataFeed)
  (g : draws) (n : nat) :
  blank q = false ->
  exists pd,
    handlePredictionSubmit q feeds g n
    = (Some pd, (22 + reasoningDraws (hasPriceQuestion q) (primaryAssetOf q) + n)%nat)
    /\ question pd = q
    /\ dataFeeds pd = feeds
    /\ identified_assets (processedQuery pd) = QueryParser.extractAssetsFromQuery q
    /\ price_prediction (verificationResult pd)
       = let p := round2 (currentPriceFor q feeds
                          * fst (trendMultiplierOf (trendFor q feeds) g n)) in
         if hasPriceQuestion q then
           Some (mkPricePrediction (str_or (primaryAssetOf q) "Bitcoin")
                   (currentPriceFor q feeds) p
                   (round2 (p * (9 # 10)), round2 (p * (11 # 10)))
                   (timeframeOf q)
                   (map (fun entry => (fst entry, round2 (currentPriceFor q feeds * snd entry)))
                        (fst (modelMultipliersOf
                                (fst (trendMultiplierOf (trendFor q feeds) g n)) g (S n))))
                   (intervalsAround p))
         else None.
Proof.
  intros Hb. unfold handlePredictionSubmit, currentPriceFor, trendFor, primaryAssetOf,
    intervalsAround.
  rewrite Hb.
  set (pa := hd "Bitcoin" (QueryParser.extractAssetsFromQuery q)).
  set (t := match findPrimary feeds pa with
            | Some feed => str_or (trend feed) "stable"
            | None => "stable"
            end).
  set (c := match findPrimary feeds pa with
            | Some feed => num_or (current_value feed) 0
            | None => 0
            end).
  set (hp := hasPriceQuestion q).
  cbv zeta.
  rewrite bind_run, trendMultiplierOf_snd.
  rewrite bind_run, modelMultipliersOf_snd.
  rewrite bind_run, finalDecisionOf_snd.
  rewrite bind_run, confidenceOf_run. cbn [fst snd].
  rewrite bind_run, skip_run. cbn [fst snd].
  rewrite bind_run, generateVerificationDetails_snd.
  rewrite bind_run, generateModelComparison_snd. unfold ret.
  eexists. split; [f_equal; lia|].
  cbn [question dataFeeds processedQuery identified_assets verificationResult
       price_prediction].
  repeat split.
Qed.

(** The price prediction of a result. *)
Lemma price_prediction_of_result (q : string) (feeds : list DataFeed)
  (g : draws) (n : nat) (pd : PredictionData) (pp : PricePrediction) :
  fst (handlePredictionSubmit q feeds g n) = Some pd ->
  price_prediction (verificationResult pd) = Some pp ->
  let c := currentPriceFor q feeds in
  let m := fst (trendMultiplierOf (trendFor q feeds) g n) in
  pp = mkPricePrediction (str_or (primaryAssetOf q) "Bitcoin") c (round2 (c * m))
         (round2 (round2 (c * m) * (9 # 10)), round2 (round2 (c * m) * (11 # 10)))
         (timeframeOf q)
         (map (fun entry => (fst entry, round2 (c * snd entry)))
              (fst (modelMultipliersOf m g (S n))))
         (intervalsAround (round2 (c * m))).
Proof.
  intros H Hpp. cbv zeta.
  pose proof (handlePredictionSubmit_not_blank q feeds g n pd H) as Hb.
  destruct (handlePredictionSubmit_price q feeds g n Hb) as [pd' [E [_ [_ [_ Hprice]]]]].
  rewrite E in H. cbn [fst] in H. injection H as ->.
  rewrite Hprice in Hpp. cbv zeta in Hpp.
  destruct (hasPriceQuestion q); [|discriminate Hpp]. now injection Hpp as <-.
Qed.

(** The multiplier drawn for a trend. *)
Lemma trendMultiplier_range (t : string) (g : draws) (n : nat) :
  valid_draws g ->
  let m := fst (trendMultiplierOf t g n) in
  (String.eqb t "up" = true -> (12 # 10) <= m /\ m < (16 # 10))
  /\ (String.eqb t "up" = false -> String.eqb t "down" = true ->
      (7 # 10) <= m /\ m < (9 # 10))
  /\ (String.eqb t "up" = false -> String.eqb t "down" = false ->
      (9 # 10) <= m /\ m < (11 # 10))
  /\ 0 < m.
Proof.
  intros Hg. rewrite trendMultiplierOf_run. cbn [fst]. destruct (Hg n) as [H0 H1].
  destruct (String.eqb t "up"); [|destruct (String.eqb t "down")];
    repeat split; intros; try discriminate; lra.
Qed.

(** X14. [handlePredictionSubmit] returns early, without a result and
    without a call of [Math.random()], exactly on a blank question.  On any
    other question it hands over a result that carries the question, the
    feeds and the assets found in the question, holds a price prediction
    exactly when the question mentions price, value or worth, and has
    called [Math.random()] 23 times, or 30 times for a price question. *)
Theorem handlePredictionSubmit_blank_or_result
  (q : string) (feeds : list DataFeed) (g : draws) (n : nat) :
  (blank q = true -> handlePredictionSubmit q feeds g n = (None, n))
  /\ (blank q = false ->
      exists pd,
        handlePredictionSubmit q feeds g n
        = (Some pd, (22 + reasoningDraws (hasPriceQuestion q) (primaryAssetOf q) + n)%nat)
        /\ question pd = q
        /\ dataFeeds pd = feeds
        /\ identified_assets (processedQuery pd) = QueryParser.extractAssetsFromQuery q
        /\ (price_prediction (verificationResult pd) = None
            <-> hasPriceQuestion q = false)).
Proof.
  split; [apply handlePredictionSubmit_blank|].
  intros Hb. destruct (handlePredictionSubmit_price q feeds g n Hb)
    as [pd [E [Hq [Hf [Ha Hp]]]]].
  exists pd. repeat split; try assumption.
  - rewrite Hp. cbv zeta. destruct (hasPriceQuestion q); [discriminate | reflexivity].
  - rewrite Hp. cbv zeta. intros ->. reflexivity.
Qed.

(** *** The compared models *)

Lemma comparisonItem_run (predictions : list string) (base : Q) (index : nat)
  (name : string) (g : draws) (n : nat) :
  comparisonItem predictions base (index, name) g n
  = (mkModelComparisonItem name (nth index predictions "")
       (Qmin (Qmax (base + (inject_Z (Math_floor (g n * 15)) - 7)) 10) 95)
       (nth index keyFactors ""),
     S n).
Proof. reflexivity. Qed.

Lemma baseConfidenceFor_range (d : string) :
  25 <= baseConfidenceFor d /\ baseConfidenceFor d <= 85.
Proof.
  unfold baseConfidenceFor.
  repeat match goal with
         | |- context [if ?b then _ else _] => destruct b
         end; split; discriminate.
Qed.

Lemma variation_range (r : Q) :
  0 <= r -> r < 1 ->
  - 7 <= inject_Z (Math_floor (r * 15)) - 7 /\ inject_Z (Math_floor (r * 15)) - 7 <= 7.
Proof.
  intros H0 H1. unfold Math_floor.
  assert (Hlo : (0 <= Qfloor (r * 15))%Z).
  { change 0%Z with (Qfloor 0). apply Qfloor_resp_le. lra. }
  assert (Hhi : (Qfloor (r * 15) <= 14)%Z).
  { pose proof (Qfloor_le (r * 15)) as H.
    assert (Hlt : inject_Z (Qfloor (r * 15)) < inject_Z 15).
    { apply Qle_lt_trans with (r * 15); [exact H|]. change (inject_Z 15) with 15. lra. }
    rewrite <- Zlt_Qlt in Hlt. lia. }
  rewrite Zle_Qle in Hlo, Hhi. change (inject_Z 0) with 0 in Hlo.
  change (inject_Z 14) with 14 in Hhi. split; lra.
Qed.

Lemma clamp_range (x : Q) : 10 <= Qmin (Qmax x 10) 95 /\ Qmin (Qmax x 10) 95 <= 95.
Proof.
  split; [|apply Q.le_min_r].
  apply Q.min_glb; [apply Q.le_max_r | discriminate].
Qed.

Lemma clamp_idle (x : Q) : 10 <= x -> x <= 95 -> Qmin (Qmax x 10) 95 == x.
Proof.
  intros H1 H2. rewrite (Q.max_l x 10 H1). now apply Q.min_l.
Qed.

(** X15. [generateModelComparison] returns the six named models with their
    key factors, each with a confidence between 10 and 95 whatever the
    draws are; with draws in [0, 1) the clamp to 10..95 never takes effect:
    each confidence is the base confidence of the decision plus a whole
    number between -7 and 7. *)
Theorem model_comparison_confidence_clamped
  (decision asset trend : string) (g : draws) (n : nat) :
  let items := fst (generateModelComparison decision asset trend g n) in
  map model_name items = modelNames
  /\ map key_factor items = keyFactors
  /\ Forall (fun item => 10 <= item_confidence item /\ item_confidence item <= 95) items
  /\ (valid_draws g ->
      Forall (fun item =>
                baseConfidenceFor decision - 7 <= item_confidence item
                /\ item_confidence item <= baseConfidenceFor decision + 7
                /\ exists variation : Z,
                     item_confidence item
                     == baseConfidenceFor decision + inject_Z variation)
             items).
Proof.
  cbv zeta. unfold generateModelComparison.
  set (f := comparisonItem (predictionsFor decision) (baseConfidenceFor decision)).
  set (entries := combine (seq 0 (List.length modelNames)) modelNames).
  assert (H : Forall2 (fun entry item =>
                         model_name item = snd entry
                         /\ key_factor item = nth (fst entry) keyFactors ""
                         /\ (10 <= item_confidence item /\ item_confidence item <= 95)
                         /\ (valid_draws g ->
                             baseConfidenceFor decision - 7 <= item_confidence item
                             /\ item_confidence item <= baseConfidenceFor decision + 7
                             /\ exists variation : Z,
                                  item_confidence item
                                  == baseConfidenceFor decision + inject_Z variation))
                      entries (fst (mapM f entries g n))).
  { apply mapM_Forall. intros [index name] m _. unfold f.
    rewrite comparisonItem_run. cbn [fst snd model_name key_factor item_confidence].
    split; [reflexivity|]. split; [reflexivity|]. split; [apply clamp_range|].
    intros Hg. destruct (Hg m) as [H0 H1].
    destruct (variation_range (g m) H0 H1) as [Hv1 Hv2].
    destruct (baseConfidenceFor_range decision) as [Hb1 Hb2].
    pose proof (clamp_idle (baseConfidenceFor decision
                            + (inject_Z (Math_floor (g m * 15)) - 7))
                  ltac:(lra) ltac:(lra)) as E.
    split; [rewrite E; lra|]. split; [rewrite E; lra|].
    exists (Math_floor (g m * 15) - 7)%Z. rewrite E.
    unfold Z.sub. rewrite inject_Z_plus. change (inject_Z (- (7))) with (- (7 # 1)).
    ring. }
  assert (Hn : map model_name (fst (mapM f entries g n)) = map snd entries).
  { apply Forall2_map_eq. eapply Forall2_impl; [|exact H]. now intros a b [E _]. }
  assert (Hk : map key_factor (fst (mapM f entries g n))
               = map (fun entry => nth (fst entry) keyFactors "") entries).
  { apply Forall2_map_eq. eapply Forall2_impl; [|exact H]. now intros a b [_ [E _]]. }
  split; [rewrite Hn; reflexivity|]. split; [rewrite Hk; reflexivity|].
  split.
  - clear -H. induction H; constructor; tauto.
  - intros Hg. clear -H Hg. induction H; constructor; tauto.
Qed.

(** *** The model responses *)

(** X16. With draws in [0, 1), each of the five model responses of a
    result has its confidence in a band of its own around the overall
    confidence (DeepSeek R1 Zero from 0.15 below to 0.15 above, Gemini
    Flash Lite 2.0 from 0.20 below to 0.05 above, Mistral Small 3 from 0.25
    to 0.05 below, QwQ 32B from 0.05 below to 0.10 above, Llama 3.3 70B
    from the overall confidence to 0.15 above); every one of them is at
    least 0.35 and below 1.10, and the model agreement is within 0.05 of the
    overall confidence. *)
Theorem model_response_confidence_bands
  (q : string) (feeds : list DataFeed) (g : draws) (n : nat) (pd : PredictionData) :
  valid_draws g ->
  fst (handlePredictionSubmit q feeds g n) = Some pd ->
  let overall := confidence (verificationResult pd) in
  let v := verification (verificationResult pd) in
  Forall2 (in_band overall) responseBands (model_responses v)
  /\ Forall (fun response =>
               (35 # 100) <= response_confidence (snd response)
               /\ response_confidence (snd response) < (110 # 100))
            (model_responses v)
  /\ overall - (5 # 100) <= model_agreement v
  /\ model_agreement v < overall + (5 # 100).
Proof.
  intros Hg H.
  destruct (handlePredictionSubmit_run q feeds g n pd H) as [_ [_ [Hc [Hv _]]]].
  cbv zeta in Hc, Hv. cbv zeta. rewrite Hv, Hc.
  set (c := (6 # 10) + g (7 + n)%nat * (35 # 100)).
  assert (Hcr : (6 # 10) <= c /\ c < (95 # 100)).
  { unfold c. destruct (Hg (7 + n)%nat). split; lra. }
  destruct Hcr as [Hc1 Hc2]. clearbody c.
  set (m := (reasoningDraws (hasPriceQuestion q) (primaryAssetOf q) + (8 + n))%nat).
  clearbody m.
  destruct (Hg m) as [A0 A1]. destruct (Hg (S m)) as [B0 B1].
  destruct (Hg (S (S (S m)))) as [C0 C1].
  destruct (Hg (S (S (S (S m))))) as [D0 D1].
  destruct (Hg (S (S (S (S (S m)))))) as [E0 E1].
  destruct (Hg (S (S (S (S (S (S m))))))) as [F0 F1].
  unfold generateVerificationDetails, bind, random, ret.
  cbn [skip bind random ret fst snd model_responses model_agreement].
  unfold bind, random, ret. cbn [fst snd model_responses model_agreement].
  split; [|split; [|split]].
  - unfold responseBands, in_band.
    repeat (apply Forall2_cons; [cbn; split; [reflexivity|split; lra]|]).
    apply Forall2_nil.
  - repeat (apply Forall_cons; [cbn; split; lra|]). apply Forall_nil.
  - cbn. lra.
  - cbn. lra.
Qed.

Lemma model_response_confidence_bands_witness :
  exists pd,
    fst (handlePredictionSubmit priceQuestion [risingBitcoin] drawsHigh 0%nat) = Some pd
    /\ Forall2 (in_band (confidence (verificationResult pd))) responseBands
         (model_responses (verification (verificationResult pd))).
Proof.
  eexists. split; [vm_compute; reflexivity|].
  pose proof (model_response_confidence_bands priceQuestion [risingBitcoin] drawsHigh
                0%nat _ drawsHigh_valid eq_refl) as H.
  cbv zeta in H. destruct H as [H _]. exact H.
Defined.

(** *** The price prediction *)

(** X17. With draws in [0, 1) and a current price that is not negative,
    the ranges of a price prediction are nested around the predicted price:
    the 90 percent interval holds the 70 percent interval, which holds the
    predicted range, which holds the 50 percent interval, which holds the
    predicted price. *)
Theorem confidence_intervals_nested
  (q : string) (feeds : list DataFeed) (g : draws) (n : nat)
  (pd : PredictionData) (pp : PricePrediction) :
  valid_draws g ->
  fst (handlePredictionSubmit q feeds g n) = Some pd ->
  price_prediction (verificationResult pd) = Some pp ->
  0 <= current_price pp ->
  exists lo90 hi90 lo70 hi70 lo50 hi50,
    confidence_intervals pp
    = [ ("90%", (lo90, hi90)); ("70%", (lo70, hi70)); ("50%", (lo50, hi50)) ]
    /\ 0 <= predicted_price pp
    /\ lo90 <= lo70 /\ lo70 <= fst (predicted_range pp)
    /\ fst (predicted_range pp) <= lo50 /\ lo50 <= predicted_price pp
    /\ predicted_price pp <= hi50 /\ hi50 <= snd (predicted_range pp)
    /\ snd (predicted_range pp) <= hi70 /\ hi70 <= hi90.
Proof.
  intros Hg H Hpp Hc.
  pose proof (price_prediction_of_result q feeds g n pd pp H Hpp) as E.
  cbv zeta in E.
  destruct (trendMultiplier_range (trendFor q feeds) g n Hg) as [_ [_ [_ Hm]]].
  cbv zeta in Hm.
  set (m := fst (trendMultiplierOf (trendFor q feeds) g n)) in *.
  set (c := currentPriceFor q feeds) in *.
  clearbody m c. subst pp.
  cbn [current_price] in Hc.
  cbn [predicted_price predicted_range confidence_intervals].
  unfold intervalsAround, fst, snd.
  set (p := round2 (c * m)).
  assert (Hp : 0 <= p) by (apply round2_nonneg; nra).
  pose proof (round2_fixed (c * m)) as Hfix. fold p in Hfix. clearbody p.
  do 6 eexists. split; [reflexivity|].
  split; [exact Hp|].
  repeat split; try (apply round2_mono; lra).
  - apply Qle_trans with (round2 p); [apply round2_mono; lra|].
    rewrite Hfix. apply Qle_refl.
  - apply Qle_trans with (round2 p); [|apply round2_mono; lra].
    rewrite Hfix. apply Qle_refl.
Qed.

Lemma confidence_intervals_nested_witness :
  exists pd pp,
    fst (handlePredictionSubmit priceQuestion [risingBitcoin] drawsHigh 0%nat) = Some pd
    /\ price_prediction (verificationResult pd) = Some pp
    /\ exists lo90 hi90 lo70 hi70 lo50 hi50,
         confidence_intervals pp
         = [ ("90%", (lo90, hi90)); ("70%", (lo70, hi70)); ("50%", (lo50, hi50)) ]
         /\ lo90 <= lo70 /\ lo50 <= predicted_price pp
         /\ predicted_price pp <= hi50 /\ hi70 <= hi90.
Proof.
  do 2 eexists. split; [vm_compute; reflexivity|]. split; [vm_compute; reflexivity|].
  destruct (confidence_intervals_nested priceQuestion [risingBitcoin] drawsHigh 0%nat
              _ _ drawsHigh_valid eq_refl eq_refl)
    as [lo90 [hi90 [lo70 [hi70 [lo50 [hi50 H]]]]]].
  - vm_compute. discriminate.
  - destruct H as [E [_ [H1 [_ [_ [H4 [H5 [_ [_ H8]]]]]]]]].
    exists lo90, hi90, lo70, hi70, lo50, hi50. split; [exact E|].
    repeat split; assumption.
Defined.

(** X18. With draws in [0, 1) and a current price that is not negative,
    the predicted price follows the trend of the primary asset: between 1.2
    and 1.6 times the current price for an "up" trend, between 0.7 and 0.9
    times for a "down" trend, between 0.9 and 1.1 times otherwise (bounds
    rounded to two decimals); the current price of the prediction is the
    one of the primary asset's feed. *)
Theorem predicted_price_follows_trend
  (q : string) (feeds : list DataFeed) (g : draws) (n : nat)
  (pd : PredictionData) (pp : PricePrediction) :
  valid_draws g ->
  fst (handlePredictionSubmit q feeds g n) = Some pd ->
  price_prediction (verificationResult pd) = Some pp ->
  0 <= current_price pp ->
  let c := current_price pp in
  let p := predicted_price pp in
  current_price pp = currentPriceFor q feeds
  /\ (trendFor q feeds = "up" ->
      round2 (c * (12 # 10)) <= p /\ p <= round2 (c * (16 # 10)))
  /\ (trendFor q feeds = "down" ->
      round2 (c * (7 # 10)) <= p /\ p <= round2 (c * (9 # 10)))
  /\ (trendFor q feeds <> "up" -> trendFor q feeds <> "down" ->
      round2 (c * (9 # 10)) <= p /\ p <= round2 (c * (11 # 10))).
Proof.
  intros Hg H Hpp Hc.
  pose proof (price_prediction_of_result q feeds g n pd pp H Hpp) as E.
  cbv zeta in E.
  destruct (trendMultiplier_range (trendFor q feeds) g n Hg) as [Hup [Hdown [Hstable _]]].
  cbv zeta in Hup, Hdown, Hstable.
  set (m := fst (trendMultiplierOf (trendFor q feeds) g n)) in *.
  clearbody m. subst pp.
  cbn [current_price] in Hc. cbv zeta. cbn [current_price predicted_price].
  set (c := currentPriceFor q feeds) in *.
  split; [reflexivity|]. split; [|split].
  - intros Et. rewrite Et in Hup. destruct (Hup eq_refl) as [H1 H2].
    split; apply round2_mono; nra.
  - intros Et. rewrite Et in Hdown. destruct (Hdown eq_refl eq_refl) as [H1 H2].
    split; apply round2_mono; nra.
  - intros N1 N2. apply String.eqb_neq in N1, N2.
    destruct (Hstable N1 N2) as [H1 H2].
    split; apply round2_mono; nra.
Qed.

Lemma predicted_price_follows_trend_witness :
  exists pd pp,
    fst (handlePredictionSubmit priceQuestion [risingBitcoin] drawsHigh 0%nat) = Some pd
    /\ price_prediction (verificationResult pd) = Some pp
    /\ round2 (current_price pp * (12 # 10)) <= predicted_price pp
    /\ predicted_price pp <= round2 (current_price pp * (16 # 10)).
Proof.
  do 2 eexists. split; [vm_compute; reflexivity|]. split; [vm_compute; reflexivity|].
  pose proof (predicted_price_follows_trend priceQuestion [risingBitcoin] drawsHigh 0%nat
                _ _ drawsHigh_valid eq_refl eq_refl) as H.
  cbv zeta in H. destruct H as [_ [Hup _]].
  - vm_compute. discriminate.
  - apply Hup. reflexivity.
Defined.

End HandlerExtras.

(** ** The PredictionMarket view *)

Section ViewFacts.
Import JS Types MarketAnalytics Landing PredictionMarket.
Local Open Scope Q_scope.

Lemma guard_pos (p : Q) : 0 < Qmax (1 # 100) p.
Proof.
  apply Qlt_le_trans with (1 # 100); [reflexivity | apply Q.le_max_l].
Qed.

Lemma count_guard_pos (n : nat) : 0 < Qmax 1 (of_nat n).
Proof.
  apply Qlt_le_trans with 1; [reflexivity | apply Q.le_max_l].
Qed.

Lemma squares_grow (p : Q) (values : list Q) (acc : Q) :
  0 <= acc ->
  0 <= fold_left (fun sum val => sum + (num_or val 0 - p) ^ 2) values acc.
Proof.
  intros H. apply Qle_trans with acc; [exact H|].
  apply fold_left_grows. intros s x _.
  pose proof (Qsquare_nonneg (num_or x 0 - p)). lra.
Qed.

Lemma meanSquaredDeviation_some (pp : PricePrediction) :
  exists v, meanSquaredDeviation pp = Some v /\ 0 <= v.
Proof.
  unfold meanSquaredDeviation.
  pose proof (count_guard_pos (List.length (map snd (model_predictions pp)))) as Hc.
  rewrite div_some by lra. eexists. split; [reflexivity|].
  apply Qle_shift_div_l; [exact Hc|]. rewrite Qmult_0_l.
  apply squares_grow. apply Qle_refl.
Qed.

Lemma deviationRow_some (pp : PricePrediction) (model : string) (prediction : Q) :
  deviationRow pp (model, prediction)
  = let dp := (num_or prediction 0 - predicted_price pp)
              / Qmax (1 # 100) (predicted_price pp) * 100 in
    Some (mkDeviationRow model dp (Qle_bool 0 dp) (Qmin 50 (Qabs dp))).
Proof.
  unfold deviationRow. pose proof (guard_pos (predicted_price pp)).
  rewrite div_some by lra. reflexivity.
Qed.

Lemma deviation_sign (dev guard : Q) :
  0 < guard -> (0 <= dev / guard * 100 <-> 0 <= dev).
Proof.
  intros H. set (q := dev / guard).
  assert (E : q * guard == dev) by (unfold q; field; lra).
  split; intros H'; nra.
Qed.



(** X20. Every row of the deviation chart is computed without a zero
    divisor, whatever the predicted price is (the divisor is at least
    0.01): the row carries the model's name, is green exactly when the
    model's prediction is not below the predicted price, and its bar is
    between 0 and 50 percent wide, 50 exactly when the deviation is 50
    percent or more either way. *)
Theorem deviation_row_guarded (pp : PricePrediction) (entry : string * Q) :
  exists row,
    deviationRow pp entry = Some row
    /\ row_model row = fst entry
    /\ (row_green row = true <-> predicted_price pp <= num_or (snd entry) 0)
    /\ 0 <= row_width row /\ row_width row <= 50
    /\ (row_width row == 50 <-> 50 <= Qabs (deviationPercent row)).
Proof.
  destruct entry as [model prediction]. rewrite deviationRow_some. cbv zeta.
  eexists. split; [reflexivity|].
  cbn [row_model row_green row_width deviationPercent fst snd].
  pose proof (guard_pos (predicted_price pp)) as Hg.
  set (dp := (num_or prediction 0 - predicted_price pp)
             / Qmax (1 # 100) (predicted_price pp) * 100).
  split; [reflexivity|]. split; [|split; [|split]].
  - rewrite Qle_bool_iff. unfold dp. rewrite (deviation_sign _ _ Hg). split; intros; lra.
  - apply Q.min_glb; [discriminate | apply Qabs_nonneg].
  - apply Q.le_min_l.
  - split.
    + intros E. rewrite <- E. apply Q.le_min_r.
    + intros H. now apply Q.min_l.
Qed.

(** X21. For a square root that is not negative on non-negative numbers,
    the statistics tiles are computed without a zero divisor, even for an
    empty set of model predictions or a predicted price of 0: the standard
    deviation is not negative and the model agreement is at most 100
    percent. *)
Theorem model_agreement_at_most_100 (sqrt : Q -> Q) (pp : PricePrediction) :
  (forall x, 0 <= x -> 0 <= sqrt x) ->
  exists deviation agreement,
    standardDeviation sqrt pp = Some deviation
    /\ modelAgreement sqrt pp = Some agreement
    /\ 0 <= deviation
    /\ agreement <= 100.
Proof.
  intros Hsqrt. unfold standardDeviation, modelAgreement.
  destruct (meanSquaredDeviation_some pp) as [v [Ev Hv]]. rewrite Ev. cbn [obind].
  pose proof (guard_pos (predicted_price pp)) as Hg.
  rewrite div_some by lra. cbn [obind].
  do 2 eexists. split; [reflexivity|]. split; [reflexivity|]. split.
  - apply num_or_nonneg; [now apply Hsqrt | apply Qle_refl].
  - apply Qle_trans with (toFixed 1 100); [|discriminate]. apply toFixed_mono.
    assert (Ha : 0 <= sqrt v / Qmax (1 # 100) (predicted_price pp)).
    { apply Qle_shift_div_l; [exact Hg|]. rewrite Qmult_0_l. now apply Hsqrt. }
    lra.
Qed.

Lemma model_agreement_at_most_100_witness :
  exists deviation agreement,
    standardDeviation floor_sqrt examplePrediction = Some deviation
    /\ modelAgreement floor_sqrt examplePrediction = Some agreement
    /\ 0 <= deviation
    /\ agreement <= 100.
Proof.
  apply (model_agreement_at_most_100 floor_sqrt examplePrediction).
  intros x _. apply floor_sqrt_nonneg.
Defined.

End ViewFacts.

(** ** From the question to the price prediction *)

Section SubmitFacts.
Import JS Types Landing.
Local Open Scope Q_scope.





End SubmitFacts.

(** ** The prediction service *)

Section ServiceFacts.
Import JS PredictionService.


End ServiceFacts.

(** ** The mock history of the FTSO client *)

Section ApiFacts.
Import JS Api.
Local Open Scope Q_scope.

Lemma mockPoint_run (now : Z) (min max : Q) (i : nat) (g : draws) (n : nat) :
  mockPoint now min max i g n
  = (mkPoint (now - Z.of_nat i * ms_per_hour)%Z
       (toFixed (if Qltb min 1 then 4 else 2) (min + g n * (max - min))),
     S n).
Proof. reflexivity. Qed.

(** X24. With draws in [0, 1) and [min <= max],
    [generateMockHistoricalData] returns 24 hourly points in chronological
    order, the last one dated now, every price between [min] and [max] as
    [toFixed] rounds them (to 4 decimals when [min] is below 1, else to 2),
    and calls [Math.random()] 24 times. *)
Theorem generateMockHistoricalData_hourly_in_range
  (now : Z) (min max : Q) (g : draws) (n : nat) :
  valid_draws g -> min <= max ->
  let decimals := if Qltb min 1 then 4%nat else 2%nat in
  let points := fst (generateMockHistoricalData now min max g n) in
  map hp_timestamp points
  = map (fun i => (now - Z.of_nat i * ms_per_hour)%Z) (rev (seq 0 24))
  /\ Forall (fun point => toFixed decimals min <= price point
                          /\ price point <= toFixed decimals max) points
  /\ snd (generateMockHistoricalData now min max g n) = (24 + n)%nat.
Proof.
  intros Hg Hmm. cbv zeta. unfold generateMockHistoricalData.
  rewrite bind_run. unfold ret. cbn [fst snd].
  assert (H : Forall2 (fun (i : nat) point =>
                         hp_timestamp point = (now - Z.of_nat i * ms_per_hour)%Z
                         /\ toFixed (if Qltb min 1 then 4%nat else 2%nat) min <= price point
                         /\ price point <= toFixed (if Qltb min 1 then 4%nat else 2%nat) max)
                      (seq 0 24) (fst (mapM (mockPoint now min max) (seq 0 24) g n))).
  { apply mapM_Forall. intros i m _. rewrite mockPoint_run. cbn [fst hp_timestamp price].
    destruct (Hg m) as [H0 H1].
    split; [reflexivity|]. split; apply toFixed_mono; nra. }
  apply Forall2_rev in H.
  set (points := rev (fst (mapM (mockPoint now min max) (seq 0 24) g n))) in *.
  split; [|split].
  - apply Forall2_map_eq. eapply Forall2_impl; [|exact H]. now intros a b [E _].
  - clear -H. induction H; constructor; tauto.
  - rewrite (mapM_one_draw (mockPoint now min max) (seq 0 24) g n); reflexivity.
Qed.

Lemma generateMockHistoricalData_hourly_in_range_witness :
  map hp_timestamp (fst (generateMockHistoricalData 0 (57 # 100) (60 # 100) drawsHigh 0%nat))
  = map (fun i => (0 - Z.of_nat i * ms_per_hour)%Z) (rev (seq 0 24))
  /\ Forall (fun point => toFixed 4 (57 # 100) <= price point
                          /\ price point <= toFixed 4 (60 # 100))
            (fst (generateMockHistoricalData 0 (57 # 100) (60 # 100) drawsHigh 0%nat)).
Proof.
  pose proof (generateMockHistoricalData_hourly_in_range 0%Z (57 # 100) (60 # 100)
                drawsHigh 0%nat drawsHigh_valid) as H.
  cbv zeta in H. destruct H as [H1 [H2 _]].
  - discriminate.
  - split; [exact H1 | exact H2].
Defined.

End ApiFacts.

(** ** The displayed feeds *)

Section DisplayFacts.
Import JS Api DataFeedDisplay.
Local Open Scope Q_scope.

Lemma insert_perm {A : Type} (cmp : A -> A -> Q) (x : A) (l : list A) :
  Permutation (x :: l) (insert cmp x l).
Proof.
  induction l as [|y l IH]; simpl; [apply Permutation_refl|].
  destruct (Qle_bool (cmp x y) 0); [apply Permutation_refl|].
  apply perm_trans with (y :: x :: l); [apply perm_swap | now apply perm_skip].
Qed.

Lemma array_sort_perm {A : Type} (cmp : A -> A -> Q) (l : list A) :
  Permutation l (array_sort cmp l).
Proof.
  induction l as [|x l IH]; simpl; [apply perm_nil|].
  apply perm_trans with (x :: array_sort cmp l); [now apply perm_skip|].
  apply insert_perm.
Qed.

Lemma insert_sorted {A : Type} (cmp : A -> A -> Q) (R : A -> A -> Prop) (x : A)
  (l : list A) :
  (forall a b c, R a b -> R b c -> R a c) ->
  (forall a b, Qle_bool (cmp a b) 0 = true -> R a b) ->
  (forall a b, Qle_bool (cmp a b) 0 = false -> R b a) ->
  StronglySorted R l -> StronglySorted R (insert cmp x l).
Proof.
  intros Htrans Hle Hgt. induction 1 as [|y l Hl IH Hy]; simpl.
  - repeat constructor.
  - destruct (Qle_bool (cmp x y) 0) eqn:E.
    + constructor; [now constructor|]. constructor; [now apply Hle|].
      eapply Forall_impl; [|exact Hy]. intros z Hz. apply Htrans with y; [|exact Hz].
      now apply Hle.
    + constructor; [exact IH|].
      apply (Permutation_Forall (insert_perm cmp x l)).
      constructor; [now apply Hgt | exact Hy].
Qed.

Lemma array_sort_sorted {A : Type} (cmp : A -> A -> Q) (R : A -> A -> Prop) (l : list A) :
  (forall a b c, R a b -> R b c -> R a c) ->
  (forall a b, Qle_bool (cmp a b) 0 = true -> R a b) ->
  (forall a b, Qle_bool (cmp a b) 0 = false -> R b a) ->
  StronglySorted R (array_sort cmp l).
Proof.
  intros Htrans Hle Hgt. induction l as [|x l IH]; simpl; [constructor|].
  now apply insert_sorted.
Qed.

(** The two filters in a row are one filter. *)
Lemma filtered_is_filter (localeCompare : string -> string -> Q)
  (feeds : list FTSOFeed) (sortBy : SortBy) (sortOrder : SortOrder)
  (filterOption : FilterOption) (searchQuery : string) :
  filteredFeeds localeCompare feeds sortBy sortOrder filterOption searchQuery
  = array_sort (compareFeeds localeCompare sortBy sortOrder)
      (filter (shown filterOption searchQuery) feeds).
Proof.
  unfold filteredFeeds. f_equal.
  assert (Hall : forall l : list FTSOFeed, filter (fun _ => true) l = l).
  { induction l as [|x l IH]; simpl; congruence. }
  assert (Hand : forall (p r : FTSOFeed -> bool) l,
             filter r (filter p l) = filter (fun x => p x && r x) l).
  { intros p r l. induction l as [|x l IH]; simpl; [reflexivity|].
    destruct (p x); simpl; [destruct (r x)|]; congruence. }
  unfold shown. destruct (String.eqb searchQuery ""); cbn [orb].
  - destruct filterOption; cbn [andb]; [now rewrite Hall | reflexivity | reflexivity].
  - destruct filterOption.
    + apply filter_ext. intros feed. now rewrite andb_true_r.
    + apply Hand.
    + apply Hand.
Qed.

(** X25. The feeds handed to [setFilteredFeeds] are, in some order, exactly
    the feeds that pass the search box (every feed for an empty search,
    else those whose lower-cased name or id includes the lower-cased
    search) and the trend filter (a change of 0 counts as up), each as
    often as it occurs among the feeds; sorting loses and adds nothing,
    whatever [localeCompare] answers. *)
Theorem filteredFeeds_are_the_shown_feeds
  (localeCompare : string -> string -> Q) (feeds : list FTSOFeed)
  (sortBy : SortBy) (sortOrder : SortOrder) (filterOption : FilterOption)
  (searchQuery : string) :
  let result :=
    filteredFeeds localeCompare feeds sortBy sortOrder filterOption searchQuery in
  Permutation (filter (shown filterOption searchQuery) feeds) result
  /\ (forall feed, In feed result <-> In feed feeds /\ shown filterOption searchQuery feed = true)
  /\ (List.length result <= List.length feeds)%nat
  /\ (filterOption = All -> searchQuery = "" -> Permutation feeds result).
Proof.
  cbv zeta. rewrite filtered_is_filter.
  pose proof (array_sort_perm (compareFeeds localeCompare sortBy sortOrder)
                (filter (shown filterOption searchQuery) feeds)) as Hp.
  split; [exact Hp|]. split; [|split].
  - intros feed. rewrite <- filter_In. split; intros H.
    + eapply Permutation_in; [apply Permutation_sym; exact Hp | exact H].
    + eapply Permutation_in; [exact Hp | exact H].
  - rewrite <- (Permutation_length Hp). apply filter_length_le.
  - intros -> ->.
    assert (E : filter (shown All "") feeds = feeds).
    { clear. induction feeds as [|x l IH]; simpl; congruence. }
    rewrite E in Hp |- *. exact Hp.
Qed.

(** X26. Sorted by price or by change, the displayed feeds are in the
    order of that number: ascending, each feed's number is at most that of
    every feed after it, and descending at least. *)
Theorem filteredFeeds_sorted_by_number
  (localeCompare : string -> string -> Q) (feeds : list FTSOFeed)
  (sortBy : SortBy) (sortOrder : SortOrder) (filterOption : FilterOption)
  (searchQuery : string) :
  sortBy <> ByName ->
  StronglySorted (in_order sortBy sortOrder)
    (filteredFeeds localeCompare feeds sortBy sortOrder filterOption searchQuery).
Proof.
  intros Hby. rewrite filtered_is_filter. apply array_sort_sorted.
  - intros a b c. unfold in_order. destruct sortOrder; intros; lra.
  - intros a b H. apply Qle_bool_iff in H. unfold compareFeeds, in_order, sortKey in *.
    destruct sortBy; [contradiction| |]; destruct sortOrder; lra.
  - intros a b H. apply not_true_iff_false in H. rewrite Qle_bool_iff in H.
    unfold compareFeeds, in_order, sortKey in *.
    destruct sortBy; [contradiction| |]; destruct sortOrder; lra.
Qed.

Lemma filteredFeeds_sorted_by_number_witness :
  StronglySorted (in_order ByPrice Desc)
    (filteredFeeds (fun _ _ => 0) exampleFeeds ByPrice Desc Down "usd").
Proof.
  apply (filteredFeeds_sorted_by_number (fun _ _ => 0) exampleFeeds ByPrice Desc Down "usd").
  discriminate.
Defined.

(** X27. A click on a column header makes that column the sort column: a
    click on another column than the current one sorts ascending, a click
    on the current one reverses the order, so that two clicks on the
    current column change nothing. *)
Theorem handleSortChange_toggles (state : SortBy * SortOrder) (column : SortBy) :
  fst (handleSortChange state column) = column
  /\ (column <> fst state -> snd (handleSortChange state column) = Asc)
  /\ (column = fst state -> snd (handleSortChange state column) <> snd state)
  /\ (column = fst state ->
      handleSortChange (handleSortChange state column) column = state).
Proof.
  destruct state as [[| |] [|]]; destruct column; cbn;
    repeat split; intros; congruence.
Qed.

End DisplayFacts.
